(** * AI-BUG-HUNTER: the execution and control core

    A shallow embedding of [command_executer.py], [ai.py] and [main.py]:
    the file-name sanitizer, the command denylist, the command runner, the
    output filter, the response validator and the control loop, with the
    properties the specification states about them.

    Python strings are sequences of code points and decoded JSON is one
    dynamic type. Stateful code is a function from the world (files,
    child processes, log, prompts sent) to a result, which is a value or
    an exception, and a new world. What lies outside the program is a
    record [Env]: the libraries ([json.loads], [shlex.split]), the oracle,
    and what the operating system answers when a file is opened or a
    program started. Paths are POSIX paths. The passing of time is not
    modelled beyond whether a child ends within a timeout, and of what a
    child does only its exit code and what it writes to its standard
    streams. *)

From Stdlib Require Import ZArith NArith Ascii String List Bool Lia.
From Stdlib Require Import Floats.SpecFloat.
From stdpp Require Import base gmap list.

Open Scope N_scope.

(** ** Python strings

    A Python [str] is a sequence of Unicode code points; [len], slicing and
    the [re] module all work on code points. *)

Module PyStr.

Definition pystr : Type := list N.

(** An ASCII literal of the source, as a [pystr]. *)
Definition py (s : string) : pystr :=
  map N_of_ascii (list_ascii_of_string s).

Definition is_ascii_lower (c : N) : bool := (97 <=? c) && (c <=? 122).
Definition is_ascii_upper (c : N) : bool := (65 <=? c) && (c <=? 90).
Definition is_ascii_digit (c : N) : bool := (48 <=? c) && (c <=? 57).

Definition ascii_lower (c : N) : N := if is_ascii_upper c then c + 32 else c.

(** [str.isspace] of one code point, which is also what [\s] matches in a
    [str] pattern (the Unicode database lists exactly these). *)
Definition isspace (c : N) : bool :=
  ((9 <=? c) && (c <=? 13)) || ((28 <=? c) && (c <=? 32))
  || (c =? 133) || (c =? 160) || (c =? 5760)
  || ((8192 <=? c) && (c <=? 8202))
  || (c =? 8232) || (c =? 8233) || (c =? 8239) || (c =? 8287) || (c =? 12288).

(** [str.isalnum] of one code point below U+0100, from the Unicode
    database: the ASCII letters and digits, the ordinal indicators, the
    micro sign, superscript digits, vulgar fractions and the Latin-1
    letters (all of U+00C0..U+00FF but the two operators). *)
Definition isalnum_latin1 (c : N) : bool :=
  is_ascii_digit c || is_ascii_upper c || is_ascii_lower c
  || (c =? 170) || (c =? 178) || (c =? 179) || (c =? 181)
  || (c =? 185) || (c =? 186) || ((188 <=? c) && (c <=? 190))
  || ((192 <=? c) && (c <=? 255) && negb (c =? 215) && negb (c =? 247)).

(** [str.isalnum] of any code point. The Unicode database above U+00FF is
    not reproduced: [hi] stands for it. *)
Definition isalnum (hi : N -> bool) (c : N) : bool :=
  if c <? 256 then isalnum_latin1 c else hi c.

(** What [\w] matches in a [str] pattern: alphanumerics and the underscore. *)
Definition is_word (hi : N -> bool) (c : N) : bool :=
  isalnum hi c || (c =? 95).

(** [s.rfind(ch)]: the highest index of [ch], or [-1]. *)
Fixpoint rfind_from (ch : N) (s : pystr) (i : Z) (found : Z) : Z :=
  match s with
  | [] => found
  | c :: s' => rfind_from ch s' (i + 1)%Z (if c =? ch then i else found)
  end.

Definition rfind (ch : N) (s : pystr) : Z := rfind_from ch s 0%Z (-1)%Z.

(** [s[i:]] for [i >= 0] and [s[:n]]. *)
Definition slice_from (i : Z) (s : pystr) : pystr := drop (Z.to_nat i) s.
Definition slice_to (n : nat) (s : pystr) : pystr := take n s.

(** [s.strip()]: leading and trailing white space removed. *)
Fixpoint lstrip_by (p : N -> bool) (s : pystr) : pystr :=
  match s with
  | [] => []
  | c :: s' => if p c then lstrip_by p s' else s
  end.

Definition rstrip_by (p : N -> bool) (s : pystr) : pystr :=
  rev (lstrip_by p (rev s)).

Definition strip_by (p : N -> bool) (s : pystr) : pystr :=
  rstrip_by p (lstrip_by p s).

Definition strip (s : pystr) : pystr := strip_by isspace s.

(** [s.strip(chars)]. *)
Definition strip_chars (chars : pystr) (s : pystr) : pystr :=
  strip_by (fun c => existsb (N.eqb c) chars) s.

Definition eqb (a b : pystr) : bool := bool_decide (a = b).

(** [a.startswith(b)] and [b in a]. *)
Fixpoint startswith (a b : pystr) : bool :=
  match b, a with
  | [], _ => true
  | _ :: _, [] => false
  | y :: b', x :: a' => (x =? y) && startswith a' b'
  end.

Fixpoint contains (a b : pystr) : bool :=
  startswith a b || match a with [] => false | _ :: a' => contains a' b end.

End PyStr.
Export PyStr.

(** ** [CommandExecutor.sanitize_filename] *)

(** [os.path.basename] of [posixpath]: [i = p.rfind('/') + 1; return p[i:]]. *)
Definition basename (p : pystr) : pystr :=
  let i := (rfind 47 p + 1)%Z in slice_from i p.

(** The set [[^\w\.\-_]] of the substitution, as its complement. *)
Definition sanitize_keeps (hi : N -> bool) (c : N) : bool :=
  is_word hi c || (c =? 46) || (c =? 45) || (c =? 95).

(** [re.sub(r'[^\w\.\-_]', '_', s)]: every code point outside the set is
    replaced, one for one. *)
Definition sub_unsafe (hi : N -> bool) (s : pystr) : pystr :=
  map (fun c => if sanitize_keeps hi c then c else 95) s.

Definition sanitize_filename (hi : N -> bool) (filename : pystr) : pystr :=
  let base_name := basename filename in
  let safe_name := sub_unsafe hi base_name in
  slice_to 100 safe_name.

(** The character set the specification names, [[A-Za-z0-9._-]]. *)
Definition spec_allowed (c : N) : bool :=
  is_ascii_upper c || is_ascii_lower c || is_ascii_digit c
  || (c =? 46) || (c =? 95) || (c =? 45).

(** ** Regular expressions of the denylist

    The patterns of [validate_command] use literals, [\s], [.], one range,
    and the repetitions [+], [*] and [{3,4}]. [re.search] only asks whether
    some substring belongs to the language of the pattern, so the language
    is all that is modelled, not the backtracking order. *)

Module Re.

Inductive atom : Type :=
| ALit (c : N)            (* a literal character, escaped or not *)
| ASpace                  (* \s *)
| ADot                    (* . without re.DOTALL *)
| ARange (lo hi : N).     (* [lo-hi] *)

Inductive regex : Type :=
| REps
| RAtom (a : atom)
| RCat (r1 r2 : regex)
| RAlt (r1 r2 : regex)
| RStar (r : regex)
| RVoid.

(** Code points other than the two ASCII cases that [re.IGNORECASE] lets a
    lower-case ASCII letter match in a [str] pattern (dotted and dotless I,
    the Kelvin sign, the long s). *)
Definition ignorecase_extra (l : N) : list N :=
  if l =? 105 then [304; 305]
  else if l =? 107 then [8490]
  else if l =? 115 then [383]
  else [].

(** A literal of the pattern against a character of the subject. The
    literals of the denylist are all ASCII; for them this is the whole of
    what [re] does, with and without [re.IGNORECASE]. *)
Definition lit_match (ignorecase : bool) (p c : N) : bool :=
  (c =? p)
  || (ignorecase
      && (let l := ascii_lower p in
          is_ascii_lower l
          && ((ascii_lower c =? l) || existsb (N.eqb c) (ignorecase_extra l)))).

Definition atom_match (ignorecase : bool) (a : atom) (c : N) : bool :=
  match a with
  | ALit p => lit_match ignorecase p c
  | ASpace => isspace c
  | ADot => negb (c =? 10)
  | ARange lo hi => (lo <=? c) && (c <=? hi)   (* a range without letters *)
  end.

(** The repetitions of the pattern syntax. *)
Definition plus (r : regex) : regex := RCat r (RStar r).

Fixpoint times (n : nat) (r : regex) : regex :=
  match n with
  | O => REps
  | S n' => RCat r (times n' r)
  end.

Definition opt (r : regex) : regex := RAlt r REps.

(** [r{lo,hi}] with [lo <= hi]: [lo] copies, then up to [hi - lo] more. *)
Definition repeat_range (lo hi : nat) (r : regex) : regex :=
  RCat (times lo r) (times (hi - lo) (opt r)).

(** A run of literal characters. *)
Fixpoint lits (s : pystr) : regex :=
  match s with
  | [] => REps
  | [c] => RAtom (ALit c)
  | c :: s' => RCat (RAtom (ALit c)) (lits s')
  end.

Definition seq (rs : list regex) : regex :=
  fold_right RCat REps rs.

(** *** The language of a pattern *)

Inductive Matches (ic : bool) : regex -> pystr -> Prop :=
| MEps : Matches ic REps []
| MAtom a c : atom_match ic a c = true -> Matches ic (RAtom a) [c]
| MCat r1 r2 s1 s2 :
    Matches ic r1 s1 -> Matches ic r2 s2 -> Matches ic (RCat r1 r2) (s1 ++ s2)
| MAltL r1 r2 s : Matches ic r1 s -> Matches ic (RAlt r1 r2) s
| MAltR r1 r2 s : Matches ic r2 s -> Matches ic (RAlt r1 r2) s
| MStarNil r : Matches ic (RStar r) []
| MStarApp r s1 s2 :
    Matches ic r s1 -> Matches ic (RStar r) s2 -> Matches ic (RStar r) (s1 ++ s2).

(** [re.search(p, s)] finds a match: some substring of [s] is in the
    language of [p]. *)
Definition Found (ic : bool) (r : regex) (s : pystr) : Prop :=
  exists before m after, s = before ++ m ++ after /\ Matches ic r m.

(** *** The matcher: derivatives *)

Fixpoint nullable (r : regex) : bool :=
  match r with
  | REps => true
  | RAtom _ => false
  | RCat r1 r2 => nullable r1 && nullable r2
  | RAlt r1 r2 => nullable r1 || nullable r2
  | RStar _ => true
  | RVoid => false
  end.

(** Constructors that drop the empty language and the empty word, to keep
    derivatives small. *)
Definition cat (r1 r2 : regex) : regex :=
  match r1, r2 with
  | RVoid, _ => RVoid
  | _, RVoid => RVoid
  | REps, _ => r2
  | _, _ => RCat r1 r2
  end.

Definition alt (r1 r2 : regex) : regex :=
  match r1, r2 with
  | RVoid, _ => r2
  | _, RVoid => r1
  | _, _ => RAlt r1 r2
  end.

Fixpoint deriv (ic : bool) (c : N) (r : regex) : regex :=
  match r with
  | REps => RVoid
  | RAtom a => if atom_match ic a c then REps else RVoid
  | RCat r1 r2 =>
      if nullable r1
      then alt (cat (deriv ic c r1) r2) (deriv ic c r2)
      else cat (deriv ic c r1) r2
  | RAlt r1 r2 => alt (deriv ic c r1) (deriv ic c r2)
  | RStar r1 => cat (deriv ic c r1) (RStar r1)
  | RVoid => RVoid
  end.

(** Does a prefix of [s] match? *)
Fixpoint match_prefix (ic : bool) (r : regex) (s : pystr) : bool :=
  nullable r
  || match s with
     | [] => false
     | c :: s' => match_prefix ic (deriv ic c r) s'
     end.

(** [re.search(r, s) is not None]: try every start position. *)
Fixpoint search (ic : bool) (r : regex) (s : pystr) : bool :=
  match_prefix ic r s
  || match s with
     | [] => false
     | _ :: s' => search ic r s'
     end.

End Re.

(** ** [CommandExecutor.validate_command] *)

Import Re.

Definition ws_plus : regex := plus (RAtom ASpace).
Definition dot_star : regex := RStar (RAtom ADot).

(** The list [dangerous_patterns], in the order of the source. *)
Definition dangerous_patterns : list regex :=
  [ seq [lits (py "rm"); ws_plus; lits (py "-rf")]                 (* rm\s+-rf *)
  ; lits (py ":(){")                                               (* :\(\)\{ *)
  ; seq [lits (py "chmod"); ws_plus;
         repeat_range 3 4 (RAtom (ARange 48 55)); ws_plus]         (* chmod\s+[0-7]{3,4}\s+ *)
  ; seq [lits (py "wget"); ws_plus; dot_star; lits (py "|")]       (* wget\s+.*\| *)
  ; seq [lits (py "curl"); ws_plus; dot_star; lits (py "|")]       (* curl\s+.*\| *)
  ; lits (py "mkfs")                                               (* mkfs *)
  ; seq [lits (py "dd"); ws_plus; dot_star; lits (py "=")]         (* dd\s+.*= *)
  ; lits (py ">/dev/sd")                                           (* >/dev/sd *)
  ; seq [lits (py "mount"); ws_plus]                               (* mount\s+ *)
  ; seq [lits (py "umount"); ws_plus]                              (* umount\s+ *)
  ].

(** The [for] loop over the patterns, with [re.IGNORECASE]. *)
Fixpoint validate_loop (patterns : list regex) (command : pystr) : bool :=
  match patterns with
  | [] => true
  | pattern :: rest =>
      if search true pattern command then false
      else validate_loop rest command
  end.

Definition validate_command (command : pystr) : bool :=
  validate_loop dangerous_patterns command.

(** ** Values decoded from JSON, exceptions, and the world

    [json.loads] yields dictionaries, lists, strings, numbers, booleans and
    [None]; the code handles them dynamically, so the model keeps them in
    one type and raises where Python raises. *)

#[warnings="-register-all"]
Inductive json : Type :=
| JNull
| JBool (b : bool)
| JInt (z : Z)
| JFloat (f : spec_float)
| JStr (s : pystr)
| JList (l : list json)
| JObject (kv : list (pystr * json)).

(** Exceptions, each with the text [str(e)] gives. All of them are
    subclasses of [Exception]; the handlers of the source tell
    [JSONDecodeError] and [TimeoutExpired] from the rest. *)
Inductive exn : Type :=
| JSONDecodeError (text : pystr)
| TimeoutExpired (text : pystr)
| TypeError (text : pystr)
| AttributeError (text : pystr)
| KeyError (text : pystr)
| OSError (text : pystr)
| ValueError (text : pystr).

Definition exn_str (e : exn) : pystr :=
  match e with
  | JSONDecodeError t | TimeoutExpired t | TypeError t | AttributeError t
  | KeyError t | OSError t | ValueError t => t
  end.

Definition is_timeout (e : exn) : bool :=
  match e with TimeoutExpired _ => true | _ => false end.

Definition is_json_error (e : exn) : bool :=
  match e with JSONDecodeError _ => true | _ => false end.

Inductive result (A : Type) : Type :=
| Ok (a : A)
| Raise (e : exn).
Arguments Ok {A} a.
Arguments Raise {A} e.

(** A log line: the pieces of the f-string handed to the logger. *)
Inductive level : Type := INFO | WARNING | ERROR.

Inductive piece : Type :=
| Txt (s : pystr)
| Val (v : json)
| Exc (e : exn).

Record log_record : Type := { lvl : level; msg : list piece }.

(** A child process the program has started. [running] is whether it is
    still alive when the call that started it returns. *)
Record child : Type := {
  args : json;                 (* the argument vector, or the shell line *)
  shell : bool;
  child_cwd : option pystr;
  running : bool;
  returncode : option Z
}.

Record World : Type := {
  fs : gmap pystr pystr;       (* path to content *)
  executable : gset pystr;     (* paths made executable by chmod 0o755 *)
  children : list child;
  log : list log_record;
  prompts : list pystr         (* what has been sent to the oracle *)
}.

(** What a started process does during the 300 seconds [run_command]
    waits: what it writes to its standard output and error, and its exit
    code if it ends in time. *)
Record process_run : Type := {
  written : pystr;
  exit_in_time : option Z
}.

(** The outcome of [subprocess.run(..., capture_output=True, timeout=60)]. *)
Inductive run_outcome : Type :=
| Completed (rc : Z) (stdout stderr : pystr)
| RunTimedOut (text : pystr)
| RunRaised (e : exn).

(** What [send_message] and the reading of its response come to: the
    text of the first part of the first candidate, no candidate or no part,
    or an exception. *)
Inductive chat_outcome : Type :=
| Answered (text : pystr)
| NoAnswer
| ChatRaised (e : exn).

(** The libraries and the machine the program runs on. *)
Record Env : Type := {
  unicode_alnum : N -> bool;                    (* str.isalnum above U+00FF *)
  str_lower : pystr -> pystr;                   (* str.lower *)
  json_loads : pystr -> result json;            (* raises JSONDecodeError *)
  shlex_split : pystr -> result (list pystr);
  get_knowledge : json -> result json;          (* knowledge_base_handler *)
  open_w : World -> pystr -> result unit;       (* can open(path, 'w') succeed *)
  text_encode : pystr -> result unit;           (* can a text file take the text *)
  popen : World -> list pystr -> option pystr -> result process_run;
  subprocess_run : World -> json -> option pystr -> run_outcome;
  chat : World -> pystr -> chat_outcome;        (* the oracle: send_message *)
  history : World -> result pystr;              (* the conversation history, as json.dump writes it *)
  randint : World -> Z;                         (* random.randint(8, 20) *)
  target_matches : pystr -> bool                (* re.match of the target format *)
}.

(** *** State and exceptions *)

Definition M (A : Type) : Type := World -> result A * World.

Definition ret {A} (a : A) : M A := fun w => (Ok a, w).
Definition raise {A} (e : exn) : M A := fun w => (Raise e, w).

Definition bind {A B} (m : M A) (k : A -> M B) : M B :=
  fun w =>
    match m w with
    | (Ok a, w') => k a w'
    | (Raise e, w') => (Raise e, w')
    end.

(** [try: m except Exception as e: h e]. What the body did to the world
    before raising stays done. *)
Definition try_except {A} (m : M A) (h : exn -> M A) : M A :=
  fun w =>
    match m w with
    | (Ok a, w') => (Ok a, w')
    | (Raise e, w') => h e w'
    end.

Definition lift {A} (r : result A) : M A := fun w => (r, w).

Notation "x <- m ;; k" := (bind m (fun x => k))
  (at level 100, m at next level, right associativity).
Notation "m ;;; k" := (bind m (fun _ => k))
  (at level 100, right associativity).

Definition get_world : M World := fun w => (Ok w, w).

Definition set_fs (f : gmap pystr pystr) (w : World) : World :=
  {| fs := f; executable := executable w; children := children w;
     log := log w; prompts := prompts w |}.

Definition add_log (l : list log_record) (w : World) : World :=
  {| fs := fs w; executable := executable w; children := children w;
     log := log w ++ l; prompts := prompts w |}.

Definition add_child (c : child) (w : World) : World :=
  {| fs := fs w; executable := executable w; children := children w ++ [c];
     log := log w; prompts := prompts w |}.

Definition logger (l : level) (m : list piece) : M unit :=
  fun w => (Ok tt, add_log [{| lvl := l; msg := m |}] w).

(** ** [CommandExecutor.run_command] *)

(** [open(path, 'w')]: the file is created, or emptied if it was there. *)
Definition after_open (path : pystr) (w : World) : World :=
  set_fs (<[path := []]> (fs w)) w.

Definition open_trunc (E : Env) (path : pystr) : M unit :=
  fun w =>
    match open_w E w path with
    | Ok _ => (Ok tt, after_open path w)
    | Raise e => (Raise e, w)
    end.

(** [subprocess.Popen(argv, stdout=outfile, stderr=subprocess.STDOUT,
    cwd=cwd)]: the child is started, or the call raises and nothing runs.
    The handle is the child's position in [children]. *)
Definition Popen (E : Env) (argv : list pystr) (cwd : option pystr)
  : M (nat * process_run) :=
  fun w =>
    match popen E w argv cwd with
    | Ok pr =>
        (Ok (length (children w), pr),
         add_child {| args := JList (map JStr argv); shell := false;
                      child_cwd := cwd; running := true;
                      returncode := None |} w)
    | Raise e => (Raise e, w)
    end.

Definition reap (rc : Z) (c : child) : child :=
  {| args := args c; shell := shell c; child_cwd := child_cwd c;
     running := false; returncode := Some rc |}.

(** [process.wait(timeout=300)]. What the child wrote in the meantime is
    in the file it was handed. If the child is not done the call raises
    [TimeoutExpired], and that is all it does: the child is left as it is. *)
Definition wait (outfile : pystr) (process : nat * process_run) : M unit :=
  fun w =>
    let (pid, pr) := process in
    let w1 := set_fs (<[outfile := written pr]> (fs w)) w in
    match exit_in_time pr with
    | Some rc =>
        (Ok tt,
         {| fs := fs w1; executable := executable w1;
            children := alter (reap rc) pid (children w1);
            log := log w1; prompts := prompts w1 |})
    | None => (Raise (TimeoutExpired (py "timed out after 300 seconds")), w1)
    end.

Definition run_command (E : Env) (command output_path : pystr)
    (cwd : option pystr) : M bool :=
  try_except
    (if negb (validate_command command) then
       logger ERROR [Txt (py "Potentially dangerous command blocked: " ++ command)] ;;;
       ret false
     else
       open_trunc E output_path ;;;
       argv <- lift (shlex_split E command) ;;
       process <- Popen E argv cwd ;;
       wait output_path process ;;;
       ret true)
    (fun e =>
       if is_timeout e then
         logger ERROR [Txt (py "Command timed out: " ++ command)] ;;;
         ret false
       else
         logger ERROR [Txt (py "Error executing command " ++ command ++ py ": "); Exc e] ;;;
         ret false).

(** The program a call to [run_command] starts once the output file is
    open, if it starts one. *)
Definition started (E : Env) (command output_path : pystr)
    (cwd : option pystr) (w : World) : option process_run :=
  match shlex_split E command with
  | Ok argv =>
      match popen E (after_open output_path w) argv cwd with
      | Ok pr => Some pr
      | Raise _ => None
      end
  | Raise _ => None
  end.

(** ** [CommandExecutor.filter_output] *)

(** [subprocess.run(cmd, shell=True, capture_output=True, text=True,
    cwd=cwd, timeout=60)]. On a timeout the library kills the child before
    it raises. *)
Definition run_shell (E : Env) (cmd : json) (cwd : option pystr)
  : M (Z * pystr * pystr) :=
  fun w =>
    match subprocess_run E w cmd cwd with
    | Completed rc out err =>
        (Ok (rc, out, err),
         add_child {| args := cmd; shell := true; child_cwd := cwd;
                      running := false; returncode := Some rc |} w)
    | RunTimedOut t =>
        (Raise (TimeoutExpired t),
         add_child {| args := cmd; shell := true; child_cwd := cwd;
                      running := false; returncode := None |} w)
    | RunRaised e => (Raise e, w)
    end.

Definition filter_output (E : Env) (filter_command : json)
    (working_dir : option pystr) : M pystr :=
  try_except
    (r <- run_shell E filter_command working_dir ;;
     let '(rc, out, err) := r in
     ret (if (rc =? 0)%Z then out else py "Filter error: " ++ err))
    (fun e =>
       if is_timeout e then ret (py "Filter command timed out")
       else ret (py "Filter error: " ++ exn_str e)).

(** ** Python's dynamic operations on decoded values *)

Definition type_name (v : json) : pystr :=
  match v with
  | JNull => py "NoneType"
  | JBool _ => py "bool"
  | JInt _ => py "int"
  | JFloat _ => py "float"
  | JStr _ => py "str"
  | JList _ => py "list"
  | JObject _ => py "dict"
  end.

Fixpoint dict_lookup (kv : list (pystr * json)) (key : pystr) : option json :=
  match kv with
  | [] => None
  | (k, v) :: rest => if PyStr.eqb k key then Some v else dict_lookup rest key
  end.

(** [v == s] for a string [s]: only a string equals a string. *)
Definition eq_str (v : json) (s : pystr) : bool :=
  match v with
  | JStr t => PyStr.eqb t s
  | _ => false
  end.

(** [v in [s1, s2, ...]] for a list of strings. *)
Definition in_strs (v : json) (l : list pystr) : bool :=
  existsb (eq_str v) l.

(** [bool(v)]. *)
Definition truthy (v : json) : bool :=
  match v with
  | JNull => false
  | JBool b => b
  | JInt z => negb (z =? 0)%Z
  | JFloat f => match f with S754_zero _ => false | _ => true end
  | JStr s => match s with [] => false | _ => true end
  | JList l => match l with [] => false | _ => true end
  | JObject kv => match kv with [] => false | _ => true end
  end.

(** [data.get(key, default)]: only a dictionary has [get]. *)
Definition py_get (data : json) (key : pystr) (default : json) : result json :=
  match data with
  | JObject kv =>
      Ok (match dict_lookup kv key with Some v => v | None => default end)
  | _ => Raise (AttributeError
                  (py "'" ++ type_name data ++ py "' object has no attribute 'get'"))
  end.

(** [key in data] for a string [key]: a key of a dictionary, an element of
    a list, a substring of a string; the other values are not containers. *)
Definition py_in (key : pystr) (data : json) : result bool :=
  match data with
  | JObject kv => Ok (match dict_lookup kv key with Some _ => true | None => false end)
  | JList l => Ok (existsb (fun v => eq_str v key) l)
  | JStr s => Ok (contains s key)
  | _ => Raise (TypeError
                  (py "argument of type '" ++ type_name data ++ py "' is not iterable"))
  end.

(** [data[key]] for a string [key]. *)
Definition py_getitem (data : json) (key : pystr) : result json :=
  match data with
  | JObject kv =>
      match dict_lookup kv key with
      | Some v => Ok v
      | None => Raise (KeyError (py "'" ++ key ++ py "'"))
      end
  | JList _ => Raise (TypeError (py "list indices must be integers or slices, not str"))
  | JStr _ => Raise (TypeError (py "string indices must be integers, not 'str'"))
  | _ => Raise (TypeError
                  (py "'" ++ type_name data ++ py "' object is not subscriptable"))
  end.

(** A method of [str] called on a decoded value. *)
Definition str_method (name : pystr) (f : pystr -> pystr) (v : json)
  : result pystr :=
  match v with
  | JStr s => Ok (f s)
  | _ => Raise (AttributeError
                  (py "'" ++ type_name v ++ py "' object has no attribute '"
                   ++ name ++ py "'"))
  end.

(** [sanitize_filename] on a decoded value: [os.path.basename] refuses
    what is not a string. *)
Definition sanitize_value (E : Env) (v : json) : result pystr :=
  match v with
  | JStr s => Ok (sanitize_filename (unicode_alnum E) s)
  | _ => Raise (TypeError
                  (py "expected str, bytes or os.PathLike object, not "
                   ++ type_name v))
  end.

(** ** [AICyberSecurityAssistant.clean_ai_response] *)

Definition at_eol (s : pystr) : bool :=
  match s with
  | [] => true
  | c :: _ => c =? 10
  end.

(** [re.sub] of the pattern [^```(?:json)?|```$] by the empty string, with
    [re.MULTILINE]: scanning from the left, three backticks at the start of a line go, with a
    [json] after them; three backticks that end a line go. [skip] counts
    the characters of a match still to drop, [bol] is whether the position
    starts a line. *)
Fixpoint sub_fences (skip : nat) (bol : bool) (s : pystr) : pystr :=
  match s with
  | [] => []
  | c :: s' =>
      match skip with
      | S k => sub_fences k false s'
      | O =>
          if bol && startswith s (py "```") then
            if startswith (drop 3 s) (py "json") then sub_fences 6 false s'
            else sub_fences 2 false s'
          else if startswith s (py "```") && at_eol (drop 3 s) then
            sub_fences 2 false s'
          else c :: sub_fences 0 (c =? 10) s'
      end
  end.

Definition clean_ai_response (raw : pystr) : pystr :=
  match raw with
  | [] => []
  | _ => strip (sub_fences 0 true (strip raw))
  end.

(** ** [AICyberSecurityAssistant.validate_response] *)

Definition required_fields : list pystr :=
  [py "type"; py "content"; py "reason"; py "continue"].

(** The loop over [required]: [false] as soon as a field is missing. *)
Fixpoint check_required (data : json) (required : list pystr) : M bool :=
  match required with
  | [] => ret true
  | field :: rest =>
      present <- lift (py_in field data) ;;
      if negb present then
        logger ERROR [Txt (py "Missing required field: " ++ field)] ;;;
        ret false
      else check_required data rest
  end.

(** [if data["type"] == "script": ...]: [false] when one of the two
    checks of a script fails. *)
Definition check_script (data : json) : M bool :=
  ty <- lift (py_getitem data (py "type")) ;;
  if eq_str ty (py "script") then
    has_type <- lift (py_in (py "script_type") data) ;;
    bad <- (if negb has_type then ret true
            else st <- lift (py_getitem data (py "script_type")) ;;
                 ret (negb (in_strs st [py "bash"; py "python"]))) ;;
    if (bad : bool) then
      logger ERROR [Txt (py "Script type missing or invalid")] ;;;
      ret false
    else
      has_name <- lift (py_in (py "script_name") data) ;;
      if negb has_name then
        logger ERROR [Txt (py "Script name missing for script type")] ;;;
        ret false
      else ret true
  else ret true.

(** [if "knowledge_ref" in data and data["knowledge_ref"]: ...]: a bad
    reference only warns. *)
Definition check_knowledge (E : Env) (data : json) : M unit :=
  has_ref <- lift (py_in (py "knowledge_ref") data) ;;
  given <- (if (has_ref : bool) then
              kr <- lift (py_getitem data (py "knowledge_ref")) ;;
              ret (truthy kr)
            else ret false) ;;
  if (given : bool) then
    kr <- lift (py_getitem data (py "knowledge_ref")) ;;
    knowledge <- lift (get_knowledge E kr) ;;
    if negb (truthy knowledge) then
      logger WARNING [Txt (py "Invalid knowledge reference: "); Val kr]
    else ret tt
  else ret tt.

Definition validate_body (E : Env) (response : pystr) : M bool :=
  let cleaned := clean_ai_response response in
  data <- lift (json_loads E cleaned) ;;
  present <- check_required data required_fields ;;
  if negb present then ret false
  else
    ty <- lift (py_getitem data (py "type")) ;;
    if negb (in_strs ty [py "command"; py "script"]) then
      logger ERROR [Txt (py "Invalid type: "); Val ty] ;;;
      ret false
    else
      script_ok <- check_script data ;;
      if negb script_ok then ret false
      else check_knowledge E data ;;; ret true.

Definition validate_response (E : Env) (response : pystr) : M bool :=
  try_except (validate_body E response)
    (fun e =>
       if is_json_error e then
         logger ERROR [Txt (py "AI response is not valid JSON")] ;;;
         ret false
       else
         logger ERROR [Txt (py "Error validating AI response: "); Exc e] ;;;
         ret false).

(** ** [CommandExecutor.run_ai_command] and [run_script] *)

(** The tail the two functions share: filter if asked to, stop if asked
    to, else hand back the filtered text or the placeholder. *)
Definition filter_and_finish (E : Env) (return_to_ai should_continue : json)
    (output_name : pystr) : M pystr :=
  filtered_output <-
    (if truthy return_to_ai then
       logger INFO [Txt (py "Filtering output with: "); Val return_to_ai] ;;;
       filter_output E return_to_ai (Some (py "command_outputs"))
     else ret []) ;;
  if negb (truthy should_continue) then
    logger INFO [Txt (py "AI indicated the process should stop.")] ;;;
    ret (py "Stopping as requested.")
  else
    ret (match filtered_output with
         | [] => py "(Raw output saved to " ++ output_name ++ py ")"
         | _ => filtered_output
         end).

Definition run_ai_command (E : Env) (ai_response_json : pystr) : M pystr :=
  match json_loads E ai_response_json with
  | Raise (JSONDecodeError t) => ret (py "Error: Invalid JSON from AI - " ++ t)
  | Raise e => raise e
  | Ok data =>
      reason <- lift (py_get data (py "reason") (JStr (py "No reason provided"))) ;;
      content <- lift (py_get data (py "content") (JStr [])) ;;
      command <- lift (str_method (py "strip") (strip_chars (py "`")) content) ;;
      name <- lift (py_get data (py "output_name") (JStr (py "output.txt"))) ;;
      output_name <- lift (sanitize_value E name) ;;
      return_to_ai <- lift (py_get data (py "return_to_ai") (JStr [])) ;;
      should_continue <- lift (py_get data (py "continue") (JBool true)) ;;
      logger INFO [Txt (py "Reason: "); Val reason] ;;;
      match command with
      | [] => ret (py "No command to execute.")
      | _ =>
          let output_path := py "command_outputs/" ++ output_name in
          logger INFO [Txt (py "Executing: " ++ command ++ py " -> " ++ output_path)] ;;;
          success <- run_command E command output_path None ;;
          if negb success then ret (py "Error executing command: " ++ command)
          else filter_and_finish E return_to_ai should_continue output_name
      end
  end.

(** [with open(script_path, "w") as f: f.write(content)]. The file is
    created, or emptied, when it is opened; a text that cannot be encoded
    makes the write raise, and the file stays empty. *)
Definition write_file (E : Env) (path content : pystr) : M unit :=
  open_trunc E path ;;;
  (fun w =>
     match text_encode E content with
     | Ok _ => (Ok tt, set_fs (<[path := content]> (fs w)) w)
     | Raise e => (Raise e, w)
     end).

(** [os.chmod(path, 0o755)]. *)
Definition chmod_755 (path : pystr) : M unit :=
  fun w => (Ok tt, {| fs := fs w; executable := {[path]} ∪ executable w;
                      children := children w; log := log w;
                      prompts := prompts w |}).

Definition run_script (E : Env) (ai_response_json : pystr) : M pystr :=
  match json_loads E ai_response_json with
  | Raise (JSONDecodeError t) => ret (py "Error: Invalid JSON from AI - " ++ t)
  | Raise e => raise e
  | Ok data =>
      reason <- lift (py_get data (py "reason") (JStr (py "No reason provided"))) ;;
      content <- lift (py_get data (py "content") (JStr [])) ;;
      script_content <- lift (str_method (py "strip") (strip_chars (py "`")) content) ;;
      name <- lift (py_get data (py "output_name") (JStr (py "output.txt"))) ;;
      output_name <- lift (sanitize_value E name) ;;
      return_to_ai <- lift (py_get data (py "return_to_ai") (JStr [])) ;;
      should_continue <- lift (py_get data (py "continue") (JBool true)) ;;
      sname <- lift (py_get data (py "script_name") (JStr (py "ai_script"))) ;;
      script_name <- lift (sanitize_value E sname) ;;
      stype <- lift (py_get data (py "script_type") (JStr [])) ;;
      stripped <- lift (str_method (py "strip") strip stype) ;;
      let script_type := str_lower E stripped in
      logger INFO [Txt (py "Running " ++ script_type ++ py " script: "); Val reason] ;;;
      let script_path := py "scripts/" ++ script_name in
      write_file E script_path script_content ;;;
      (if PyStr.eqb script_type (py "bash") then chmod_755 script_path else ret tt) ;;;
      let output_path := py "command_outputs/" ++ output_name in
      logger INFO [Txt (py "Executing script: " ++ script_name ++ py " -> " ++ output_path)] ;;;
      if PyStr.eqb script_type (py "python") || PyStr.eqb script_type (py "bash") then
        let cmd := (if PyStr.eqb script_type (py "python") then py "python3 "
                    else py "bash ") ++ script_path in
        success <- run_command E cmd output_path (Some (py "scripts")) ;;
        if negb success then ret (py "Error executing script: " ++ script_name)
        else filter_and_finish E return_to_ai should_continue output_name
      else ret (py "Error: Unsupported script type " ++ script_type)
  end.

(** ** [PentestAutomation] *)

Record PentestAutomation : Type := {
  context : pystr;
  iteration : nat;
  max_iterations : nat
}.

(** [__init__]. *)
Definition new_automation : PentestAutomation :=
  {| context := []; iteration := 0; max_iterations := 50 |}.

(** [execute_ai_command]: [None] when the response does not validate, when
    its type is unknown, or when anything below raises. *)
Definition execute_ai_command (E : Env) (ai_response : pystr)
  : M (option pystr) :=
  try_except
    (let cleaned_response := clean_ai_response ai_response in
     valid <- validate_response E cleaned_response ;;
     if negb valid then
       logger ERROR [Txt (py "AI response validation failed")] ;;;
       ret None
     else
       data <- lift (json_loads E cleaned_response) ;;
       action_type <- lift (py_get data (py "type") JNull) ;;
       reason <- lift (py_get data (py "reason") (JStr (py "No reason provided"))) ;;
       logger INFO [Txt (py "Executing "); Val action_type; Txt (py ": "); Val reason] ;;;
       vuln <- lift (py_get data (py "vuln") (JStr (py "Not specified"))) ;;
       logger INFO [Txt (py "Testing vulnerability: "); Val vuln] ;;;
       if eq_str action_type (py "command") then
         out <- run_ai_command E cleaned_response ;; ret (Some out)
       else if eq_str action_type (py "script") then
         out <- run_script E cleaned_response ;; ret (Some out)
       else
         logger ERROR [Txt (py "Unknown action type: "); Val action_type] ;;;
         ret None)
    (fun e =>
       logger ERROR [Txt (py "Error executing AI command: "); Exc e] ;;;
       ret None).

(** [get_target_info], on the two lines the operator types. [false] when
    no target is given. *)
Definition get_target_info (E : Env) (self : PentestAutomation)
    (target_line guide_line : pystr) : M (PentestAutomation * bool) :=
  let target := strip target_line in
  match target with
  | [] => logger ERROR [Txt (py "No target provided")] ;;; ret (self, false)
  | _ =>
      let guide := strip guide_line in
      (if negb (target_matches E target) then
         logger WARNING [Txt (py "Target format may be invalid")]
       else ret tt) ;;;
      let ctx := py "Target: " ++ target ++ [10] ++ py "Additional context: "
                 ++ (match guide with
                     | [] => py "No additional guidance"
                     | _ => guide
                     end) in
      logger INFO [Txt (py "Starting pentest on: " ++ target)] ;;;
      ret ({| context := ctx; iteration := iteration self;
              max_iterations := max_iterations self |}, true)
  end.

Definition history_file : pystr := py "conversation_history.json".

(** [save_history]: the history is put together, the file is opened and
    the history dumped into it; whatever is raised on the way is logged
    and dropped. *)
Definition save_history (E : Env) : M unit :=
  try_except
    (w <- get_world ;;
     text <- lift (history E w) ;;
     open_trunc E history_file ;;;
     (fun w' => (Ok tt, set_fs (<[history_file := text]> (fs w')) w')))
    (fun e =>
       logger ERROR [Txt (py "Could not save conversation history: "); Exc e]).

(** [self.ai.chat(self.context)]: the prompt goes out. An answer is
    stripped, the history is saved, and the answer comes back; without an
    answer [None] comes back; an exception is logged, and [None] comes
    back. *)
Definition ai_chat (E : Env) (prompt : pystr) : M (option pystr) :=
  fun w =>
    let sent := {| fs := fs w; executable := executable w;
                   children := children w; log := log w;
                   prompts := prompts w ++ [prompt] |} in
    match chat E w prompt with
    | Answered text => (save_history E ;;; ret (Some (strip text))) sent
    | NoAnswer => (Ok None, sent)
    | ChatRaised e =>
        (logger ERROR [Txt (py "Error in chat(): "); Exc e] ;;; ret None) sent
    end.

(** How one pass through the body of the [while] ends: at its end or at a
    [continue], or at a [break]. *)
Inductive flow : Type := Next | Break.

(** The [try] block that looks at the [continue] field again; whatever is
    raised in it is dropped. *)
Definition wants_stop (E : Env) (ai_response : pystr) : M bool :=
  try_except
    (let cleaned := clean_ai_response ai_response in
     data <- lift (json_loads E cleaned) ;;
     c <- lift (py_get data (py "continue") (JBool true)) ;;
     if negb (truthy c) then
       logger INFO [Txt ([128721] ++ py " AI indicated the process should stop")] ;;;
       ret true
     else ret false)
    (fun _ => ret false).

Definition nat_val (n : nat) : json := JInt (Z.of_nat n).

(** [s[-4000:]] when [len(s) > 4000]. *)
Definition truncate_context (s : pystr) : pystr :=
  if (4000 <? length s)%nat then drop (length s - 4000) s else s.

(** The first lines of the body: [self.iteration += 1]. *)
Definition bump (self : PentestAutomation) : PentestAutomation :=
  {| context := context self; iteration := S (iteration self);
     max_iterations := max_iterations self |}.

(** ... the two log lines around the random delay, and the call to the
    oracle. *)
Definition consult (E : Env) (self : PentestAutomation) : M (option pystr) :=
  logger INFO [Txt ([128257] ++ py " Iteration "); Val (nat_val (iteration self));
               Txt (py "/"); Val (nat_val (max_iterations self))] ;;;
  w <- get_world ;;
  logger INFO [Txt ([9203] ++ py " Waiting "); Val (JInt (randint E w));
               Txt (py " seconds...")] ;;;
  ai_chat E (context self).

(** The rest of the body, once the oracle has answered [reply]. *)
Definition act (E : Env) (self : PentestAutomation) (reply : pystr)
  : M (PentestAutomation * flow) :=
  output <- execute_ai_command E reply ;;
  match output with
  | None =>
      logger ERROR [Txt (py "Command execution failed, stopping")] ;;;
      ret (self, Break)
  | Some out =>
      logger INFO
        [Txt ([128228] ++ py " Command output: "
              ++ (if (200 <? length out)%nat then take 200 out ++ py "..."
                  else out))] ;;;
      stop <- wants_stop E reply ;;
      if (stop : bool) then ret (self, Break)
      else
        let ctx := context self ++ [10] ++ py "Last command output: " ++ out in
        ret ({| context := truncate_context ctx;
                iteration := iteration self;
                max_iterations := max_iterations self |}, Next)
  end.

(** One pass through the body of the [while] loop. *)
Definition loop_body (E : Env) (self : PentestAutomation)
  : M (PentestAutomation * flow) :=
  let self1 := bump self in
  ai_response <- consult E self1 ;;
  match ai_response with
  | None | Some [] =>
      logger WARNING [Txt (py "No response from AI, retrying...")] ;;;
      ret (self1, Next)
  | Some reply => act E self1 reply
  end.

(** How the [while] loop is left. [OutOfFuel] is the model's own: the
    recursion ran out before the loop did. *)
Inductive loop_exit : Type := CapReached | Stopped | OutOfFuel.

(** [while self.iteration < self.max_iterations: ...]. The list is the
    object after each pass, with how the pass ended. *)
Fixpoint while_loop (E : Env) (fuel : nat) (self : PentestAutomation)
  : M (PentestAutomation * loop_exit * list (PentestAutomation * flow)) :=
  if (iteration self <? max_iterations self)%nat then
    match fuel with
    | O => ret (self, OutOfFuel, [])
    | S fuel' =>
        r <- loop_body E self ;;
        match snd r with
        | Break => ret (fst r, Stopped, [r])
        | Next =>
            rest <- while_loop E fuel' (fst r) ;;
            let '(final, how, passes) := rest in
            ret (final, how, r :: passes)
        end
    end
  else ret (self, CapReached, []).

(** [PentestAutomation.run]. *)
Definition run (E : Env) (self : PentestAutomation)
    (target_line guide_line : pystr)
  : M (PentestAutomation * list (PentestAutomation * flow)) :=
  r <- get_target_info E self target_line guide_line ;;
  let (self0, ok) := (r : PentestAutomation * bool) in
  if negb ok then ret (self0, [])
  else
    logger INFO [Txt ([128640] ++ py " Starting automated penetration testing")] ;;;
    res <- while_loop E (max_iterations self0 - iteration self0) self0 ;;
    let '(final, _, passes) := res in
    logger INFO [Txt ([127937] ++ py " Pentest automation completed after ");
                 Val (nat_val (iteration final)); Txt (py " iterations")] ;;;
    ret (final, passes).

(** ** The fields of a payload

    [field kv key default] is [data.get(key, default)] on the dictionary
    with the items [kv]. *)

Definition field (kv : list (pystr * json)) (key : pystr) (default : json)
  : json :=
  match dict_lookup kv key with
  | Some v => v
  | None => default
  end.

(** The two lines [run_ai_command] logs before it runs a command. *)
Definition reason_line (kv : list (pystr * json)) : log_record :=
  {| lvl := INFO;
     msg := [Txt (py "Reason: ");
             Val (field kv (py "reason") (JStr (py "No reason provided")))] |}.

Definition executing_line (command output_name : pystr) : log_record :=
  {| lvl := INFO;
     msg := [Txt (py "Executing: " ++ command ++ py " -> "
                  ++ py "command_outputs/" ++ output_name)] |}.

Definition blocked_line (command : pystr) : log_record :=
  {| lvl := ERROR;
     msg := [Txt (py "Potentially dangerous command blocked: " ++ command)] |}.

Definition missing_line (name : pystr) : log_record :=
  {| lvl := ERROR; msg := [Txt (py "Missing required field: " ++ name)] |}.

Definition has_key (kv : list (pystr * json)) (key : pystr) : bool :=
  match dict_lookup kv key with
  | Some _ => true
  | None => false
  end.

(** [script_type] is there and is one of the two known. *)
Definition script_type_ok (kv : list (pystr * json)) : bool :=
  match dict_lookup kv (py "script_type") with
  | Some st => in_strs st [py "bash"; py "python"]
  | None => false
  end.

(** A script payload that names its script with the empty string. *)
Definition payload_empty_script_name : json :=
  JObject [ (py "type", JStr (py "script"));
            (py "content", JStr (py "echo hi"));
            (py "reason", JStr (py "test"));
            (py "continue", JBool true);
            (py "script_type", JStr (py "bash"));
            (py "script_name", JStr []) ].

(** The two lines [execute_ai_command] logs before it dispatches. *)
Definition type_line (kv : list (pystr * json)) : log_record :=
  {| lvl := INFO;
     msg := [Txt (py "Executing "); Val (field kv (py "type") JNull);
             Txt (py ": ");
             Val (field kv (py "reason") (JStr (py "No reason provided")))] |}.

Definition vuln_line (kv : list (pystr * json)) : log_record :=
  {| lvl := INFO;
     msg := [Txt (py "Testing vulnerability: ");
             Val (field kv (py "vuln") (JStr (py "Not specified")))] |}.

(** The context after a pass that went through with the output [out]. *)
Definition fold_output (self : PentestAutomation) (out : pystr)
  : PentestAutomation :=
  {| context := truncate_context
                  (context self ++ [10] ++ py "Last command output: " ++ out);
     iteration := iteration self;
     max_iterations := max_iterations self |}.

(** The line the loop logs about the output of a pass. *)
Definition output_line (out : pystr) : log_record :=
  {| lvl := INFO;
     msg := [Txt ([128228] ++ py " Command output: "
                  ++ (if (200 <? length out)%nat then take 200 out ++ py "..."
                      else out))] |}.

Definition timeout_line (command : pystr) : log_record :=
  {| lvl := ERROR; msg := [Txt (py "Command timed out: " ++ command)] |}.

(** A command payload with no command in it and [null] for a file name. *)
Definition payload_null_name : json :=
  JObject [ (py "type", JStr (py "command"));
            (py "content", JStr []);
            (py "reason", JStr (py "test"));
            (py "output_name", JNull);
            (py "continue", JBool true) ].

(** ** Case

    Two commands that differ only in the case of their ASCII letters, and
    the patterns whose ranges hold no letter (as [[0-7]]). *)

Definition same_modulo_case (s1 s2 : pystr) : Prop :=
  map ascii_lower s1 = map ascii_lower s2.

Definition caseless_atom (a : atom) : bool :=
  match a with
  | ARange lo hi => hi <? 65
  | _ => true
  end.

Fixpoint caseless_ranges (r : regex) : bool :=
  match r with
  | RAtom a => caseless_atom a
  | RCat r1 r2 | RAlt r1 r2 => caseless_ranges r1 && caseless_ranges r2
  | RStar r1 => caseless_ranges r1
  | REps | RVoid => true
  end.

(** ** Example payloads and environments

    The concrete runs below need a machine to run on. [dumps] writes a
    decoded value the way [json.dumps] does, for the plain values of the
    examples (no character that needs escaping, no float); the example
    environments read exactly those texts back. *)

Definition quote (s : pystr) : pystr := [34] ++ s ++ [34].

Fixpoint digits_of (fuel : nat) (n : N) (acc : pystr) : pystr :=
  match fuel with
  | O => acc
  | S fuel' =>
      let acc' := (48 + n mod 10) :: acc in
      if n <? 10 then acc' else digits_of fuel' (n / 10) acc'
  end.

Definition dumps_int (z : Z) : pystr :=
  (if (z <? 0)%Z then py "-" else [])
  ++ digits_of (S (N.to_nat (N.log2 (Z.abs_N z)))) (Z.abs_N z) [].

Definition join (sep : pystr) (l : list pystr) : pystr :=
  match l with
  | [] => []
  | x :: rest => x ++ concat (map (fun y => sep ++ y) rest)
  end.

Fixpoint dumps (v : json) : pystr :=
  match v with
  | JNull => py "null"
  | JBool true => py "true"
  | JBool false => py "false"
  | JInt z => dumps_int z
  | JFloat _ => py "NaN"
  | JStr s => quote s
  | JList l => py "[" ++ join (py ", ") (map dumps l) ++ py "]"
  | JObject kv =>
      py "{"
      ++ join (py ", ") (map (fun p => quote (fst p) ++ py ": " ++ dumps (snd p)) kv)
      ++ py "}"
  end.

(** [shlex.split] of a text with no quote and no backslash: the words
    between runs of blanks. *)
Fixpoint split_words (word : pystr) (s : pystr) : list pystr :=
  let flush := match word with [] => [] | _ => [rev word] end in
  match s with
  | [] => flush
  | c :: s' =>
      if (c =? 32) || (c =? 9) || (c =? 10) || (c =? 13)
      then flush ++ split_words [] s'
      else split_words (c :: word) s'
  end.

Definition empty_world : World :=
  {| fs := ∅; executable := ∅; children := []; log := []; prompts := [] |}.

(** A machine whose [json.loads] knows the texts of [table], on which
    every file can be opened and takes every text but one with a
    surrogate in it, where [spawn] says what starting a program does, and
    whose oracle always answers [reply]. *)
Definition example_env (table : list json)
    (spawn : list pystr -> result process_run)
    (filter : json -> run_outcome) (reply : option pystr) : Env :=
  {| unicode_alnum := fun _ => false;
     str_lower := map ascii_lower;
     json_loads := fun s =>
       match find (fun v => PyStr.eqb (dumps v) s) table with
       | Some v => Ok v
       | None => Raise (JSONDecodeError (py "Expecting value"))
       end;
     shlex_split := fun s => Ok (split_words [] s);
     get_knowledge := fun _ => Ok (JStr (py "Reference not found"));
     open_w := fun _ _ => Ok tt;
     text_encode := fun s =>
       if existsb (fun c => (55296 <=? c) && (c <=? 57343)) s
       then Raise (ValueError (py "'utf-8' codec can't encode: surrogates not allowed"))
       else Ok tt;
     popen := fun _ argv _ => spawn argv;
     subprocess_run := fun _ cmd _ => filter cmd;
     chat := fun _ _ => match reply with
                        | Some text => Answered text
                        | None => NoAnswer
                        end;
     history := fun _ => Ok (py "[]");
     randint := fun _ => 8%Z;
     target_matches := fun _ => true |}.

Definition command_payload (command : pystr) : json :=
  JObject [ (py "type", JStr (py "command"));
            (py "content", JStr command);
            (py "reason", JStr (py "test"));
            (py "continue", JBool true) ].

(** Starting a program fails: there is no such executable. *)
Definition no_such_file (argv : list pystr) : result process_run :=
  Raise (OSError (py "[Errno 2] No such file or directory: '"
                  ++ hd [] argv ++ py "'")).

(** The program starts and is still running when the wait is over. *)
Definition never_ends (argv : list pystr) : result process_run :=
  Ok {| written := []; exit_in_time := None |}.

(** The program starts, prints [out] and exits with [rc]. *)
Definition prints (out : pystr) (rc : Z) (argv : list pystr)
  : result process_run :=
  Ok {| written := out; exit_in_time := Some rc |}.

Definition no_filter (cmd : json) : run_outcome :=
  Completed 0 [] [].

(** The machine of the examples on which nothing can be started, with an
    oracle that asks for the same program again and again. *)
Definition unstartable : json := command_payload (py "nosuchprogram -x").

Definition unstartable_env : Env :=
  example_env [unstartable] no_such_file no_filter (Some (dumps unstartable)).

(** The object at the start of a run, target given. *)
Definition fresh_run : PentestAutomation :=
  {| context := py "Target: example.com"; iteration := 0; max_iterations := 50 |}.

(** What a run comes to: the counter at the end, how each pass ended,
    and how many processes were started. *)
Definition run_summary
    (r : result (PentestAutomation * list (PentestAutomation * flow)) * World)
  : option (nat * list flow * nat) :=
  match r with
  | (Ok (final, passes), w) =>
      Some (iteration final, map snd passes, length (children w))
  | (Raise _, _) => None
  end.

(** A machine whose [json.loads] knows a blocked command and one that
    cannot be started. *)
Definition refusing_env : Env :=
  example_env [command_payload (py "rm -rf /");
               command_payload (py "nosuchprogram")]
    no_such_file no_filter None.

(** A command payload without its content. *)
Definition payload_no_content : json :=
  JObject [ (py "type", JStr (py "command"));
            (py "reason", JStr (py "test"));
            (py "continue", JBool true) ].

(** ** Notions for the further properties

    Stripped texts and lines, what a computation leaves alone, and the
    checks of the validator as one test. *)

(** A text left alone by the left strip: empty, or not starting with a
    character to strip. *)
Definition clean_start (p : N -> bool) (s : pystr) : Prop :=
  match s with
  | [] => True
  | c :: _ => p c = false
  end.

(** Whether the position after [x] starts a line, [bol] being whether the
    position before it does. *)
Definition ends_line (bol : bool) (x : pystr) : bool :=
  match last x with
  | Some c => c =? 10
  | None => bol
  end.

(** [m] takes every world to one related to it by [R], whether it returns
    or raises. *)
Definition preserves {A} (R : World -> World -> Prop) (m : M A) : Prop :=
  forall w, R w (snd (m w)).

(** Only the log has grown. *)
Definition log_only (w w' : World) : Prop := exists l, w' = add_log l w.


(** No prompt has gone out. *)
Definition same_prompts (w w' : World) : Prop := prompts w' = prompts w.

(** The two places the executor writes to: a sanitized name in
    [command_outputs], a sanitized name in [scripts]. *)
Definition output_file (E : Env) (p : pystr) : Prop :=
  exists name, p = py "command_outputs/" ++ sanitize_filename (unicode_alnum E) name.

Definition script_file (E : Env) (p : pystr) : Prop :=
  exists name, p = py "scripts/" ++ sanitize_filename (unicode_alnum E) name.

(** Every file that differs is one of the [allowed], and every file newly
    marked executable is a script. *)
Definition writes_within (allowed : pystr -> Prop) (E : Env) (w w' : World)
  : Prop :=
  (forall p, fs w' !! p <> fs w !! p -> allowed p)
  /\ (forall p, p ∈ executable w' -> p ∈ executable w \/ script_file E p).

(** What a turn may write: the two places of the executor. *)
Definition stays_inside (E : Env) : World -> World -> Prop :=
  writes_within (fun p => output_file E p \/ script_file E p) E.

(** What a run may write: those, and the history of the conversation. *)
Definition stays_inside_or_history (E : Env) : World -> World -> Prop :=
  writes_within (fun p => output_file E p \/ script_file E p \/ p = history_file) E.

(** The prompts a sequence of passes sends, from the object it starts
    with: each pass sends the context it finds. *)
Fixpoint sent (self : PentestAutomation)
    (passes : list (PentestAutomation * flow)) : list pystr :=
  match passes with
  | [] => []
  | p :: rest => context self :: sent (fst p) rest
  end.

(** The two lines [run_script] logs, before it writes the script and
    before it runs it. *)
Definition running_line (script_type : pystr) (kv : list (pystr * json))
  : log_record :=
  {| lvl := INFO;
     msg := [Txt (py "Running " ++ script_type ++ py " script: ");
             Val (field kv (py "reason") (JStr (py "No reason provided")))] |}.

Definition executing_script_line (script_name output_name : pystr) : log_record :=
  {| lvl := INFO;
     msg := [Txt (py "Executing script: " ++ script_name ++ py " -> "
                  ++ py "command_outputs/" ++ output_name)] |}.

(** The world in which [run_script] hands its command to [run_command]:
    the script is written, marked executable if it is a bash script, and
    the two lines are logged. *)
Definition script_ready (script_type script_name output_name content : pystr)
    (kv : list (pystr * json)) (w : World) : World :=
  {| fs := <[py "scripts/" ++ script_name := content]> (fs w);
     executable := if PyStr.eqb script_type (py "bash")
                   then {[py "scripts/" ++ script_name]} ∪ executable w
                   else executable w;
     children := children w;
     log := log w ++ [running_line script_type kv;
                      executing_script_line script_name output_name];
     prompts := prompts w |}.


(** [isinstance(v, str)]. *)
Definition is_str (v : json) : bool :=
  match v with
  | JStr _ => true
  | _ => false
  end.

(** The checks of the validator on the items of a dictionary, the
    knowledge reference apart. *)
Definition passes_checks (kv : list (pystr * json)) : bool :=
  forallb (has_key kv) required_fields
  && in_strs (field kv (py "type") JNull) [py "command"; py "script"]
  && (negb (eq_str (field kv (py "type") JNull) (py "script"))
      || (script_type_ok kv && has_key kv (py "script_name"))).

(** ** [KnowledgeHandler]

    The reference map of [knowledge_base_handler.py] and its lookups. The
    items of a decoded dictionary have distinct keys, as [json.load] gives
    them. *)

Module KnowledgeHandler.

(** A dictionary with string keys, in the order of insertion. *)
Definition dict : Type := list (pystr * json).

(** [d[key] = value]: a key that is there keeps its place. *)
Fixpoint dict_set (key : pystr) (value : json) (d : dict) : dict :=
  match d with
  | [] => [(key, value)]
  | (k, v) :: rest =>
      if PyStr.eqb k key then (k, value) :: rest
      else (k, v) :: dict_set key value rest
  end.

(** [f"{path}.{key}" if path else key]. *)
Definition new_path (path key : pystr) : pystr :=
  match path with
  | [] => key
  | _ => path ++ py "." ++ key
  end.

(** [str(i)]. *)
Definition str_of_nat (i : nat) : pystr := dumps_int (Z.of_nat i).

(** [for i, item in enumerate(obj): ref_map[f"{path}.{i}"] = item], from
    the index [i] on. *)
Fixpoint store_items (path : pystr) (i : nat) (items : list json)
    (ref_map : dict) : dict :=
  match items with
  | [] => ref_map
  | item :: rest =>
      store_items path (S i) rest
        (dict_set (path ++ py "." ++ str_of_nat i) item ref_map)
  end.

(** [traverse(path, obj)], on the [ref_map] it fills. A dictionary is
    gone through, the items of a list are stored as they are, anything
    else is stored under the path that led to it. *)
Fixpoint traverse (path : pystr) (obj : json) (ref_map : dict) : dict :=
  match obj with
  | JObject kv =>
      (fix items (kv : list (pystr * json)) (ref_map : dict) : dict :=
         match kv with
         | [] => ref_map
         | (key, value) :: rest =>
             items rest (traverse (new_path path key) value ref_map)
         end) kv ref_map
  | JList l => store_items path 0 l ref_map
  | _ => dict_set path obj ref_map
  end.

Definition _create_reference_map (knowledge : json) : dict :=
  traverse [] knowledge [].

Record handler : Type := {
  knowledge : json;
  reference_map : dict
}.

(** [__init__], on the decoded knowledge file. *)
Definition init (knowledge : json) : handler :=
  {| knowledge := knowledge;
     reference_map := _create_reference_map knowledge |}.

Definition get_reference_keys (self : handler) : list pystr :=
  map fst (reference_map self).

(** [self.reference_map.get(ref_path, "Reference not found")]. The keys of
    the map are strings; a list or a dictionary cannot be looked up at
    all. *)
Definition get_knowledge (self : handler) (ref_path : json) : result json :=
  match ref_path with
  | JStr s =>
      Ok (match dict_lookup (reference_map self) s with
          | Some v => v
          | None => JStr (py "Reference not found")
          end)
  | JList _ => Raise (TypeError (py "unhashable type: 'list'"))
  | JObject _ => Raise (TypeError (py "unhashable type: 'dict'"))
  | _ => Ok (JStr (py "Reference not found"))
  end.

(** [search_knowledge], with the [str.lower] of the machine. *)
Definition search_knowledge (lower : pystr -> pystr) (self : handler)
    (search_term : pystr) : dict :=
  List.filter (fun kv =>
            contains (lower (fst kv)) (lower search_term)
            || match snd kv with
               | JStr s => contains (lower s) (lower search_term)
               | _ => false
               end)
    (reference_map self).

(** What the knowledge holds, and under which reference: [reaches obj
    path ref v] when going down from [obj], itself found under [path],
    comes to the value [v] with the reference [ref]. *)
Inductive reaches : json -> pystr -> pystr -> json -> Prop :=
| reach_key kv path key value ref v :
    In (key, value) kv ->
    reaches value (new_path path key) ref v ->
    reaches (JObject kv) path ref v
| reach_item l path i item :
    l !! i = Some item ->
    reaches (JList l) path (path ++ py "." ++ str_of_nat i) item
| reach_leaf obj path :
    match obj with JObject _ | JList _ => False | _ => True end ->
    reaches obj path path obj.

End KnowledgeHandler.

(** ** More example payloads and environments *)

(** A command payload that asks for its output to be filtered. *)
Definition filtered_payload : json :=
  JObject [ (py "type", JStr (py "command"));
            (py "content", JStr (py "ls -R /"));
            (py "reason", JStr (py "list"));
            (py "return_to_ai", JStr (py "cat output.txt"));
            (py "continue", JBool true) ].

(** A command payload whose filter is on the denylist. *)
Definition payload_with_filter : json :=
  JObject [ (py "type", JStr (py "command"));
            (py "content", JStr (py "ls"));
            (py "reason", JStr (py "list"));
            (py "return_to_ai", JStr (py "rm -rf /tmp/x; cat output.txt"));
            (py "continue", JBool true) ].

(** A command payload whose [continue] is the word false, as a string. *)
Definition payload_string_continue : json :=
  JObject [ (py "type", JStr (py "command"));
            (py "content", JStr (py "nosuchprogram"));
            (py "reason", JStr (py "test"));
            (py "continue", JStr (py "false")) ].


(** A machine whose knowledge base is [h]. *)
Definition with_knowledge (h : KnowledgeHandler.handler) (E : Env) : Env :=
  {| unicode_alnum := unicode_alnum E;
     str_lower := str_lower E;
     json_loads := json_loads E;
     shlex_split := shlex_split E;
     get_knowledge := KnowledgeHandler.get_knowledge h;
     open_w := open_w E;
     text_encode := text_encode E;
     popen := popen E;
     subprocess_run := subprocess_run E;
     chat := chat E;
     history := history E;
     randint := randint E;
     target_matches := target_matches E |}.

(** A small knowledge base, and a payload that refers to it. *)
Definition small_knowledge : json :=
  JObject [ (py "xss",
             JObject [ (py "reflected", JStr (py "echoed input"));
                       (py "payloads", JList [JStr (py "<script>"); JStr []]) ]) ].

Definition payload_with_ref (ref : json) : json :=
  JObject [ (py "type", JStr (py "command"));
            (py "content", JStr (py "ls"));
            (py "reason", JStr (py "test"));
            (py "continue", JBool true);
            (py "knowledge_ref", ref) ].

(** * Properties *)

(** ** Running a computation *)

Lemma bind_run {A B} (m : M A) (k : A -> M B) w :
  bind m k w
  = match m w with
    | (Ok a, w') => k a w'
    | (Raise e, w') => (Raise e, w')
    end.
Proof. reflexivity. Qed.

Lemma add_log_add_log l1 l2 w :
  add_log l2 (add_log l1 w) = add_log (l1 ++ l2) w.
Proof. unfold add_log. simpl. now rewrite app_assoc. Qed.


(** ** The sanitizer *)

Section Sanitizer.

Variable hi : N -> bool.

Lemma rfind_from_bounds ch s i found :
  (-1 <= found < i)%Z -> (0 <= i)%Z ->
  (-1 <= rfind_from ch s i found < i + Z.of_nat (length s))%Z.
Proof.
  revert i found. induction s as [|c s IH]; intros i found Hf Hi; simpl.
  - lia.
  - destruct (c =? ch).
    + specialize (IH (i + 1)%Z i). lia.
    + specialize (IH (i + 1)%Z found). lia.
Qed.

(** The result is [found] or a position from [i] on, and nothing after
    it is the character sought. *)
Lemma rfind_from_spec ch s i found :
  (found < i)%Z ->
  (rfind_from ch s i found = found \/ (i <= rfind_from ch s i found)%Z)
  /\ (forall k c, s !! k = Some c ->
               (rfind_from ch s i found < i + Z.of_nat k)%Z -> c <> ch).
Proof.
  revert i found. induction s as [|c0 s IH]; intros i found Hf; simpl.
  - split; [now left|]. intros k c Hl. destruct k; discriminate.
  - destruct (N.eqb_spec c0 ch) as [Heq|Hne].
    + destruct (IH (i + 1)%Z i ltac:(lia)) as [H1 H2]. split; [lia|].
      intros [|k] c Hl Hr; simpl in Hl.
      * lia.
      * apply (H2 k c Hl). lia.
    + destruct (IH (i + 1)%Z found ltac:(lia)) as [H1 H2]. split; [lia|].
      intros [|k] c Hl Hr; simpl in Hl.
      * congruence.
      * apply (H2 k c Hl). lia.
Qed.

Lemma basename_no_sep p : 47 ∉ basename p.
Proof.
  unfold basename, slice_from, rfind. intros Hin.
  apply list_elem_of_lookup in Hin as [k Hk].
  rewrite lookup_drop in Hk.
  pose proof (rfind_from_bounds 47 p 0 (-1) ltac:(lia) ltac:(lia)) as Hb.
  destruct (rfind_from_spec 47 p 0 (-1) ltac:(lia)) as [_ Hafter].
  apply (Hafter _ _ Hk); [lia|reflexivity].
Qed.

Lemma sub_unsafe_keeps s c :
  c ∈ sub_unsafe hi s -> sanitize_keeps hi c = true.
Proof.
  unfold sub_unsafe. intros Hin. apply list_elem_of_fmap in Hin as [x [-> Hx]].
  destruct (sanitize_keeps hi x) eqn:Hk; [exact Hk|].
  unfold sanitize_keeps. rewrite orb_true_r. reflexivity.
Qed.

Lemma sub_unsafe_no_sep s : 47 ∉ s -> 47 ∉ sub_unsafe hi s.
Proof.
  unfold sub_unsafe. intros Hs Hin.
  apply list_elem_of_fmap in Hin as [x [Heq Hx]].
  destruct (sanitize_keeps hi x); [subst x; contradiction|discriminate].
Qed.

(** On ASCII the set kept by the substitution is the set of the
    specification: checked on each of the 128 characters. *)
Lemma keeps_ascii_allowed c :
  c < 128 -> sanitize_keeps hi c = true -> spec_allowed c = true.
Proof.
  intros Hc Hk.
  assert (Hall : forallb (fun n => implb (sanitize_keeps hi (N.of_nat n))
                                         (spec_allowed (N.of_nat n)))
                         (List.seq 0 128) = true) by (vm_compute; reflexivity).
  rewrite forallb_forall in Hall.
  specialize (Hall (N.to_nat c)).
  rewrite N2Nat.id, Hk in Hall. apply Hall.
  apply in_seq. lia.
Qed.

Lemma keeps_word c :
  sanitize_keeps hi c = true ->
  is_word hi c = true \/ c = 46 \/ c = 45.
Proof.
  unfold sanitize_keeps. intros H.
  apply orb_true_iff in H as [H|H];
    [apply orb_true_iff in H as [H|H]; [apply orb_true_iff in H as [H|H]|]|].
  - now left.
  - right; left. now apply N.eqb_eq.
  - right; right. now apply N.eqb_eq.
  - left. unfold is_word. rewrite H. apply orb_true_r.
Qed.

End Sanitizer.

(** C1, as stated, fails on a name with a letter outside ASCII: [\w] of a
    [str] pattern matches it, so it is kept. Here the name is
    [U+00E9 . t x t]. *)
Lemma sanitize_filename_keeps_non_ascii :
  sanitize_filename (fun _ => false) [233; 46; 116; 120; 116]
  = [233; 46; 116; 120; 116]
  /\ ~ Forall (fun c => spec_allowed c = true)
         (sanitize_filename (fun _ => false) [233; 46; 116; 120; 116]).
Proof.
  split; [reflexivity|].
  intros H. apply Forall_inv in H. vm_compute in H. discriminate.
Qed.

(** C1, amended: for every input the sanitized name has no path separator,
    is made of word characters in Python's sense (letters and digits of
    any script and the underscore), dots and hyphens, is at most 100
    characters long, and its ASCII characters are all in [A-Za-z0-9._-]. *)
Theorem sanitize_filename_safe (hi : N -> bool) (filename : pystr) :
  let name := sanitize_filename hi filename in
  (47 ∉ name)
  /\ Forall (fun c => is_word hi c = true \/ c = 46 \/ c = 45) name
  /\ Forall (fun c => spec_allowed c = true)
       (List.filter (fun c => c <? 128) name)
  /\ (length name <= 100)%nat.
Proof.
  intros name. unfold name, sanitize_filename, slice_to.
  assert (Hsub : forall c, c ∈ take 100 (sub_unsafe hi (basename filename)) ->
                           c ∈ sub_unsafe hi (basename filename)).
  { intros c Hc. apply list_elem_of_lookup in Hc as [i Hi].
    apply list_elem_of_lookup. exists i.
    rewrite lookup_take_Some in Hi. tauto. }
  repeat split.
  - intros Hin. apply Hsub in Hin.
    revert Hin. apply sub_unsafe_no_sep, basename_no_sep.
  - apply Forall_forall. intros c Hc.
    apply Hsub, sub_unsafe_keeps in Hc.
    now apply keeps_word.
  - apply Forall_forall. intros c Hc.
    apply list_elem_of_In, filter_In in Hc as [Hc Hlt].
    apply (proj2 (list_elem_of_In _ _)), Hsub, sub_unsafe_keeps in Hc.
    apply N.ltb_lt in Hlt. now apply (keeps_ascii_allowed hi).
  - rewrite length_take. lia.
Qed.

(** ** The matcher against the language *)

Section Matcher.

Variable ic : bool.

Lemma Matches_void s : ~ Matches ic RVoid s.
Proof. intros H. inversion H. Qed.

Lemma Matches_eps s : Matches ic REps s -> s = [].
Proof. intros H. now inversion H. Qed.

Lemma nullable_Matches r : nullable r = true <-> Matches ic r [].
Proof.
  split.
  - induction r; simpl; intros H; try discriminate.
    + constructor.
    + apply andb_true_iff in H as [H1 H2].
      change (@nil N) with (@nil N ++ @nil N). constructor; auto.
    + apply orb_true_iff in H as [H|H]; [apply MAltL|apply MAltR]; auto.
    + constructor.
  - intros H. remember (@nil N) as s eqn:Hs.
    induction H; simpl; try reflexivity; try discriminate.
    + apply app_eq_nil in Hs as [-> ->]. rewrite IHMatches1, IHMatches2; auto.
    + rewrite IHMatches; auto.
    + rewrite IHMatches; auto. apply orb_true_r.
Qed.

Lemma cat_Matches r1 r2 s :
  Matches ic (cat r1 r2) s <-> Matches ic (RCat r1 r2) s.
Proof.
  split.
  - intros H.
    destruct r1; simpl in H;
      try (destruct r2; solve [exact H | exfalso; eapply Matches_void; exact H]).
    destruct r2; apply (MCat ic REps _ [] s); solve [constructor | exact H].
  - intros H. inversion H as [| |a b s1 s2 H1 H2| | | |]; subst.
    destruct r1; simpl;
      try (destruct r2; solve [constructor; assumption
                              | exfalso; eapply Matches_void; eassumption]).
    apply Matches_eps in H1 as ->. simpl.
    destruct r2; solve [assumption | exfalso; eapply Matches_void; eassumption].
Qed.

Lemma alt_Matches r1 r2 s :
  Matches ic (alt r1 r2) s <-> Matches ic (RAlt r1 r2) s.
Proof.
  split.
  - intros H.
    destruct r1; simpl in H;
      try (destruct r2; solve [exact H | apply MAltL; exact H]).
    apply MAltR; exact H.
  - intros H.
    inversion H; subst.
    + destruct r1; simpl;
        try (destruct r2; solve [apply MAltL; assumption | assumption]).
      exfalso; eapply Matches_void; eassumption.
    + destruct r1; simpl;
        try (destruct r2; solve [apply MAltR; assumption
                                | exfalso; eapply Matches_void; eassumption]).
      assumption.
Qed.

End Matcher.

Section Derivative.

Variable ic : bool.

Lemma deriv_sound c r s :
  Matches ic (deriv ic c r) s -> Matches ic r (c :: s).
Proof.
  revert s. induction r as [|a|r1 IH1 r2 IH2|r1 IH1 r2 IH2|r IH|]; intros s H; simpl in H.
  - inversion H.
  - destruct (atom_match ic a c) eqn:Ha; [|inversion H].
    apply Matches_eps in H as ->. now constructor.
  - assert (Hleft : forall t, Matches ic (cat (deriv ic c r1) r2) t ->
                              Matches ic (RCat r1 r2) (c :: t)).
    { intros t Ht. apply cat_Matches in Ht.
      inversion Ht as [| |a b s1 s2 H1 H2| | | |]; subst.
      apply (MCat ic r1 r2 (c :: s1) s2); auto. }
    destruct (nullable r1) eqn:Hn.
    + apply alt_Matches in H. inversion H; subst.
      * now apply Hleft.
      * apply (MCat ic r1 r2 [] (c :: s)); [apply nullable_Matches; exact Hn|auto].
    + now apply Hleft.
  - apply alt_Matches in H. inversion H; subst.
    + apply MAltL; auto.
    + apply MAltR; auto.
  - apply cat_Matches in H.
    inversion H as [| |a b s1 s2 H1 H2| | | |]; subst.
    apply (MStarApp ic r (c :: s1) s2); auto.
  - inversion H.
Qed.

Lemma deriv_complete c r s :
  Matches ic r (c :: s) -> Matches ic (deriv ic c r) s.
Proof.
  intros H. remember (c :: s) as t eqn:Ht. revert s Ht.
  induction H as [|a c0 Ha|r1 r2 s1 s2 H1 IH1 H2 IH2|r1 r2 t H IH|r1 r2 t H IH
                  |r|r s1 s2 H1 IH1 H2 IH2];
    intros s Ht; simpl.
  - discriminate.
  - injection Ht as -> <-. rewrite Ha. constructor.
  - destruct s1 as [|c1 s1]; simpl in Ht.
    + subst s2. assert (Hn : nullable r1 = true) by (apply (nullable_Matches ic); exact H1).
      rewrite Hn. apply alt_Matches, MAltR. now apply IH2.
    + injection Ht as -> <-.
      assert (Hc : Matches ic (cat (deriv ic c r1) r2) (s1 ++ s2)).
      { apply cat_Matches. constructor; auto. }
      destruct (nullable r1); [apply alt_Matches, MAltL|]; exact Hc.
  - apply alt_Matches, MAltL; auto.
  - apply alt_Matches, MAltR; auto.
  - discriminate.
  - destruct s1 as [|c1 s1]; simpl in Ht.
    + now apply IH2.
    + injection Ht as -> <-. apply cat_Matches. constructor; auto.
Qed.

Lemma match_prefix_spec r s :
  match_prefix ic r s = true <->
  exists s1 s2, s = s1 ++ s2 /\ Matches ic r s1.
Proof.
  revert r. induction s as [|c s IH]; intros r; simpl.
  - rewrite orb_false_r, nullable_Matches. split.
    + intros H. exists [], []. split; [reflexivity|exact H].
    + intros (s1 & s2 & Hs & H). symmetry in Hs.
      apply app_eq_nil in Hs as [-> _]. exact H.
  - rewrite orb_true_iff, IH, (nullable_Matches ic). split.
    + intros [H|(s1 & s2 & -> & H)].
      * exists [], (c :: s). split; [reflexivity|exact H].
      * exists (c :: s1), s2. split; [reflexivity|apply deriv_sound; exact H].
    + intros (s1 & s2 & Hs & H). destruct s1 as [|c1 s1]; simpl in Hs.
      * left. exact H.
      * injection Hs as -> ->. right. exists s1, s2.
        split; [reflexivity|apply deriv_complete; exact H].
Qed.

(** [search] is [re.search]: it succeeds exactly when a substring is in
    the language. *)
Lemma search_spec r s : search ic r s = true <-> Found ic r s.
Proof.
  unfold Found. induction s as [|c s IH]; simpl.
  - rewrite orb_false_r, (match_prefix_spec r []). split.
    + intros (s1 & s2 & Hs & H). exists [], s1, s2. split; [exact Hs|exact H].
    + intros (b & m & a & Hs & H). symmetry in Hs.
      apply app_eq_nil in Hs as [-> Hs]. apply app_eq_nil in Hs as [-> ->].
      exists [], []. split; [reflexivity|exact H].
  - rewrite orb_true_iff, IH, (match_prefix_spec r (c :: s)). split.
    + intros [(s1 & s2 & Hs & H)|(b & m & a & -> & H)].
      * exists [], s1, s2. split; [exact Hs|exact H].
      * exists (c :: b), m, a. split; [reflexivity|exact H].
    + intros (b & m & a & Hs & H). destruct b as [|c1 b]; simpl in Hs.
      * left. exists m, a. split; [exact Hs|exact H].
      * injection Hs as -> ->. right. exists b, m, a. split; [reflexivity|exact H].
Qed.

End Derivative.

(** ** The denylist *)

Lemma validate_loop_spec patterns command :
  validate_loop patterns command = false <->
  exists p, In p patterns /\ Found true p command.
Proof.
  induction patterns as [|p ps IH]; simpl.
  - split; [discriminate|]. intros (p & [] & _).
  - destruct (search true p command) eqn:Hs.
    + split; [|reflexivity]. intros _. exists p. split; [left; reflexivity|].
      apply search_spec. exact Hs.
    + rewrite IH. split.
      * intros (q & Hq & Hf). exists q. split; [right; exact Hq|exact Hf].
      * intros (q & [<-|Hq] & Hf).
        -- apply search_spec in Hf. congruence.
        -- exists q. split; [exact Hq|exact Hf].
Qed.

(** ** Case does not matter to the denylist *)

(** Case analysis on every comparison of the goal, dropping the branches
    arithmetic refutes. *)
Ltac cmp_cases :=
  repeat (match goal with
          | |- context [N.eqb ?a ?b] => destruct (N.eqb_spec a b)
          | |- context [N.leb ?a ?b] => destruct (N.leb_spec a b)
          | |- context [N.ltb ?a ?b] => destruct (N.ltb_spec a b)
          end; try lia; simpl).
Lemma lower_eq_cases c1 c2 :
  ascii_lower c1 = ascii_lower c2 ->
  c1 = c2 \/ (65 <= c1 <= 90 /\ c2 = c1 + 32) \/ (65 <= c2 <= 90 /\ c1 = c2 + 32).
Proof.
  unfold ascii_lower, is_ascii_upper. cmp_cases; lia.
Qed.
Lemma ascii_lower_cases p :
  (65 <= p <= 90 /\ ascii_lower p = p + 32) \/ (~ 65 <= p <= 90 /\ ascii_lower p = p).
Proof. unfold ascii_lower, is_ascii_upper. cmp_cases; lia. Qed.

Lemma lit_match_upper p c :
  65 <= c <= 90 -> lit_match true p c = lit_match true p (c + 32).
Proof.
  intros Hc. unfold lit_match.
  destruct (ascii_lower_cases c) as [[_ ->]|[? _]]; [|lia].
  destruct (ascii_lower_cases (c + 32)) as [[? _]|[_ ->]]; [lia|].
  destruct (ascii_lower_cases p) as [[Hp ->]|[Hp ->]];
    unfold is_ascii_lower, ignorecase_extra; simpl;
    cmp_cases; reflexivity.
Qed.
Lemma atom_match_upper a c :
  caseless_atom a = true -> 65 <= c <= 90 ->
  atom_match true a c = atom_match true a (c + 32).
Proof.
  intros Ha Hc. destruct a as [p| | |lo hi]; simpl in *.
  - now apply lit_match_upper.
  - unfold isspace. cmp_cases; reflexivity.
  - cmp_cases; reflexivity.
  - apply N.ltb_lt in Ha. cmp_cases; reflexivity.
Qed.

Lemma atom_match_case a c1 c2 :
  caseless_atom a = true -> ascii_lower c1 = ascii_lower c2 ->
  atom_match true a c1 = atom_match true a c2.
Proof.
  intros Ha Hl. apply lower_eq_cases in Hl.
  destruct Hl as [->|[[Hc ->]|[Hc ->]]].
  - reflexivity.
  - now apply atom_match_upper.
  - symmetry. now apply atom_match_upper.
Qed.

Lemma Matches_case r s1 s2 :
  caseless_ranges r = true -> same_modulo_case s1 s2 ->
  Matches true r s1 -> Matches true r s2.
Proof.
  intros Hr Hs H. revert s2 Hs Hr. unfold same_modulo_case.
  induction H as [|a c Ha|r1 r2 t1 t2 H1 IH1 H2 IH2|r1 r2 t H IH|r1 r2 t H IH
                  |r|r t1 t2 H1 IH1 H2 IH2]; intros s2 Hs Hr; simpl in *.
  - destruct s2; [constructor|discriminate].
  - destruct s2 as [|c2 [|? ?]]; try discriminate. injection Hs as Hs.
    constructor. rewrite <- (atom_match_case a c c2); auto.
  - apply andb_true_iff in Hr as [Hr1 Hr2].
    rewrite map_app in Hs. symmetry in Hs.
    apply map_eq_app in Hs as (u1 & u2 & -> & Hu1 & Hu2).
    constructor; [apply IH1|apply IH2]; auto.
  - apply andb_true_iff in Hr as [Hr1 Hr2]. apply MAltL; auto.
  - apply andb_true_iff in Hr as [Hr1 Hr2]. apply MAltR; auto.
  - destruct s2; [constructor|discriminate].
  - rewrite map_app in Hs. symmetry in Hs.
    apply map_eq_app in Hs as (u1 & u2 & -> & Hu1 & Hu2).
    constructor; [apply IH1|apply IH2]; auto.
Qed.

Lemma Found_case r s1 s2 :
  caseless_ranges r = true -> same_modulo_case s1 s2 ->
  Found true r s1 -> Found true r s2.
Proof.
  intros Hr Hs (b & m & a & -> & H). unfold same_modulo_case in Hs.
  rewrite !map_app in Hs. symmetry in Hs.
  apply map_eq_app in Hs as (b' & rest & -> & Hb & Hrest).
  apply map_eq_app in Hrest as (m' & a' & -> & Hm & Ha).
  exists b', m', a'. split; [reflexivity|].
  apply (Matches_case r m m'); auto. unfold same_modulo_case. congruence.
Qed.

(** The verdict does not depend on the case of the ASCII letters. *)
Lemma validate_command_case s1 s2 :
  same_modulo_case s1 s2 -> validate_command s1 = validate_command s2.
Proof.
  assert (Hall : forallb caseless_ranges dangerous_patterns = true) by reflexivity.
  rewrite forallb_forall in Hall.
  assert (Hdir : forall a b, same_modulo_case a b ->
                 validate_command a = false -> validate_command b = false).
  { intros a b Hab Ha. apply validate_loop_spec in Ha as (p & Hp & Hf).
    apply validate_loop_spec. exists p. split; [exact Hp|].
    apply (Found_case p a b); auto. }
  intros Hs.
  destruct (validate_command s1) eqn:H1, (validate_command s2) eqn:H2; try reflexivity.
  - apply (Hdir s2 s1) in H2; [congruence|]. unfold same_modulo_case in *. congruence.
  - apply (Hdir s1 s2) in H1; [congruence|exact Hs].
Qed.

(** C3: [validate_command] returns [false] exactly for the commands in
    which some denylisted pattern is found, the case of letters making no
    difference; it refuses [rm -rf /] and [chmod 777 /etc] and accepts
    [ls -la]. *)
Theorem validate_command_denylist :
  (forall command,
      (exists p, In p dangerous_patterns /\ Found true p command) ->
      validate_command command = false)
  /\ (forall command,
        validate_command command = false ->
        exists p, In p dangerous_patterns /\ Found true p command)
  /\ (forall c1 c2,
        same_modulo_case c1 c2 -> validate_command c1 = validate_command c2)
  /\ validate_command (py "rm -rf /") = false
  /\ validate_command (py "chmod 777 /etc") = false
  /\ validate_command (py "ls -la") = true.
Proof.
  split; [|split; [|split; [|split; [|split]]]].
  - intros command H. now apply validate_loop_spec.
  - intros command H. now apply validate_loop_spec in H.
  - exact validate_command_case.
  - vm_compute. reflexivity.
  - vm_compute. reflexivity.
  - vm_compute. reflexivity.
Qed.

(** C3 at work: [RM -Rf] in capitals, after a [sudo], is found by the
    first pattern. *)
Lemma validate_command_denylist_witness :
  validate_command (py "sudo RM  -Rf /tmp") = false.
Proof.
  apply (proj1 validate_command_denylist).
  exists (seq [lits (py "rm"); ws_plus; lits (py "-rf")]).
  split; [left; reflexivity|].
  apply search_spec. vm_compute. reflexivity.
Defined.

(** ** The output filter *)



(** ** The command runner *)

Section Runner.

Variable E : Env.
Variables (command output_path : pystr) (cwd : option pystr) (w : World).

(** A command on the denylist: one log line, and nothing else happens. *)
Lemma run_command_blocked :
  validate_command command = false ->
  run_command E command output_path cwd w
  = (Ok false, add_log [blocked_line command] w).
Proof.
  intros H. unfold run_command, try_except, bind. rewrite H. reflexivity.
Qed.

(** The file cannot be opened: one log line, and nothing else happens. *)
Lemma run_command_no_open e :
  validate_command command = true ->
  open_w E w output_path = Raise e ->
  exists l, run_command E command output_path cwd w = (Ok false, add_log [l] w).
Proof.
  intros H Ho. unfold run_command, try_except, bind, open_trunc.
  rewrite H. simpl. rewrite Ho.
  destruct (is_timeout e); eexists; reflexivity.
Qed.

(** Once the command has passed the denylist and the file is open: the
    call succeeds exactly when a program starts and ends in time; the file
    holds what the program wrote, or nothing. *)
Lemma run_command_opened :
  validate_command command = true ->
  open_w E w output_path = Ok tt ->
  exists w',
    run_command E command output_path cwd w
    = (Ok (match started E command output_path cwd w with
           | Some pr => match exit_in_time pr with Some _ => true | None => false end
           | None => false
           end), w')
    /\ children w' = children w
                     ++ match started E command output_path cwd w with
                        | Some pr =>
                            [{| args := JList (map JStr
                                          (match shlex_split E command with
                                           | Ok argv => argv
                                           | Raise _ => []
                                           end));
                                shell := false; child_cwd := cwd;
                                running := match exit_in_time pr with
                                           | Some _ => false
                                           | None => true
                                           end;
                                returncode := exit_in_time pr |}]
                        | None => []
                        end
    /\ fs w' = <[output_path := match started E command output_path cwd w with
                                | Some pr => written pr
                                | None => []
                                end]> (fs w).
Proof.
  intros H Ho. unfold started, run_command, try_except, bind, open_trunc, lift, Popen, wait.
  rewrite H. simpl. rewrite Ho.
  destruct (shlex_split E command) as [argv|e]; simpl.
  - destruct (popen E (after_open output_path w) argv cwd) as [pr|e]; simpl.
    + destruct (exit_in_time pr) as [rc|]; simpl;
        (eexists; split; [reflexivity|]); simpl; (split; [|apply insert_insert_eq]).
      * rewrite (alter_app_r_alt _ _ _ (length (children w))) by lia.
        rewrite Nat.sub_diag. reflexivity.
      * reflexivity.
    + destruct (is_timeout e); simpl; eexists; (split; [reflexivity|]);
        simpl; rewrite app_nil_r; split; reflexivity.
  - destruct (is_timeout e); simpl; eexists; (split; [reflexivity|]);
      simpl; rewrite app_nil_r; split; reflexivity.
Qed.

End Runner.

(** [run_command] never raises, and reports success exactly when the
    command passed the denylist, the file opened, and a program started
    and ended in time, whatever its exit code. *)
Lemma run_command_success_iff (E : Env) (command output_path : pystr)
    (cwd : option pystr) (w : World) :
  (exists b, fst (run_command E command output_path cwd w) = Ok b)
  /\ (fst (run_command E command output_path cwd w) = Ok true <->
      validate_command command = true
      /\ open_w E w output_path = Ok tt
      /\ exists pr rc, started E command output_path cwd w = Some pr
                       /\ exit_in_time pr = Some rc).
Proof.
  destruct (validate_command command) eqn:Hv.
  - destruct (open_w E w output_path) as [[]|e] eqn:Ho.
    + destruct (run_command_opened E command output_path cwd w Hv Ho)
        as (w' & -> & _). simpl. split; [eexists; reflexivity|].
      destruct (started E command output_path cwd w) as [pr|].
      * destruct (exit_in_time pr) as [rc|] eqn:Hx.
        -- split; [intros _|reflexivity]. repeat split. exists pr, rc. now split.
        -- split; [discriminate|]. intros (_ & _ & pr' & rc & Hs & Hx').
           injection Hs as <-. congruence.
      * split; [discriminate|]. intros (_ & _ & pr' & rc & Hs & _). discriminate.
    + destruct (run_command_no_open E command output_path cwd w e Hv Ho) as [l ->].
      simpl. split; [eexists; reflexivity|].
      split; [discriminate|]. intros (_ & ? & _). discriminate.
  - rewrite (run_command_blocked E command output_path cwd w Hv). simpl.
    split; [eexists; reflexivity|]. split; [discriminate|]. intros (? & _). discriminate.
Qed.

(** C7, where the code falls short of it: a program that is started and
    is still running when the 300 seconds are over. The call returns
    [False] and logs the timeout, but the child it started is
    still running afterwards: [Popen.wait] raises without ending it, and
    the handler only logs. *)
Theorem run_command_timeout_leaves_child_running (E : Env)
    (command output_path : pystr) (cwd : option pystr) (w : World)
    (argv : list pystr) (pr : process_run) :
  validate_command command = true ->
  open_w E w output_path = Ok tt ->
  shlex_split E command = Ok argv ->
  popen E (after_open output_path w) argv cwd = Ok pr ->
  exit_in_time pr = None ->
  let r := run_command E command output_path cwd w in
  fst r = Ok false
  /\ log (snd r) = log w ++ [timeout_line command]
  /\ children (snd r)
     = children w ++ [{| args := JList (map JStr argv); shell := false;
                         child_cwd := cwd; running := true;
                         returncode := None |}].
Proof.
  intros Hv Ho Hs Hp Hx r.
  unfold r, run_command, try_except, bind, open_trunc, lift, Popen, wait.
  rewrite Hv. simpl. rewrite Ho, Hs. simpl. rewrite Hp. simpl. rewrite Hx. simpl.
  repeat split.
Qed.

(** C7 at work: [sleep 1000] outlives the wait. *)
Lemma run_command_timeout_leaves_child_running_witness :
  fst (run_command (example_env [] never_ends no_filter None)
         (py "sleep 1000") (py "command_outputs/output.txt") None empty_world)
  = Ok false
  /\ log (snd (run_command (example_env [] never_ends no_filter None)
                 (py "sleep 1000") (py "command_outputs/output.txt") None
                 empty_world))
     = [timeout_line (py "sleep 1000")]
  /\ children (snd (run_command (example_env [] never_ends no_filter None)
                      (py "sleep 1000") (py "command_outputs/output.txt") None
                      empty_world))
     = [{| args := JList [JStr (py "sleep"); JStr (py "1000")];
           shell := false; child_cwd := None;
           running := true; returncode := None |}].
Proof.
  apply (run_command_timeout_leaves_child_running
           (example_env [] never_ends no_filter None)
           (py "sleep 1000") (py "command_outputs/output.txt") None empty_world
           [py "sleep"; py "1000"] {| written := []; exit_in_time := None |});
    vm_compute; reflexivity.
Defined.

(** C8, as stated, fails twice. A command on the denylist leaves no file:
    the call returns before it opens one. A program that cannot be
    started does leave one: the file is opened before the program is
    started. *)
Lemma run_command_file_counterexample :
  fs (snd (run_command (example_env [] (prints [] 0) no_filter None)
             (py "rm -rf /") (py "command_outputs/output.txt") None
             empty_world))
     !! py "command_outputs/output.txt" = None
  /\ fs (snd (run_command (example_env [] no_such_file no_filter None)
                (py "nosuchprogram") (py "command_outputs/output.txt") None
                empty_world))
        !! py "command_outputs/output.txt" = Some [].
Proof.
  split.
  - rewrite run_command_blocked by (vm_compute; reflexivity). reflexivity.
  - destruct (run_command_opened (example_env [] no_such_file no_filter None)
                (py "nosuchprogram") (py "command_outputs/output.txt") None
                empty_world) as (w' & -> & _ & Hfs);
      [vm_compute; reflexivity|reflexivity|].
    simpl. rewrite Hfs. apply lookup_insert_eq.
Qed.

(** C8, amended: a call to [run_command] leaves a file at [output_path],
    holding what the started program wrote and nothing of what was there
    before, whenever the command passes the denylist and the file can be
    opened, also when the program then cannot be started or runs out of
    time; a command on the denylist, or a file that cannot be opened,
    leaves the files as they were. No other file is touched. *)
Theorem run_command_output_file (E : Env) (command output_path : pystr)
    (cwd : option pystr) (w : World) :
  let w' := snd (run_command E command output_path cwd w) in
  (validate_command command = false -> fs w' = fs w)
  /\ (forall e, open_w E w output_path = Raise e -> fs w' = fs w)
  /\ (validate_command command = true -> open_w E w output_path = Ok tt ->
      fs w' !! output_path
      = Some (match started E command output_path cwd w with
              | Some pr => written pr
              | None => []
              end))
  /\ (forall p, p <> output_path -> fs w' !! p = fs w !! p).
Proof.
  intros w'. unfold w'.
  destruct (validate_command command) eqn:Hv.
  - destruct (open_w E w output_path) as [[]|e] eqn:Ho.
    + destruct (run_command_opened E command output_path cwd w Hv Ho)
        as (w1 & -> & _ & Hfs). simpl. rewrite Hfs.
      split; [discriminate|]. split; [discriminate|]. split.
      * intros _ _. apply lookup_insert_eq.
      * intros p Hp. apply lookup_insert_ne. congruence.
    + destruct (run_command_no_open E command output_path cwd w e Hv Ho) as [l ->].
      simpl. split; [reflexivity|]. split; [reflexivity|].
      split; [discriminate|reflexivity].
  - rewrite (run_command_blocked E command output_path cwd w Hv). simpl.
    split; [reflexivity|]. split; [reflexivity|].
    split; [discriminate|reflexivity].
Qed.

(** C8 at work: an old file is emptied although the program cannot be
    started. *)
Lemma run_command_output_file_witness :
  fs (snd (run_command (example_env [] no_such_file no_filter None)
             (py "nosuchprogram") (py "out.txt") None
             (set_fs {[ py "out.txt" := py "old" ]} empty_world)))
     !! py "out.txt" = Some [].
Proof.
  apply (proj1 (proj2 (proj2
           (run_command_output_file (example_env [] no_such_file no_filter None)
              (py "nosuchprogram") (py "out.txt") None
              (set_fs {[ py "out.txt" := py "old" ]} empty_world))))).
  - vm_compute. reflexivity.
  - reflexivity.
Defined.

(** ** The command executor *)

Lemma lstrip_by_all p s : Forall (fun c => p c = true) s -> lstrip_by p s = [].
Proof.
  induction 1 as [|c s Hc _ IH]; simpl; [reflexivity|]. now rewrite Hc.
Qed.

Lemma strip_backticks_only c :
  Forall (fun x => x = 96) c -> strip_chars (py "`") c = [].
Proof.
  intros H. unfold strip_chars, strip_by, rstrip_by.
  rewrite (lstrip_by_all _ c); [reflexivity|].
  eapply Forall_impl; [exact H|]. intros x ->. reflexivity.
Qed.

Section RunAiCommand.

Variable E : Env.
Variables (s : pystr) (kv : list (pystr * json)) (w : World).
Hypothesis Hloads : json_loads E s = Ok (JObject kv).

Lemma py_get_field key default :
  py_get (JObject kv) key default = Ok (field kv key default).
Proof. reflexivity. Qed.

(** No command in the payload: one log line, and nothing else happens. *)
Lemma run_ai_command_no_command name :
  (dict_lookup kv (py "content") = None
   \/ exists c, dict_lookup kv (py "content") = Some (JStr c)
               /\ strip_chars (py "`") c = []) ->
  (dict_lookup kv (py "output_name") = None
   \/ dict_lookup kv (py "output_name") = Some (JStr name)) ->
  run_ai_command E s w
  = (Ok (py "No command to execute."), add_log [reason_line kv] w).
Proof.
  intros Hc Hn. unfold run_ai_command. rewrite Hloads.
  unfold bind, lift. rewrite !py_get_field.
  assert (Hcmd : str_method (py "strip") (strip_chars (py "`"))
                   (field kv (py "content") (JStr [])) = Ok []).
  { unfold field. destruct Hc as [->|(c & -> & Hc)]; simpl;
      [reflexivity|now rewrite Hc]. }
  rewrite Hcmd.
  assert (Hname : exists n, sanitize_value E
                   (field kv (py "output_name") (JStr (py "output.txt"))) = Ok n).
  { unfold field. destruct Hn as [->| ->]; simpl; eexists; reflexivity. }
  destruct Hname as [n ->]. reflexivity.
Qed.

(** A command in the payload: two log lines, then [run_command], then the
    error text or the filter. *)
Lemma run_ai_command_runs c command n :
  dict_lookup kv (py "content") = Some (JStr c) ->
  strip_chars (py "`") c = command -> command <> [] ->
  sanitize_value E (field kv (py "output_name") (JStr (py "output.txt"))) = Ok n ->
  run_ai_command E s w
  = bind (run_command E command (py "command_outputs/" ++ n) None)
      (fun success : bool =>
         if negb success then ret (py "Error executing command: " ++ command)
         else filter_and_finish E (field kv (py "return_to_ai") (JStr []))
                (field kv (py "continue") (JBool true)) n)
      (add_log [reason_line kv; executing_line command n] w).
Proof.
  intros Hc Hs Hne Hn. unfold run_ai_command. rewrite Hloads.
  assert (Hcmd : str_method (py "strip") (strip_chars (py "`"))
                   (field kv (py "content") (JStr [])) = Ok command).
  { unfold field. rewrite Hc. simpl. now rewrite Hs. }
  unfold bind at 1 2 3 4 5 6 7 8, lift. rewrite !py_get_field. rewrite Hn, Hcmd.
  destruct command as [|x command']; [congruence|].
  unfold bind at 1. unfold logger at 1. unfold bind at 1. unfold logger at 1.
  unfold add_log. simpl. rewrite <- app_assoc. reflexivity.
Qed.

(** Whenever [run_command] fails, for whatever reason, the caller gets the
    same text. *)
Lemma run_ai_command_failed c command n :
  dict_lookup kv (py "content") = Some (JStr c) ->
  strip_chars (py "`") c = command -> command <> [] ->
  sanitize_value E (field kv (py "output_name") (JStr (py "output.txt"))) = Ok n ->
  fst (run_command E command (py "command_outputs/" ++ n) None
         (add_log [reason_line kv; executing_line command n] w)) = Ok false ->
  run_ai_command E s w
  = (Ok (py "Error executing command: " ++ command),
     snd (run_command E command (py "command_outputs/" ++ n) None
            (add_log [reason_line kv; executing_line command n] w))).
Proof.
  intros Hc Hs Hne Hn Hf. rewrite (run_ai_command_runs c command n) by assumption.
  unfold bind.
  destruct (run_command E command (py "command_outputs/" ++ n) None
              (add_log [reason_line kv; executing_line command n] w)) as [r w'].
  simpl in Hf. subst r. reflexivity.
Qed.

End RunAiCommand.

(** C10, as stated, fails on a payload whose [output_name] is not a
    string: the file name is sanitized before the command is looked at,
    and [os.path.basename] raises on [None]. *)
Lemma run_ai_command_null_output_name :
  fst (run_ai_command (example_env [payload_null_name] no_such_file no_filter None)
         (dumps payload_null_name) empty_world)
  = Raise (TypeError (py "expected str, bytes or os.PathLike object, not NoneType")).
Proof. vm_compute. reflexivity. Qed.

(** C10, amended: for every decoded payload whose [content] is absent,
    empty or made of backticks only, and whose [output_name] is absent or
    a string, [run_ai_command] returns ["No command to execute."]; it
    starts no process and creates or empties no file (it only logs the
    reason). *)
Theorem run_ai_command_without_command (E : Env) (s : pystr)
    (kv : list (pystr * json)) (name : pystr) (w : World) :
  json_loads E s = Ok (JObject kv) ->
  (dict_lookup kv (py "content") = None
   \/ exists c, dict_lookup kv (py "content") = Some (JStr c)
               /\ Forall (fun x => x = 96) c) ->
  (dict_lookup kv (py "output_name") = None
   \/ dict_lookup kv (py "output_name") = Some (JStr name)) ->
  let r := run_ai_command E s w in
  fst r = Ok (py "No command to execute.")
  /\ fs (snd r) = fs w
  /\ children (snd r) = children w
  /\ executable (snd r) = executable w.
Proof.
  intros Hl Hc Hn r. unfold r.
  rewrite (run_ai_command_no_command E s kv w Hl name); [|  |exact Hn].
  - repeat split.
  - destruct Hc as [Hc|(c & Hc & Hb)]; [now left|right].
    exists c. split; [exact Hc|]. now apply strip_backticks_only.
Qed.

(** C10 at work: a payload whose content is three backticks. *)
Lemma run_ai_command_without_command_witness :
  fst (run_ai_command
         (example_env [command_payload (py "```")] no_such_file no_filter None)
         (dumps (command_payload (py "```"))) empty_world)
  = Ok (py "No command to execute.").
Proof.
  apply (run_ai_command_without_command
           (example_env [command_payload (py "```")] no_such_file no_filter None)
           (dumps (command_payload (py "```")))
           [ (py "type", JStr (py "command")); (py "content", JStr (py "```"));
             (py "reason", JStr (py "test")); (py "continue", JBool true) ]
           [] empty_world).
  - vm_compute. reflexivity.
  - right. exists (py "```"). split; [reflexivity|].
    repeat constructor.
  - left. reflexivity.
Defined.

(** C4, as stated, fails: a command on the denylist and a program that
    cannot be started give the caller the same outcome. [run_command]
    returns [False] for both, and [run_ai_command] the same error text
    around the command. *)
Lemma blocked_looks_like_failure :
  validate_command (py "rm -rf /") = false
  /\ validate_command (py "nosuchprogram") = true
  /\ fst (run_command refusing_env (py "rm -rf /") (py "out.txt") None
            empty_world)
     = fst (run_command refusing_env (py "nosuchprogram") (py "out.txt") None
              empty_world)
  /\ fst (run_ai_command refusing_env (dumps (command_payload (py "rm -rf /")))
            empty_world)
     = Ok (py "Error executing command: " ++ py "rm -rf /")
  /\ fst (run_ai_command refusing_env
            (dumps (command_payload (py "nosuchprogram"))) empty_world)
     = Ok (py "Error executing command: " ++ py "nosuchprogram").
Proof. vm_compute. repeat split. Qed.

(** C4, amended: a command in which a denylisted pattern is found is
    refused: [run_command] returns [False], logs that the command was
    blocked, opens no file and starts no process. The caller gets no
    outcome of its own for this: whenever [run_command] returns [False],
    for a blocked command as for a program that cannot be started or does
    not end in time, [run_ai_command] returns the text
    ["Error executing command: "] and the command. *)
Theorem blocked_command_refused (E : Env) (w : World) :
  (forall command output_path cwd,
      (exists p, In p dangerous_patterns /\ Found true p command) ->
      let r := run_command E command output_path cwd w in
      fst r = Ok false
      /\ fs (snd r) = fs w
      /\ children (snd r) = children w
      /\ log (snd r) = log w ++ [blocked_line command])
  /\ (forall s kv c command n,
        json_loads E s = Ok (JObject kv) ->
        dict_lookup kv (py "content") = Some (JStr c) ->
        strip_chars (py "`") c = command ->
        command <> [] ->
        sanitize_value E (field kv (py "output_name") (JStr (py "output.txt")))
        = Ok n ->
        fst (run_command E command (py "command_outputs/" ++ n) None
               (add_log [reason_line kv; executing_line command n] w))
        = Ok false ->
        fst (run_ai_command E s w)
        = Ok (py "Error executing command: " ++ command)).
Proof.
  split.
  - intros command output_path cwd Hfound r. unfold r.
    assert (Hv : validate_command command = false) by now apply validate_loop_spec.
    rewrite (run_command_blocked E command output_path cwd w Hv).
    repeat split.
  - intros s kv c command n Hl Hc Hs Hne Hn Hfail.
    rewrite (run_ai_command_failed E s kv w Hl c command n Hc Hs Hne Hn Hfail).
    reflexivity.
Qed.

(** C4 at work: [rm -rf /]. *)
Lemma blocked_command_refused_witness :
  fst (run_command (example_env [] (prints [] 0) no_filter None)
         (py "rm -rf /") (py "out.txt") None empty_world) = Ok false.
Proof.
  refine (proj1 (proj1 (blocked_command_refused
                          (example_env [] (prints [] 0) no_filter None)
                          empty_world)
                   (py "rm -rf /") (py "out.txt") None _)).
  exists (seq [lits (py "rm"); ws_plus; lits (py "-rf")]).
  split; [left; reflexivity|].
  apply search_spec. vm_compute. reflexivity.
Defined.

(** ** The response validator *)

Section Validator.

Variable E : Env.

(** The loop over the required fields stops at the first one missing. *)
Lemma check_required_dict kv required w :
  check_required (JObject kv) required w
  = match List.find (fun f => negb (has_key kv f)) required with
    | Some f => (Ok false, add_log [missing_line f] w)
    | None => (Ok true, w)
    end.
Proof.
  induction required as [|f rest IH]; simpl; [reflexivity|].
  unfold bind, lift, has_key. simpl.
  destruct (dict_lookup kv f); simpl; [exact IH|reflexivity].
Qed.

Lemma validate_response_total response w :
  exists b, fst (validate_response E response w) = Ok b.
Proof.
  unfold validate_response, try_except.
  destruct (validate_body E response w) as [[b|e] w']; simpl.
  - now exists b.
  - destruct (is_json_error e); now exists false.
Qed.

(** Whatever ends the body early, by [return False] or by an exception,
    the answer is [False]. *)
Lemma validate_response_rejects response w :
  fst (validate_body E response w) <> Ok true ->
  fst (validate_response E response w) = Ok false.
Proof.
  unfold validate_response, try_except.
  destruct (validate_body E response w) as [[[]|e] w']; simpl.
  - congruence.
  - reflexivity.
  - destruct (is_json_error e); reflexivity.
Qed.

Lemma validate_body_not_json response w e :
  json_loads E (clean_ai_response response) = Raise e ->
  fst (validate_body E response w) <> Ok true.
Proof.
  intros H. unfold validate_body, bind, lift. rewrite H. simpl. discriminate.
Qed.

Lemma py_getitem_dict kv key v :
  dict_lookup kv key = Some v -> py_getitem (JObject kv) key = Ok v.
Proof. intros H. unfold py_getitem. now rewrite H. Qed.

Lemma py_in_dict kv key : py_in key (JObject kv) = Ok (has_key kv key).
Proof. reflexivity. Qed.

(** The checks of a script, on a dictionary with a type. They log only
    when they fail. *)
Lemma check_script_dict kv ty w :
  dict_lookup kv (py "type") = Some ty ->
  exists w',
    check_script (JObject kv) w
    = (Ok (negb (eq_str ty (py "script"))
           || (script_type_ok kv && has_key kv (py "script_name"))), w')
    /\ (negb (eq_str ty (py "script"))
        || (script_type_ok kv && has_key kv (py "script_name")) = true ->
        w' = w).
Proof.
  intros Ety. unfold check_script, script_type_ok.
  rewrite bind_run. unfold lift at 1. rewrite (py_getitem_dict _ _ _ Ety).
  destruct (eq_str ty (py "script")); [|eexists; split; reflexivity].
  rewrite bind_run. unfold lift at 1. rewrite py_in_dict. unfold has_key.
  destruct (dict_lookup kv (py "script_type")) as [st|] eqn:Est.
  - cbn [negb]. rewrite bind_run, bind_run. unfold lift at 1.
    rewrite (py_getitem_dict _ _ _ Est). cbn [ret].
    destruct (in_strs st [py "bash"; py "python"]); cbn [negb].
    + rewrite bind_run. unfold lift at 1. rewrite py_in_dict. unfold has_key.
      destruct (dict_lookup kv (py "script_name")); eexists;
        (split; [reflexivity|]); simpl; congruence.
    + eexists; split; [reflexivity|]. simpl; congruence.
  - eexists; split; [reflexivity|]. simpl; congruence.
Qed.

(** What a dictionary that passes has: the four fields, a known type,
    and for a script a known script type and a script name. *)
Lemma validate_body_dict response w kv :
  json_loads E (clean_ai_response response) = Ok (JObject kv) ->
  fst (validate_body E response w) = Ok true ->
  forallb (has_key kv) required_fields = true
  /\ (exists ty, dict_lookup kv (py "type") = Some ty
                /\ in_strs ty [py "command"; py "script"] = true
                /\ (eq_str ty (py "script") = true ->
                    script_type_ok kv = true
                    /\ has_key kv (py "script_name") = true)).
Proof.
  intros Hl. unfold validate_body. cbn [bind lift]. rewrite Hl.
  cbn [bind lift]. rewrite bind_run, check_required_dict.
  destruct (List.find _ required_fields) as [f|] eqn:Hfind; [simpl; discriminate|].
  assert (Hall : forallb (has_key kv) required_fields = true).
  { apply forallb_forall. intros f Hf.
    pose proof (find_none _ _ Hfind f Hf) as Hn. simpl in Hn.
    now apply negb_false_iff in Hn. }
  assert (Hty : has_key kv (py "type") = true).
  { rewrite forallb_forall in Hall. apply Hall. left. reflexivity. }
  unfold has_key in Hty.
  destruct (dict_lookup kv (py "type")) as [ty|] eqn:Ety; [|discriminate].
  cbn [negb]. rewrite bind_run. unfold lift at 1. rewrite (py_getitem_dict _ _ _ Ety).
  destruct (in_strs ty [py "command"; py "script"]) eqn:Hin; [|simpl; discriminate].
  cbn [negb]. rewrite bind_run.
  destruct (check_script_dict kv ty w Ety) as (w' & -> & _).
  intros H. split; [exact Hall|]. exists ty. split; [reflexivity|]. split; [exact Hin|].
  intros Hs. rewrite Hs in H. cbn [negb orb] in H.
  destruct (script_type_ok kv && has_key kv (py "script_name")) eqn:Hb.
  - now apply andb_true_iff in Hb.
  - simpl in H. discriminate.
Qed.

(** A dictionary with all of that, and no knowledge reference, passes,
    and nothing is logged. *)
Lemma validate_response_accepts response w kv ty :
  json_loads E (clean_ai_response response) = Ok (JObject kv) ->
  forallb (has_key kv) required_fields = true ->
  dict_lookup kv (py "type") = Some ty ->
  in_strs ty [py "command"; py "script"] = true ->
  (eq_str ty (py "script") = true ->
   script_type_ok kv = true /\ has_key kv (py "script_name") = true) ->
  has_key kv (py "knowledge_ref") = false ->
  validate_response E response w = (Ok true, w).
Proof.
  intros Hl Hall Ety Hin Hscript Hkr.
  unfold validate_response, try_except, validate_body.
  rewrite bind_run. unfold lift at 1. rewrite Hl.
  rewrite bind_run, check_required_dict.
  destruct (List.find _ required_fields) as [f|] eqn:Hfind.
  { apply find_some in Hfind as [Hf Hn]. rewrite forallb_forall in Hall.
    rewrite (Hall f Hf) in Hn. discriminate. }
  cbn [negb]. rewrite bind_run. unfold lift at 1. rewrite (py_getitem_dict _ _ _ Ety).
  rewrite Hin. cbn [negb]. rewrite bind_run.
  destruct (check_script_dict kv ty w Ety) as (w' & -> & Hw).
  assert (Hok : negb (eq_str ty (py "script"))
                || (script_type_ok kv && has_key kv (py "script_name")) = true).
  { destruct (eq_str ty (py "script")); [|reflexivity].
    destruct (Hscript eq_refl) as [-> ->]. reflexivity. }
  rewrite Hok, (Hw Hok). cbn [negb].
  rewrite bind_run. unfold check_knowledge.
  rewrite bind_run. unfold lift at 1. rewrite py_in_dict, Hkr.
  reflexivity.
Qed.

(** The first missing field is the one the log names. *)
Lemma validate_response_missing_log response w kv f :
  json_loads E (clean_ai_response response) = Ok (JObject kv) ->
  List.find (fun f => negb (has_key kv f)) required_fields = Some f ->
  validate_response E response w = (Ok false, add_log [missing_line f] w).
Proof.
  intros Hl Hf. unfold validate_response, try_except, validate_body.
  cbn [bind lift]. rewrite Hl. cbn [bind lift].
  rewrite bind_run, check_required_dict, Hf. reflexivity.
Qed.

(** What is not a dictionary never passes. *)
Lemma validate_body_not_dict response w data :
  json_loads E (clean_ai_response response) = Ok data ->
  (forall kv, data <> JObject kv) ->
  fst (validate_body E response w) <> Ok true.
Proof.
  intros Hl Hnd. unfold validate_body. cbn [bind lift]. rewrite Hl.
  cbn [bind lift]. rewrite bind_run.
  destruct (check_required data required_fields w) as [[[]|e] w']; cbn [negb];
    try (simpl; discriminate).
  rewrite bind_run. unfold lift at 1.
  destruct data; try (simpl; discriminate).
  exfalso. eapply Hnd. reflexivity.
Qed.

End Validator.

(** C5, as stated, fails in its last part: a script payload whose
    [script_name] is the empty string passes. Only the presence of the
    field is checked. *)
Lemma validate_response_empty_script_name :
  fst (validate_response
         (example_env [payload_empty_script_name] no_such_file no_filter None)
         (dumps payload_empty_script_name) empty_world)
  = Ok true.
Proof. vm_compute. reflexivity. Qed.

(** C5, amended: [validate_response] answers [False] for every payload
    that is not well-formed JSON or not a dictionary, for every
    dictionary that lacks one of [type], [content], [reason], [continue]
    (and the log names the first one missing), for every type that is
    neither [command] nor [script], and for every script whose
    [script_type] is absent or not one of [bash], [python], or whose
    [script_name] is absent. A dictionary that has all of that passes
    (here: when it gives no knowledge reference), whatever its
    [script_name] is: an empty one is not rejected. *)
Theorem validate_response_checks (E : Env) (response : pystr) (w : World) :
  (forall e, json_loads E (clean_ai_response response) = Raise e ->
             fst (validate_response E response w) = Ok false)
  /\ (forall data, json_loads E (clean_ai_response response) = Ok data ->
                   (forall kv, data <> JObject kv) ->
                   fst (validate_response E response w) = Ok false)
  /\ (forall kv, json_loads E (clean_ai_response response) = Ok (JObject kv) ->
        ((exists f, In f required_fields /\ dict_lookup kv f = None)
         \/ (exists ty, dict_lookup kv (py "type") = Some ty
                        /\ in_strs ty [py "command"; py "script"] = false)
         \/ (dict_lookup kv (py "type") = Some (JStr (py "script"))
             /\ script_type_ok kv = false)
         \/ (dict_lookup kv (py "type") = Some (JStr (py "script"))
             /\ dict_lookup kv (py "script_name") = None)) ->
        fst (validate_response E response w) = Ok false)
  /\ (forall kv f, json_loads E (clean_ai_response response) = Ok (JObject kv) ->
        List.find (fun f => negb (has_key kv f)) required_fields = Some f ->
        log (snd (validate_response E response w)) = log w ++ [missing_line f])
  /\ (forall kv ty, json_loads E (clean_ai_response response) = Ok (JObject kv) ->
        forallb (has_key kv) required_fields = true ->
        dict_lookup kv (py "type") = Some ty ->
        in_strs ty [py "command"; py "script"] = true ->
        (eq_str ty (py "script") = true ->
         script_type_ok kv = true /\ has_key kv (py "script_name") = true) ->
        has_key kv (py "knowledge_ref") = false ->
        fst (validate_response E response w) = Ok true).
Proof.
  split; [|split; [|split; [|split]]].
  - intros e Hl. eapply validate_response_rejects, validate_body_not_json, Hl.
  - intros data Hl Hnd.
    eapply validate_response_rejects, validate_body_not_dict; eassumption.
  - intros kv Hl Hbad. apply validate_response_rejects. intros Hok.
    destruct (validate_body_dict E response w kv Hl Hok)
      as (Hall & ty & Hty & Hin & Hscript).
    destruct Hbad as [(f & Hf & Hnone)|[(ty' & Hty' & Hin')|[[Hty' Hst]|[Hty' Hsn]]]].
    + rewrite forallb_forall in Hall. specialize (Hall f Hf).
      unfold has_key in Hall. rewrite Hnone in Hall. discriminate.
    + congruence.
    + assert (ty = JStr (py "script")) as -> by congruence.
      destruct (Hscript eq_refl) as [Hok' _]. congruence.
    + assert (ty = JStr (py "script")) as -> by congruence.
      destruct (Hscript eq_refl) as [_ Hok']. unfold has_key in Hok'.
      rewrite Hsn in Hok'. discriminate.
  - intros kv f Hl Hf.
    rewrite (validate_response_missing_log E response w kv f Hl Hf). reflexivity.
  - intros kv ty Hl Hall Hty Hin Hscript Hkr.
    rewrite (validate_response_accepts E response w kv ty); auto.
Qed.

(** C5 at work: a command payload with a type, a reason and a continue
    flag, and no content. *)
Lemma validate_response_checks_witness :
  fst (validate_response
         (example_env [payload_no_content] no_such_file no_filter None)
         (dumps payload_no_content) empty_world) = Ok false
  /\ log (snd (validate_response
                 (example_env [payload_no_content] no_such_file no_filter None)
                 (dumps payload_no_content) empty_world))
     = [missing_line (py "content")].
Proof.
  split.
  - apply (proj1 (proj2 (proj2
             (validate_response_checks
                (example_env [payload_no_content] no_such_file no_filter None)
                (dumps payload_no_content) empty_world)))
             [ (py "type", JStr (py "command")); (py "reason", JStr (py "test"));
               (py "continue", JBool true) ]).
    + vm_compute. reflexivity.
    + left. exists (py "content"). split; [|reflexivity].
      right; left; reflexivity.
  - apply (proj1 (proj2 (proj2 (proj2
             (validate_response_checks
                (example_env [payload_no_content] no_such_file no_filter None)
                (dumps payload_no_content) empty_world))))
             [ (py "type", JStr (py "command")); (py "reason", JStr (py "test"));
               (py "continue", JBool true) ] (py "content")).
    + vm_compute. reflexivity.
    + vm_compute. reflexivity.
Defined.

(** ** The control loop *)

Section Loop.

Variable E : Env.

Lemma execute_ai_command_total reply w :
  exists out w', execute_ai_command E reply w = (Ok out, w').
Proof.
  unfold execute_ai_command, try_except.
  match goal with |- context [match ?m w with _ => _ end] => destruct (m w) as [[out|e] w'] end.
  - now exists out, w'.
  - eexists _, _. reflexivity.
Qed.

Lemma wants_stop_total reply w :
  exists b w', wants_stop E reply w = (Ok b, w').
Proof.
  unfold wants_stop, try_except.
  match goal with |- context [match ?m w with _ => _ end] => destruct (m w) as [[b|e] w'] end.
  - now exists b, w'.
  - eexists _, _. reflexivity.
Qed.

(** The rest of a pass, from what its two calls return. *)
Lemma act_run self reply w :
  act E self reply w
  = match execute_ai_command E reply w with
    | (Ok (Some out), w1) =>
        match wants_stop E reply (add_log [output_line out] w1) with
        | (Ok true, w2) => (Ok (self, Break), w2)
        | (Ok false, w2) => (Ok (fold_output self out, Next), w2)
        | (Raise e, w2) => (Raise e, w2)
        end
    | (Ok None, w1) =>
        (Ok (self, Break),
         add_log [{| lvl := ERROR;
                     msg := [Txt (py "Command execution failed, stopping")] |}] w1)
    | (Raise e, w1) => (Raise e, w1)
    end.
Proof.
  unfold act. rewrite bind_run.
  destruct (execute_ai_command E reply w) as [[[out|]|e] w1]; try reflexivity.
  rewrite bind_run. unfold logger at 1. rewrite bind_run. fold (output_line out).
  destruct (wants_stop E reply (add_log [output_line out] w1)) as [[[]|e] w2];
    reflexivity.
Qed.

(** A pass that reaches [act] stops the loop only when
    [execute_ai_command] returns [None] or the reply asks to stop; else
    the output is folded into the context. *)
Lemma act_cases self reply w :
  exists w',
    (act E self reply w = (Ok (self, Break), w')
     /\ (fst (execute_ai_command E reply w) = Ok None
         \/ exists w1, wants_stop E reply w1 = (Ok true, w')))
    \/ (exists out, fst (execute_ai_command E reply w) = Ok (Some out)
                    /\ act E self reply w = (Ok (fold_output self out, Next), w')).
Proof.
  rewrite act_run.
  destruct (execute_ai_command_total reply w) as (out & w1 & Hx). rewrite Hx.
  destruct out as [out|].
  - destruct (wants_stop_total reply (add_log [output_line out] w1))
      as (b & w2 & Hs). rewrite Hs.
    exists w2. destruct b.
    + left. split; [reflexivity|]. right. eexists. exact Hs.
    + right. exists out. split; reflexivity.
  - eexists. left. split; [reflexivity|]. left. reflexivity.
Qed.

Lemma save_history_total w :
  exists w', save_history E w = (Ok tt, w').
Proof.
  unfold save_history, try_except.
  match goal with |- context [match ?m w with _ => _ end] =>
    destruct (m w) as [[[]|e] w'] end; eexists; reflexivity.
Qed.

Lemma ai_chat_total prompt w :
  exists r w', ai_chat E prompt w = (Ok r, w').
Proof.
  unfold ai_chat. destruct (chat E w prompt) as [text| |e].
  - rewrite bind_run.
    match goal with |- context [save_history E ?w0] =>
      destruct (save_history_total w0) as [w' ->] end.
    eexists _, _. reflexivity.
  - eexists _, _. reflexivity.
  - eexists _, _. reflexivity.
Qed.

Lemma consult_total self w :
  exists r w', consult E self w = (Ok r, w').
Proof.
  unfold consult. rewrite bind_run. unfold logger at 1.
  rewrite bind_run. unfold get_world at 1.
  rewrite bind_run. unfold logger at 1.
  apply ai_chat_total.
Qed.

(** A pass never raises; it adds one to the counter and leaves the cap. *)
Lemma loop_body_total self w :
  exists self' fl w',
    loop_body E self w = (Ok (self', fl), w')
    /\ iteration self' = S (iteration self)
    /\ max_iterations self' = max_iterations self.
Proof.
  unfold loop_body. rewrite bind_run.
  destruct (consult_total (bump self) w) as (r & w1 & ->).
  destruct r as [[|c reply]|].
  - eexists _, _, _. split; [reflexivity|]. split; reflexivity.
  - destruct (act_cases (bump self) (c :: reply) w1)
      as (w' & [[-> _]|(out & _ & ->)]);
      eexists _, _, _; (split; [reflexivity|]); split; reflexivity.
  - eexists _, _, _. split; [reflexivity|]. split; reflexivity.
Qed.


(** The loop, given fuel for the passes that are left: it ends by itself,
    after at most that many passes, each of which adds one to the
    counter. *)
Lemma while_loop_bounded fuel self w :
  (max_iterations self - iteration self <= fuel)%nat ->
  exists final how passes w',
    while_loop E fuel self w = (Ok (final, how, passes), w')
    /\ how <> OutOfFuel
    /\ (length passes <= max_iterations self - iteration self)%nat
    /\ iteration final = (iteration self + length passes)%nat
    /\ max_iterations final = max_iterations self
    /\ (forall i p, passes !! i = Some p ->
                    iteration (fst p) = (iteration self + S i)%nat).
Proof.
  revert self w. induction fuel as [|fuel IH]; intros self w Hfuel.
  - simpl. destruct (Nat.ltb_spec (iteration self) (max_iterations self)); [lia|].
    eexists _, _, _, _. split; [reflexivity|]. simpl.
    repeat split; try discriminate; try lia.
  - simpl. destruct (Nat.ltb_spec (iteration self) (max_iterations self)) as [Hlt|Hge].
    + rewrite bind_run.
      destruct (loop_body_total self w) as (self' & fl & w1 & -> & Hit & Hmax).
      destruct fl; cbn [fst snd].
      * rewrite bind_run.
        destruct (IH self' w1 ltac:(lia))
          as (final & how & passes & w' & -> & Hhow & Hlen & Hfin & Hm & Hidx).
        eexists _, _, _, _. split; [reflexivity|]. simpl length.
        repeat split; try assumption; try lia.
        intros [|i] p Hp; simpl in Hp.
        -- injection Hp as <-. simpl. lia.
        -- rewrite (Hidx i p Hp). lia.
      * eexists _, _, _, _. split; [reflexivity|]. simpl.
        repeat split; try discriminate; try lia.
        intros [|i] p Hp; simpl in Hp; [|discriminate].
        injection Hp as <-. simpl. lia.
    + eexists _, _, _, _. split; [reflexivity|]. simpl.
      repeat split; try discriminate; try lia.
Qed.



End Loop.





(** ** A failed execution and the loop *)

Section FailedTurn.

Variable E : Env.
Variables (reply : pystr) (kv : list (pystr * json)).
Hypothesis Hloads : json_loads E (clean_ai_response reply) = Ok (JObject kv).

(** A validated command payload is handed to [run_ai_command], and what
    that returns is handed back. *)
Lemma execute_command_payload w w1 out w2 :
  validate_response E (clean_ai_response reply) w = (Ok true, w1) ->
  dict_lookup kv (py "type") = Some (JStr (py "command")) ->
  run_ai_command E (clean_ai_response reply) (add_log [type_line kv; vuln_line kv] w1)
  = (Ok out, w2) ->
  execute_ai_command E reply w = (Ok (Some out), w2).
Proof.
  intros Hv Hty Hrun. unfold execute_ai_command, try_except.
  rewrite bind_run, Hv. cbn [negb]. rewrite bind_run. unfold lift at 1. rewrite Hloads.
  rewrite bind_run. unfold lift at 1. rewrite py_get_field.
  rewrite bind_run. unfold lift at 1. rewrite py_get_field.
  rewrite bind_run. unfold logger at 1.
  rewrite bind_run. unfold lift at 1. rewrite py_get_field.
  rewrite bind_run. unfold logger at 1.
  assert (Hf : eq_str (field kv (py "type") JNull) (py "command") = true).
  { unfold field. now rewrite Hty. }
  rewrite Hf. rewrite bind_run.
  rewrite add_log_add_log. fold (type_line kv) (vuln_line kv).
  cbn [app]. rewrite Hrun. reflexivity.
Qed.

(** A reply whose [continue] is true, or absent, does not ask to stop. *)
Lemma wants_stop_continue w :
  truthy (field kv (py "continue") (JBool true)) = true ->
  wants_stop E reply w = (Ok false, w).
Proof.
  intros Hc. unfold wants_stop, try_except.
  rewrite bind_run. unfold lift at 1. rewrite Hloads.
  rewrite bind_run. unfold lift at 1. rewrite py_get_field, Hc. reflexivity.
Qed.

End FailedTurn.

(** C2, as stated, fails: the program of the reply cannot be started in
    any pass, and the run goes through all fifty. The error text is folded
    into the context each time and no pass breaks the loop. *)
Lemma run_goes_on_after_failure :
  (forall w, fst (run_command unstartable_env (py "nosuchprogram -x")
                    (py "command_outputs/output.txt") None w) = Ok false)
  /\ run_summary (run unstartable_env new_automation (py "example.com") []
                    empty_world)
     = Some (50%nat, repeat Next 50, 0%nat).
Proof.
  split.
  - intros w.
    destruct (run_command_opened unstartable_env (py "nosuchprogram -x")
                (py "command_outputs/output.txt") None w)
      as (w' & -> & _); reflexivity.
  - vm_compute. reflexivity.
Qed.

(** C2, amended: a pass in which the oracle's reply is a valid command
    payload with a true (or no) [continue] and in which [run_command]
    fails does not end the run: [run_ai_command] returns the text
    ["Error executing command: "] and the command, not [None], and the
    loop folds that text into the context and goes on to the next pass.
    A pass breaks the loop only when [execute_ai_command] returns [None]
    or the reply asks to stop. *)
Theorem failed_turn_goes_on (E : Env) (self : PentestAutomation) (w : World) :
  (forall reply kv c command n w1 w2,
      consult E (bump self) w = (Ok (Some reply), w1) ->
      reply <> [] ->
      json_loads E (clean_ai_response reply) = Ok (JObject kv) ->
      validate_response E (clean_ai_response reply) w1 = (Ok true, w2) ->
      dict_lookup kv (py "type") = Some (JStr (py "command")) ->
      dict_lookup kv (py "content") = Some (JStr c) ->
      strip_chars (py "`") c = command ->
      command <> [] ->
      sanitize_value E (field kv (py "output_name") (JStr (py "output.txt")))
      = Ok n ->
      truthy (field kv (py "continue") (JBool true)) = true ->
      fst (run_command E command (py "command_outputs/" ++ n) None
             (add_log [reason_line kv; executing_line command n]
                (add_log [type_line kv; vuln_line kv] w2))) = Ok false ->
      exists w',
        loop_body E self w
        = (Ok (fold_output (bump self)
                 (py "Error executing command: " ++ command), Next), w'))
  /\ (forall self' w',
        loop_body E self w = (Ok (self', Break), w') ->
        exists reply w1,
          consult E (bump self) w = (Ok (Some reply), w1)
          /\ (fst (execute_ai_command E reply w1) = Ok None
              \/ exists w2, wants_stop E reply w2 = (Ok true, w'))).
Proof.
  split.
  - intros reply kv c command n w1 w2
      Hconsult Hreply Hl Hv Hty Hc Hs Hne Hn Hcont Hfail.
    unfold loop_body. rewrite bind_run, Hconsult.
    destruct reply as [|x reply']; [congruence|].
    rewrite act_run.
    rewrite (execute_command_payload E _ kv Hl w1 w2 _ _ Hv Hty
               (run_ai_command_failed E _ kv _ Hl c command n Hc Hs Hne Hn Hfail)).
    rewrite (wants_stop_continue E _ kv Hl _ Hcont).
    eexists. reflexivity.
  - intros self' w'. unfold loop_body. rewrite bind_run.
    destruct (consult_total E (bump self) w) as (r & w1 & Hc). rewrite Hc.
    destruct r as [[|x reply]|]; try discriminate.
    intros Hact. exists (x :: reply), w1. split; [reflexivity|].
    destruct (act_cases E (bump self) (x :: reply) w1)
      as (w'' & [[Hb Hwhy]|(out & _ & Hn)]).
    + rewrite Hb in Hact. injection Hact as _ <-. exact Hwhy.
    + rewrite Hn in Hact. discriminate.
Qed.

(** C2 at work: the first pass on the machine of the counterexample. *)
Lemma failed_turn_goes_on_witness :
  exists w',
    loop_body unstartable_env fresh_run empty_world
    = (Ok (fold_output (bump fresh_run)
             (py "Error executing command: " ++ py "nosuchprogram -x"), Next), w').
Proof.
  refine (proj1 (failed_turn_goes_on unstartable_env fresh_run empty_world)
            (dumps unstartable)
            [ (py "type", JStr (py "command"));
              (py "content", JStr (py "nosuchprogram -x"));
              (py "reason", JStr (py "test"));
              (py "continue", JBool true) ]
            (py "nosuchprogram -x") (py "nosuchprogram -x") (py "output.txt")
            (snd (consult unstartable_env (bump fresh_run) empty_world))
            (snd (consult unstartable_env (bump fresh_run) empty_world))
            _ _ _ _ _ _ _ _ _ _ _);
    try (vm_compute; reflexivity); try discriminate.
Defined.

(** * Further properties *)

(** ** More on the sanitizer *)

Section SanitizerMore.

Variable hi : N -> bool.

Lemma rfind_from_absent ch s i found :
  ch ∉ s -> rfind_from ch s i found = found.
Proof.
  revert i found. induction s as [|c s IH]; intros i found Hs; simpl; [reflexivity|].
  apply not_elem_of_cons in Hs as [Hc Hs].
  destruct (N.eqb_spec c ch) as [->|_]; [congruence|]. now apply IH.
Qed.

Lemma rfind_from_app ch a b i found :
  rfind_from ch (a ++ b) i found
  = rfind_from ch b (i + Z.of_nat (length a))%Z (rfind_from ch a i found).
Proof.
  revert i found. induction a as [|c a IH]; intros i found; simpl.
  - f_equal. lia.
  - rewrite IH. f_equal. lia.
Qed.

Lemma basename_plain s : 47 ∉ s -> basename s = s.
Proof.
  intros Hs. unfold basename, rfind, slice_from.
  rewrite rfind_from_absent by exact Hs. reflexivity.
Qed.

Lemma basename_after_sep d n : 47 ∉ n -> basename (d ++ 47 :: n) = n.
Proof.
  intros Hn. unfold basename, rfind, slice_from.
  rewrite rfind_from_app. simpl rfind_from.
  rewrite rfind_from_absent by exact Hn.
  replace (Z.to_nat (0 + Z.of_nat (length d) + 1)) with (length d + 1)%nat by lia.
  rewrite drop_app_add'; [|reflexivity]. reflexivity.
Qed.

Lemma sep_not_kept : sanitize_keeps hi 47 = false.
Proof. reflexivity. Qed.

Lemma sub_unsafe_kept s :
  Forall (fun c => sanitize_keeps hi c = true) s -> sub_unsafe hi s = s.
Proof.
  induction 1 as [|c s Hc _ IH]; simpl; [reflexivity|].
  rewrite Hc. f_equal. exact IH.
Qed.

Lemma sub_unsafe_all_kept s :
  Forall (fun c => sanitize_keeps hi c = true) (sub_unsafe hi s).
Proof.
  apply Forall_forall. intros c Hc. now apply (sub_unsafe_keeps hi s).
Qed.

Lemma kept_no_sep s :
  Forall (fun c => sanitize_keeps hi c = true) s -> 47 ∉ s.
Proof.
  intros H Hin. rewrite Forall_forall in H. apply H in Hin.
  rewrite sep_not_kept in Hin. discriminate.
Qed.

Lemma sanitize_filename_fixed f :
  Forall (fun c => sanitize_keeps hi c = true) f -> (length f <= 100)%nat ->
  sanitize_filename hi f = f.
Proof.
  intros Hk Hl. unfold sanitize_filename, slice_to.
  rewrite basename_plain by now apply kept_no_sep.
  rewrite sub_unsafe_kept by exact Hk.
  now apply take_ge.
Qed.

Lemma sanitize_filename_kept f :
  Forall (fun c => sanitize_keeps hi c = true) (sanitize_filename hi f)
  /\ (length (sanitize_filename hi f) <= 100)%nat.
Proof.
  unfold sanitize_filename, slice_to. split.
  - apply Forall_take, sub_unsafe_all_kept.
  - rewrite length_take. lia.
Qed.

End SanitizerMore.

(** X1: sanitizing twice is sanitizing once. *)
Theorem sanitize_filename_idempotent (hi : N -> bool) (filename : pystr) :
  sanitize_filename hi (sanitize_filename hi filename)
  = sanitize_filename hi filename.
Proof.
  destruct (sanitize_filename_kept hi filename) as [Hk Hl].
  now apply sanitize_filename_fixed.
Qed.

(** X2: the names the sanitizer returns unchanged are exactly those of at
    most 100 characters, all of them word characters, dots or hyphens. *)
Theorem sanitize_filename_unchanged_iff (hi : N -> bool) (filename : pystr) :
  sanitize_filename hi filename = filename
  <-> Forall (fun c => sanitize_keeps hi c = true) filename
      /\ (length filename <= 100)%nat.
Proof.
  split.
  - intros H. rewrite <- H. apply sanitize_filename_kept.
  - intros [Hk Hl]. now apply sanitize_filename_fixed.
Qed.

(** X3: whatever comes before the last slash is dropped: a path sanitizes
    to what its last component sanitizes to, and a path that ends in a
    slash to the empty name. *)
Theorem sanitize_filename_drops_directories (hi : N -> bool)
    (directory name : pystr) :
  47 ∉ name ->
  sanitize_filename hi (directory ++ 47 :: name) = sanitize_filename hi name
  /\ sanitize_filename hi (directory ++ [47]) = [].
Proof.
  intros Hn. unfold sanitize_filename. split.
  - rewrite basename_after_sep by exact Hn.
    rewrite basename_plain by exact Hn. reflexivity.
  - rewrite (basename_after_sep directory []); [reflexivity|]. apply not_elem_of_nil.
Qed.

Lemma sanitize_filename_drops_directories_witness :
  sanitize_filename (fun _ => false) (py "../../etc" ++ 47 :: py "passwd")
  = sanitize_filename (fun _ => false) (py "passwd").
Proof.
  apply (sanitize_filename_drops_directories (fun _ => false)
           (py "../../etc") (py "passwd")).
  vm_compute. intros H. repeat (apply elem_of_cons in H as [H|H]; [discriminate|]).
  now apply elem_of_nil in H.
Defined.

(** ** More on the denylist *)

Lemma Found_inside ic r before s after :
  Found ic r s -> Found ic r (before ++ s ++ after).
Proof.
  intros (b & m & a & -> & H).
  exists (before ++ b), m, (a ++ after). split; [|exact H].
  now rewrite <- !app_assoc.
Qed.

(** X4: what is wrapped around a blocked command does not unblock it. *)
Theorem validate_command_blocks_inside (before command after : pystr) :
  validate_command command = false ->
  validate_command (before ++ command ++ after) = false.
Proof.
  intros H. apply validate_loop_spec in H as (p & Hp & Hf).
  apply validate_loop_spec. exists p. split; [exact Hp|].
  now apply Found_inside.
Qed.

Lemma validate_command_blocks_inside_witness :
  validate_command (py "cd /tmp; " ++ py "rm -rf ." ++ py " # tidy up") = false.
Proof.
  apply (validate_command_blocks_inside (py "cd /tmp; ") (py "rm -rf .")
           (py " # tidy up")).
  vm_compute. reflexivity.
Defined.

(** ** Stripping the fences *)

Lemma lstrip_by_idem p s : lstrip_by p (lstrip_by p s) = lstrip_by p s.
Proof.
  induction s as [|c s IH]; simpl; [reflexivity|].
  destruct (p c) eqn:Hc; [exact IH|]. simpl. now rewrite Hc.
Qed.

Lemma lstrip_by_suffix p s : exists skipped, s = skipped ++ lstrip_by p s.
Proof.
  induction s as [|c s [k IH]]; simpl.
  - now exists [].
  - destruct (p c).
    + exists (c :: k). simpl. now f_equal.
    + now exists [].
Qed.

Lemma lstrip_by_clean p s : clean_start p (lstrip_by p s).
Proof.
  induction s as [|c s IH]; simpl; [exact I|].
  destruct (p c) eqn:Hc; [exact IH|]. simpl. exact Hc.
Qed.

Lemma lstrip_by_id p s : clean_start p s -> lstrip_by p s = s.
Proof.
  destruct s as [|c s]; simpl; [reflexivity|]. now intros ->.
Qed.

Lemma clean_start_rev_suffix p k t :
  clean_start p (rev (k ++ t)) -> clean_start p (rev t).
Proof.
  rewrite rev_app_distr. destruct (rev t) as [|c u]; simpl; [reflexivity|auto].
Qed.

Lemma strip_by_clean p s :
  clean_start p (strip_by p s) /\ clean_start p (rev (strip_by p s)).
Proof.
  unfold strip_by, rstrip_by. rewrite rev_involutive. split.
  - destruct (lstrip_by_suffix p (rev (lstrip_by p s))) as [k Hk].
    apply (clean_start_rev_suffix p k). rewrite <- Hk, rev_involutive.
    apply lstrip_by_clean.
  - apply lstrip_by_clean.
Qed.

Lemma strip_by_id p s :
  clean_start p s -> clean_start p (rev s) -> strip_by p s = s.
Proof.
  intros H1 H2. unfold strip_by, rstrip_by.
  rewrite (lstrip_by_id p s H1), (lstrip_by_id p (rev s) H2).
  apply rev_involutive.
Qed.

Lemma strip_by_idem p s : strip_by p (strip_by p s) = strip_by p s.
Proof. destruct (strip_by_clean p s). now apply strip_by_id. Qed.

Lemma lstrip_by_app p s u :
  lstrip_by p (s ++ u)
  = match lstrip_by p s with
    | [] => lstrip_by p u
    | _ => lstrip_by p s ++ u
    end.
Proof.
  induction s as [|c s IH]; simpl; [reflexivity|].
  destruct (p c); [exact IH|reflexivity].
Qed.

Lemma strip_by_pad p a z s :
  p a = true -> p z = true -> strip_by p (a :: s ++ [z]) = strip_by p s.
Proof.
  intros Ha Hz. unfold strip_by, rstrip_by. simpl. rewrite Ha.
  rewrite lstrip_by_app. simpl. rewrite Hz.
  destruct (lstrip_by p s) as [|c t]; [reflexivity|].
  rewrite rev_app_distr. simpl. now rewrite Hz.
Qed.

Lemma elem_of_lstrip_by p s x : x ∈ lstrip_by p s -> x ∈ s.
Proof.
  destruct (lstrip_by_suffix p s) as [k Hk]. intros H.
  rewrite Hk. apply elem_of_app. now right.
Qed.

Lemma elem_of_strip_by p s x : x ∈ strip_by p s -> x ∈ s.
Proof.
  unfold strip_by, rstrip_by. intros H.
  apply list_elem_of_In, in_rev, list_elem_of_In in H.
  apply elem_of_lstrip_by, list_elem_of_In, in_rev, list_elem_of_In in H.
  now apply elem_of_lstrip_by in H.
Qed.

(** A stretch without backticks goes through the substitution as it is. *)
Lemma sub_fences_plain x rest bol :
  96 ∉ x ->
  sub_fences 0 bol (x ++ rest) = x ++ sub_fences 0 (ends_line bol x) rest.
Proof.
  revert bol. induction x as [|c x IH]; intros bol Hx; [reflexivity|].
  apply not_elem_of_cons in Hx as [Hc Hx].
  assert (Hs : forall t, startswith (c :: t) (py "```") = false).
  { intros t. change (py "```") with [96; 96; 96]. cbn [startswith].
    destruct (N.eqb_spec c 96); [congruence|reflexivity]. }
  change ((c :: x) ++ rest) with (c :: (x ++ rest)).
  cbn [sub_fences]. rewrite Hs, andb_false_r. cbn [andb].
  rewrite (IH _ Hx). simpl.
  replace (ends_line (c =? 10) x) with (ends_line bol (c :: x)); [reflexivity|].
  unfold ends_line. destruct x as [|c' x']; [reflexivity|].
  rewrite last_cons_cons.
  destruct (last (c' :: x')) eqn:El; [reflexivity|].
  apply last_None in El. discriminate.
Qed.

(** X5: a reply without backticks is only stripped of the white space
    around it. *)
Theorem clean_ai_response_plain (raw : pystr) :
  96 ∉ raw -> clean_ai_response raw = strip raw.
Proof.
  intros H. unfold clean_ai_response. destruct raw as [|c raw]; [reflexivity|].
  set (s := c :: raw) in *.
  assert (Hs : 96 ∉ strip s).
  { intros Hin. apply H. now apply (elem_of_strip_by isspace). }
  rewrite <- (app_nil_r (strip s)) at 1.
  rewrite sub_fences_plain by exact Hs. simpl. rewrite app_nil_r.
  apply strip_by_idem.
Qed.

Lemma clean_ai_response_plain_witness :
  clean_ai_response (py "  {}  ") = strip (py "  {}  ").
Proof.
  apply clean_ai_response_plain.
  vm_compute. intros H. repeat (apply elem_of_cons in H as [H|H]; [discriminate|]).
  now apply elem_of_nil in H.
Defined.

(** The closing fence: after a body without backticks, a line break and
    three backticks that end the text go. *)
Lemma fence_close x :
  96 ∉ x ->
  sub_fences 0 false (10 :: x ++ 10 :: py "```") = 10 :: x ++ [10].
Proof.
  intros Hx.
  assert (Hx' : 96 ∉ 10 :: x ++ [10]).
  { intros H. apply elem_of_cons in H as [H|H]; [discriminate|].
    apply elem_of_app in H as [H|H]; [contradiction|].
    apply list_elem_of_singleton in H. discriminate. }
  replace (10 :: x ++ 10 :: py "```") with ((10 :: x ++ [10]) ++ py "```")
    by (simpl; now rewrite <- app_assoc).
  rewrite sub_fences_plain by exact Hx'.
  unfold ends_line. rewrite last_cons, last_snoc.
  simpl. now rewrite app_nil_r.
Qed.

Lemma fenced_is_stripped pre x :
  clean_start isspace pre -> pre <> [] ->
  strip (pre ++ 10 :: x ++ 10 :: py "```") = pre ++ 10 :: x ++ 10 :: py "```".
Proof.
  intros Hp Hne. apply strip_by_id.
  - destruct pre; [congruence|exact Hp].
  - replace (pre ++ 10 :: x ++ 10 :: py "```")
      with ((pre ++ 10 :: x ++ [10]) ++ py "```")
      by (rewrite <- !app_assoc; simpl; now rewrite <- !app_assoc).
    rewrite rev_app_distr. reflexivity.
Qed.

(** X6: a body without backticks that comes between a line of three
    backticks, with or without [json] after them, and a closing line of
    three backticks, comes out of its fence, stripped. *)
Theorem clean_ai_response_unfences (body : pystr) :
  96 ∉ body ->
  clean_ai_response (py "```json" ++ 10 :: body ++ 10 :: py "```")
  = strip body
  /\ clean_ai_response (py "```" ++ 10 :: body ++ 10 :: py "```")
     = strip body.
Proof.
  intros Hb. split.
  - unfold clean_ai_response.
    rewrite fenced_is_stripped by (reflexivity || discriminate).
    change (py "```json" ++ 10 :: body ++ 10 :: py "```")
      with (96 :: 96 :: 96 :: 106 :: 115 :: 111 :: 110 :: 10 :: body ++ 10 :: py "```").
    cbv iota.
    change (sub_fences 0 true
              (96 :: 96 :: 96 :: 106 :: 115 :: 111 :: 110 :: 10 :: body ++ 10 :: py "```"))
      with (sub_fences 0 false (10 :: body ++ 10 :: py "```")).
    rewrite fence_close by exact Hb.
    change (10 :: body ++ [10]) with (10 :: body ++ [10]).
    now apply strip_by_pad.
  - unfold clean_ai_response.
    rewrite fenced_is_stripped by (reflexivity || discriminate).
    change (py "```" ++ 10 :: body ++ 10 :: py "```")
      with (96 :: 96 :: 96 :: 10 :: body ++ 10 :: py "```").
    cbv iota.
    change (sub_fences 0 true (96 :: 96 :: 96 :: 10 :: body ++ 10 :: py "```"))
      with (sub_fences 0 false (10 :: body ++ 10 :: py "```")).
    rewrite fence_close by exact Hb.
    now apply strip_by_pad.
Qed.

Lemma clean_ai_response_unfences_witness :
  clean_ai_response (py "```json" ++ 10 :: py "{}" ++ 10 :: py "```") = py "{}".
Proof.
  apply (clean_ai_response_unfences (py "{}")).
  vm_compute. intros H. repeat (apply elem_of_cons in H as [H|H]; [discriminate|]).
  now apply elem_of_nil in H.
Defined.

(** ** What the executor leaves alone

    A relation between the world before and after that is reflexive and
    transitive, and that holds of the steps a function is made of, holds
    of the function. *)

Section Frames.

Variable R : World -> World -> Prop.
Hypothesis R_refl : forall w, R w w.
Hypothesis R_trans : forall a b c, R a b -> R b c -> R a c.
Hypothesis R_log : forall l w, R w (add_log l w).

Lemma preserves_ret {A} (a : A) : preserves R (ret a).
Proof. intros w. apply R_refl. Qed.

Lemma preserves_raise {A} (e : exn) : preserves R (@raise A e).
Proof. intros w. apply R_refl. Qed.

Lemma preserves_lift {A} (r : result A) : preserves R (lift r).
Proof. intros w. apply R_refl. Qed.

Lemma preserves_get_world : preserves R get_world.
Proof. intros w. apply R_refl. Qed.

Lemma preserves_logger l m : preserves R (logger l m).
Proof. intros w. apply R_log. Qed.

Lemma preserves_bind {A B} (m : M A) (k : A -> M B) :
  preserves R m -> (forall a, preserves R (k a)) -> preserves R (bind m k).
Proof.
  intros Hm Hk w. rewrite bind_run. specialize (Hm w).
  destruct (m w) as [[a|e] w1]; simpl in Hm; [|exact Hm].
  eapply R_trans; [exact Hm|apply Hk].
Qed.

Lemma preserves_try {A} (m : M A) (h : exn -> M A) :
  preserves R m -> (forall e, preserves R (h e)) -> preserves R (try_except m h).
Proof.
  intros Hm Hh w. unfold try_except. specialize (Hm w).
  destruct (m w) as [[a|e] w1]; simpl in Hm; [exact Hm|].
  eapply R_trans; [exact Hm|apply Hh].
Qed.

Ltac frame :=
  repeat first
    [ assumption
    | match goal with
      | |- preserves _ (ret _) => apply preserves_ret
      | |- preserves _ (raise _) => apply preserves_raise
      | |- preserves _ (lift _) => apply preserves_lift
      | |- preserves _ (logger _ _) => apply preserves_logger
      | |- preserves _ get_world => apply preserves_get_world
      | |- preserves _ (bind _ _) => apply preserves_bind; [|intros ?]
      | |- preserves _ (try_except _ _) => apply preserves_try; [|intros ?]
      | |- preserves _ (if ?b then _ else _) => destruct b
      | |- preserves _ (match ?x with _ => _ end) => destruct x
      | |- preserves _ (let _ := _ in _) => cbv zeta
      | H : forall _, preserves _ _ |- preserves _ _ => apply H
      | H : forall _ _, preserves _ _ |- preserves _ _ => apply H
      | H : forall _ _ _, preserves _ _ |- preserves _ _ => apply H
      end ].

(** The validator only logs. *)
Lemma check_required_preserves data required :
  preserves R (check_required data required).
Proof. induction required as [|f rest IH]; simpl; frame. Qed.

Lemma validate_response_preserves (E : Env) response :
  preserves R (validate_response E response).
Proof.
  unfold validate_response, validate_body, check_script, check_knowledge.
  pose proof (check_required_preserves) as Hreq. frame; apply Hreq.
Qed.

Lemma wants_stop_preserves (E : Env) reply : preserves R (wants_stop E reply).
Proof. unfold wants_stop. frame. Qed.

(** The executor, from its steps. [okout] and [okscript] are the paths
    the steps may be handed. *)
Variable E : Env.
Variables okout okscript : pystr -> Prop.
Hypothesis R_open : forall p, okout p -> preserves R (open_trunc E p).
Hypothesis R_wait : forall p process, okout p -> preserves R (wait p process).
Hypothesis R_popen : forall argv cwd, preserves R (Popen E argv cwd).
Hypothesis R_shell : forall cmd cwd, preserves R (run_shell E cmd cwd).
Hypothesis R_write : forall p content, okscript p -> preserves R (write_file E p content).
Hypothesis R_chmod : forall p, okscript p -> preserves R (chmod_755 p).
Hypothesis okout_sanitized :
  forall name, okout (py "command_outputs/" ++ sanitize_filename (unicode_alnum E) name).
Hypothesis okscript_sanitized :
  forall name, okscript (py "scripts/" ++ sanitize_filename (unicode_alnum E) name).

Lemma run_command_preserves command output_path cwd :
  okout output_path -> preserves R (run_command E command output_path cwd).
Proof.
  intros Hp. unfold run_command.
  pose proof (R_open _ Hp) as Ho. pose proof (fun pr => R_wait _ pr Hp) as Hw.
  frame.
Qed.

Lemma filter_output_preserves cmd cwd : preserves R (filter_output E cmd cwd).
Proof.
  unfold filter_output. apply preserves_try.
  - apply preserves_bind; [apply R_shell|]. intros [[rc out] err]. frame.
  - intros e. frame.
Qed.

Lemma filter_and_finish_preserves rta cont n :
  preserves R (filter_and_finish E rta cont n).
Proof.
  unfold filter_and_finish. pose proof filter_output_preserves as Hf. frame.
Qed.

Lemma sanitize_value_sanitized v n :
  sanitize_value E v = Ok n ->
  exists name, n = sanitize_filename (unicode_alnum E) name.
Proof. destruct v; simpl; try discriminate. intros [= <-]. now eexists. Qed.

(** Binding the outcome of a pure step: nothing to show when it raises. *)
Lemma preserves_bind_lift {A B} (r : result A) (k : A -> M B) :
  (forall a, r = Ok a -> preserves R (k a)) -> preserves R (bind (lift r) k).
Proof.
  intros Hk w. rewrite bind_run. unfold lift.
  destruct r as [a|e]; [now apply Hk|apply R_refl].
Qed.

Lemma run_ai_command_preserves s : preserves R (run_ai_command E s).
Proof.
  unfold run_ai_command.
  destruct (json_loads E s) as [data|[]]; try apply preserves_raise; try apply preserves_ret.
  apply preserves_bind_lift; intros reason _.
  apply preserves_bind_lift; intros content _.
  apply preserves_bind_lift; intros command _.
  apply preserves_bind_lift; intros name _.
  apply preserves_bind_lift; intros output_name Hn.
  apply sanitize_value_sanitized in Hn as [nm ->].
  pose proof (fun c cwd => run_command_preserves c _ cwd (okout_sanitized nm)) as Hrun.
  pose proof filter_and_finish_preserves as Hfin.
  frame.
Qed.

Lemma run_script_preserves s : preserves R (run_script E s).
Proof.
  unfold run_script.
  destruct (json_loads E s) as [data|[]]; try apply preserves_raise; try apply preserves_ret.
  apply preserves_bind_lift; intros reason _.
  apply preserves_bind_lift; intros content _.
  apply preserves_bind_lift; intros script_content _.
  apply preserves_bind_lift; intros name _.
  apply preserves_bind_lift; intros output_name Hn.
  apply sanitize_value_sanitized in Hn as [nm ->].
  apply preserves_bind_lift; intros return_to_ai _.
  apply preserves_bind_lift; intros should_continue _.
  apply preserves_bind_lift; intros sname _.
  apply preserves_bind_lift; intros script_name Hs.
  apply sanitize_value_sanitized in Hs as [snm ->].
  pose proof (fun c cwd => run_command_preserves c _ cwd (okout_sanitized nm)) as Hrun.
  pose proof filter_and_finish_preserves as Hfin.
  pose proof (fun c => R_write _ c (okscript_sanitized snm)) as Hw.
  pose proof (R_chmod _ (okscript_sanitized snm)) as Hc.
  frame.
Qed.

Lemma execute_ai_command_preserves reply : preserves R (execute_ai_command E reply).
Proof.
  unfold execute_ai_command.
  pose proof (validate_response_preserves E) as Hv.
  pose proof run_ai_command_preserves as Hc.
  pose proof run_script_preserves as Hs.
  frame.
Qed.

Lemma act_preserves self reply : preserves R (act E self reply).
Proof.
  unfold act.
  pose proof execute_ai_command_preserves as Hx.
  pose proof (wants_stop_preserves E) as Hs.
  frame.
Qed.

(** The loop, once the call to the oracle is such a step too. *)
Hypothesis R_chat : forall prompt, preserves R (ai_chat E prompt).

Lemma loop_body_preserves self : preserves R (loop_body E self).
Proof.
  unfold loop_body, consult. pose proof act_preserves as Ha. frame.
Qed.

Lemma while_loop_preserves fuel self : preserves R (while_loop E fuel self).
Proof.
  revert self. induction fuel as [|fuel IH]; intros self; simpl.
  - frame.
  - destruct (iteration self <? max_iterations self)%nat; [|frame].
    apply preserves_bind; [apply loop_body_preserves|]. intros r.
    destruct (snd r); [|frame].
    apply preserves_bind; [apply IH|]. intros [[final how] passes]. frame.
Qed.

Lemma run_preserves self target_line guide_line :
  preserves R (run E self target_line guide_line).
Proof.
  unfold run, get_target_info.
  apply preserves_bind; [frame|]. intros [self0 ok].
  destruct ok; simpl; [|frame].
  apply preserves_bind; [frame|intros _].
  apply preserves_bind; [apply while_loop_preserves|].
  intros [[final how] passes]. frame.
Qed.

End Frames.

(** *** Only the log *)

Lemma log_only_refl w : log_only w w.
Proof. exists []. unfold add_log. destruct w; simpl. now rewrite app_nil_r. Qed.

Lemma log_only_trans a b c : log_only a b -> log_only b c -> log_only a c.
Proof. intros [l1 ->] [l2 ->]. exists (l1 ++ l2). apply add_log_add_log. Qed.

Lemma log_only_log l w : log_only w (add_log l w).
Proof. now exists l. Qed.

(** X7: a reply the validator turns down is not executed. The call
    returns [None], and apart from what is logged the world is as it was:
    no file is written, no process started, no prompt sent. *)
Theorem execute_ai_command_rejected (E : Env) (reply : pystr) (w : World) :
  fst (validate_response E (clean_ai_response reply) w) = Ok false ->
  exists l, execute_ai_command E reply w = (Ok None, add_log l w).
Proof.
  intros Hv. unfold execute_ai_command, try_except. rewrite bind_run.
  pose proof (validate_response_preserves log_only log_only_refl log_only_trans
                log_only_log E (clean_ai_response reply) w) as [l Hl].
  destruct (validate_response E (clean_ai_response reply) w) as [r w1].
  simpl in Hv, Hl. subst r w1. cbn [negb]. rewrite bind_run. unfold logger at 1.
  rewrite add_log_add_log. eexists. reflexivity.
Qed.

Lemma execute_ai_command_rejected_witness :
  exists l,
    execute_ai_command (example_env [] no_such_file no_filter None)
      (py "I cannot help with that.") empty_world
    = (Ok None, add_log l empty_world).
Proof.
  apply execute_ai_command_rejected. vm_compute. reflexivity.
Defined.

(** *** Files and executable bits *)

Section Within.

Variable E : Env.
Variable allowed : pystr -> Prop.
Hypothesis allowed_output : forall p, output_file E p -> allowed p.
Hypothesis allowed_script : forall p, script_file E p -> allowed p.

Lemma within_refl w : writes_within allowed E w w.
Proof. split; [congruence|auto]. Qed.

Lemma within_trans a b c :
  writes_within allowed E a b -> writes_within allowed E b c ->
  writes_within allowed E a c.
Proof.
  intros [F1 X1] [F2 X2]. split.
  - intros p Hp. destruct (decide (fs b !! p = fs a !! p)) as [Heq|Hne].
    + apply F2. congruence.
    + now apply F1.
  - intros p Hp. destruct (X2 p Hp) as [H|H]; [now apply X1|now right].
Qed.

Lemma within_log l w : writes_within allowed E w (add_log l w).
Proof. split; simpl; [congruence|auto]. Qed.

Lemma within_insert p content w :
  allowed p -> writes_within allowed E w (set_fs (<[p := content]> (fs w)) w).
Proof.
  intros Hp. split; [|auto]. simpl. intros q Hq.
  destruct (decide (p = q)) as [<-|Hne]; [exact Hp|].
  now rewrite lookup_insert_ne in Hq.
Qed.

Lemma within_open p :
  allowed p -> preserves (writes_within allowed E) (open_trunc E p).
Proof.
  intros Hp w. unfold open_trunc. destruct (open_w E w p); simpl.
  - now apply within_insert.
  - apply within_refl.
Qed.

Lemma within_wait p process :
  allowed p -> preserves (writes_within allowed E) (wait p process).
Proof.
  intros Hp w. destruct process as [pid pr]. unfold wait.
  destruct (exit_in_time pr); simpl.
  - split; [|auto]. simpl. intros q Hq.
    destruct (decide (p = q)) as [<-|Hne]; [exact Hp|].
    now rewrite lookup_insert_ne in Hq.
  - now apply within_insert.
Qed.

Lemma within_popen argv cwd :
  preserves (writes_within allowed E) (Popen E argv cwd).
Proof.
  intros w. unfold Popen.
  destruct (popen E w argv cwd); split; simpl; (congruence || auto).
Qed.

Lemma within_shell cmd cwd :
  preserves (writes_within allowed E) (run_shell E cmd cwd).
Proof.
  intros w. unfold run_shell.
  destruct (subprocess_run E w cmd cwd); split; simpl; (congruence || auto).
Qed.

Lemma within_write p content :
  allowed p -> preserves (writes_within allowed E) (write_file E p content).
Proof.
  intros Hp. unfold write_file.
  apply (preserves_bind _ within_trans); [now apply within_open|].
  intros _ w. destruct (text_encode E content); simpl.
  - now apply within_insert.
  - apply within_refl.
Qed.

Lemma within_chmod p :
  script_file E p -> preserves (writes_within allowed E) (chmod_755 p).
Proof.
  intros Hp w. split; [simpl; congruence|]. simpl. intros q Hq.
  apply elem_of_union in Hq as [Hq|Hq]; [|now left].
  apply elem_of_singleton in Hq. subst q. now right.
Qed.

(** The call to the oracle writes the history, and nothing else. *)
Lemma within_chat prompt :
  allowed history_file -> preserves (writes_within allowed E) (ai_chat E prompt).
Proof.
  intros Hh w. unfold ai_chat.
  set (sent := {| fs := fs w; executable := executable w; children := children w;
                  log := log w; prompts := prompts w ++ [prompt] |}).
  assert (Hsent : writes_within allowed E w sent)
    by (split; simpl; [congruence|auto]).
  destruct (chat E w prompt) as [text| |e]; [| exact Hsent |].
  - eapply within_trans; [exact Hsent|].
    apply (preserves_bind _ within_trans); [|intros _ w0; apply within_refl].
    unfold save_history. apply (preserves_try _ within_trans).
    + apply (preserves_bind _ within_trans); [intros w0; apply within_refl|].
      intros w1. apply (preserves_bind _ within_trans);
        [intros w0; apply within_refl|].
      intros text'. apply (preserves_bind _ within_trans);
        [now apply within_open|].
      intros _ w0. now apply within_insert.
    + intros e w0. apply within_log.
  - eapply within_trans; [exact Hsent|].
    apply (preserves_bind _ within_trans); [intros w0; apply within_log|].
    intros _ w0. apply within_refl.
Qed.

End Within.

(** X8: whatever the oracle answers, a turn writes, by itself, only to a
    sanitized name in [command_outputs] or in [scripts]; a whole run
    writes only there and to the history of the conversation, which every
    answer of the oracle rewrites. Only scripts are marked executable. *)
Theorem run_stays_inside (E : Env) (self : PentestAutomation)
    (reply target_line guide_line : pystr) (w : World) :
  stays_inside E w (snd (execute_ai_command E reply w))
  /\ stays_inside_or_history E w (snd (run E self target_line guide_line w)).
Proof.
  split.
  - apply (execute_ai_command_preserves (stays_inside E)
             (within_refl E _) (within_trans E _) (within_log E _) E
             (output_file E) (script_file E)).
    + intros p Hp. apply within_open. now left.
    + intros p pr Hp. apply within_wait. now left.
    + apply within_popen.
    + apply within_shell.
    + intros p c Hp. apply within_write. now right.
    + intros p Hp. now apply within_chmod.
    + intros name. now exists name.
    + intros name. now exists name.
  - apply (run_preserves (stays_inside_or_history E)
             (within_refl E _) (within_trans E _) (within_log E _) E
             (output_file E) (script_file E)).
    + intros p Hp. apply within_open. now left.
    + intros p pr Hp. apply within_wait. now left.
    + apply within_popen.
    + apply within_shell.
    + intros p c Hp. apply within_write. right. now left.
    + intros p Hp. now apply within_chmod.
    + intros name. now exists name.
    + intros name. now exists name.
    + intros prompt. apply within_chat. right. now right.
Qed.

(** *** Prompts *)

Lemma same_prompts_refl w : same_prompts w w.
Proof. reflexivity. Qed.

Lemma same_prompts_trans a b c :
  same_prompts a b -> same_prompts b c -> same_prompts a c.
Proof. unfold same_prompts. congruence. Qed.

Lemma write_file_same_prompts E p content w :
  prompts (snd (write_file E p content w)) = prompts w.
Proof.
  unfold write_file. rewrite bind_run. unfold open_trunc.
  destruct (open_w E w p); simpl; [|reflexivity].
  now destruct (text_encode E content).
Qed.

Lemma act_same_prompts E self reply w :
  prompts (snd (act E self reply w)) = prompts w.
Proof.
  apply (act_preserves same_prompts same_prompts_refl same_prompts_trans
           (fun _ _ => eq_refl) E (fun _ => True) (fun _ => True)); auto.
  - intros p _ w0. unfold open_trunc. now destruct (open_w E w0 p).
  - intros p [pid pr] _ w0. unfold wait. now destruct (exit_in_time pr).
  - intros argv cwd w0. unfold Popen. now destruct (popen E w0 argv cwd).
  - intros cmd cwd w0. unfold run_shell. now destruct (subprocess_run E w0 cmd cwd).
  - intros p c _ w0. apply write_file_same_prompts.
  - intros p _ w0. reflexivity.
Qed.

(** The call to the oracle adds its prompt to those sent, whatever comes
    of it. *)
Lemma save_history_same_prompts E w :
  prompts (snd (save_history E w)) = prompts w.
Proof.
  unfold save_history, try_except. rewrite bind_run. unfold get_world at 1.
  rewrite bind_run. unfold lift at 1.
  destruct (history E w) as [text|e]; [|reflexivity].
  rewrite bind_run. unfold open_trunc.
  destruct (open_w E w history_file); reflexivity.
Qed.

Lemma ai_chat_prompts E prompt w :
  exists r w1, ai_chat E prompt w = (Ok r, w1)
               /\ prompts w1 = prompts w ++ [prompt].
Proof.
  unfold ai_chat. destruct (chat E w prompt) as [text| |e].
  - rewrite bind_run.
    match goal with |- context [save_history E ?w0] =>
      pose proof (save_history_same_prompts E w0) as Hp;
      destruct (save_history_total E w0) as [w1 Hs] end.
    rewrite Hs in Hp |- *. eexists _, _. split; [reflexivity|exact Hp].
  - eexists _, _. split; reflexivity.
  - eexists _, _. split; reflexivity.
Qed.

Lemma consult_prompt E self w :
  exists r w1, consult E self w = (Ok r, w1)
               /\ prompts w1 = prompts w ++ [context self].
Proof.
  unfold consult. rewrite bind_run. unfold logger at 1.
  rewrite bind_run. unfold get_world at 1.
  rewrite bind_run. unfold logger at 1.
  match goal with |- context [ai_chat E ?p ?w0] =>
    destruct (ai_chat_prompts E p w0) as (r & w1 & -> & Hp) end.
  exists r, w1. split; [reflexivity|exact Hp].
Qed.

Lemma loop_body_prompts E self w :
  prompts (snd (loop_body E self w)) = prompts w ++ [context self].
Proof.
  unfold loop_body. rewrite bind_run.
  destruct (consult_prompt E (bump self) w) as (r & w1 & -> & Hp).
  simpl in Hp. rewrite <- Hp.
  destruct r as [[|c reply]|]; [reflexivity| |reflexivity].
  apply act_same_prompts.
Qed.

(** X9: every pass sends exactly one prompt, the context it starts with;
    the prompts of a loop are the contexts its passes start with, in
    order. Nothing else in a turn reaches the oracle. *)
Theorem one_prompt_per_pass (E : Env) (fuel : nat) (self : PentestAutomation)
    (w : World) :
  prompts (snd (loop_body E self w)) = prompts w ++ [context self]
  /\ exists final how passes w',
       while_loop E fuel self w = (Ok (final, how, passes), w')
       /\ prompts w' = prompts w ++ sent self passes.
Proof.
  split; [apply loop_body_prompts|].
  revert self w. induction fuel as [|fuel IH]; intros self w; simpl.
  - destruct (iteration self <? max_iterations self)%nat;
      eexists _, _, _, _; (split; [reflexivity|]); simpl; now rewrite app_nil_r.
  - destruct (iteration self <? max_iterations self)%nat.
    + rewrite bind_run. pose proof (loop_body_prompts E self w) as Hp.
      destruct (loop_body_total E self w) as (self' & fl & w1 & Hb & _ & _).
      rewrite Hb in Hp |- *. simpl in Hp. destruct fl; cbn [fst snd].
      * rewrite bind_run.
        destruct (IH self' w1) as (final & how & passes & w' & -> & Hs).
        eexists _, _, _, _. split; [reflexivity|].
        rewrite Hs, Hp. simpl. now rewrite <- app_assoc.
      * eexists _, _, _, _. split; [reflexivity|]. simpl. exact Hp.
    + eexists _, _, _, _. split; [reflexivity|]. simpl. now rewrite app_nil_r.
Qed.

(** ** The context *)

Lemma truncate_context_length s :
  length (truncate_context s) = Nat.min 4000 (length s).
Proof.
  unfold truncate_context. destruct (Nat.ltb_spec 4000 (length s)).
  - rewrite length_drop. lia.
  - lia.
Qed.

Lemma truncate_context_long a b :
  (4000 <= length b)%nat ->
  truncate_context (a ++ b) = drop (length b - 4000) b.
Proof.
  intros Hb. unfold truncate_context. rewrite length_app.
  destruct (Nat.ltb_spec 4000 (length a + length b)) as [Hlt|Hge].
  - replace (length a + length b - 4000)%nat
      with (length a + (length b - 4000))%nat by lia.
    now rewrite drop_app_add.
  - assert (length a = 0%nat) by lia. destruct a; [|discriminate].
    simpl. replace (length b - 4000)%nat with 0%nat by lia. reflexivity.
Qed.

Lemma act_context E self reply w :
  exists self' fl w',
    act E self reply w = (Ok (self', fl), w')
    /\ (self' = self
        \/ exists out, fst (execute_ai_command E reply w) = Ok (Some out)
                       /\ fl = Next /\ self' = fold_output self out).
Proof.
  destruct (act_cases E self reply w) as (w' & [[-> _]|(out & Hx & ->)]);
    eexists _, _, _; (split; [reflexivity|]); [now left|right].
  exists out. repeat split. exact Hx.
Qed.

Lemma loop_body_context E self w :
  exists self' fl w',
    loop_body E self w = (Ok (self', fl), w')
    /\ (context self' = context self
        \/ (length (context self') <= 4000)%nat).
Proof.
  unfold loop_body. rewrite bind_run.
  destruct (consult_total E (bump self) w) as (r & w1 & ->).
  destruct r as [[|c reply]|].
  - eexists _, _, _. split; [reflexivity|]. now left.
  - destruct (act_context E (bump self) (c :: reply) w1)
      as (self' & fl & w' & -> & [->|(out & _ & _ & ->)]);
      eexists _, _, _; (split; [reflexivity|]); [now left|right].
    simpl. rewrite truncate_context_length. lia.
  - eexists _, _, _. split; [reflexivity|]. now left.
Qed.

(** X10: the context never grows beyond 4000 characters, unless it was
    longer to begin with: after every pass of the loop, and at its end,
    the context is at most as long as the larger of 4000 and its length at
    the start. *)
Theorem context_bounded (E : Env) (fuel : nat) (self : PentestAutomation)
    (w : World) :
  exists final how passes w',
    while_loop E fuel self w = (Ok (final, how, passes), w')
    /\ (length (context final) <= Nat.max 4000 (length (context self)))%nat
    /\ Forall (fun p => (length (context (fst p))
                         <= Nat.max 4000 (length (context self)))%nat) passes.
Proof.
  revert self w. induction fuel as [|fuel IH]; intros self w; simpl.
  - destruct (iteration self <? max_iterations self)%nat;
      eexists _, _, _, _; (split; [reflexivity|]); (split; [lia|constructor]).
  - destruct (iteration self <? max_iterations self)%nat.
    + rewrite bind_run.
      destruct (loop_body_context E self w) as (self' & fl & w1 & -> & Hc).
      assert (Hb : (length (context self')
                    <= Nat.max 4000 (length (context self)))%nat)
        by (destruct Hc as [-> | Hc]; lia).
      destruct fl; cbn [fst snd].
      * rewrite bind_run.
        destruct (IH self' w1) as (final & how & passes & w' & -> & Hf & Hp).
        eexists _, _, _, _. split; [reflexivity|]. split; [lia|].
        constructor; [exact Hb|].
        eapply Forall_impl; [exact Hp|]. simpl. intros p Hl. lia.
      * eexists _, _, _, _. split; [reflexivity|]. split; [exact Hb|].
        constructor; [exact Hb|constructor].
    + eexists _, _, _, _. split; [reflexivity|]. split; [lia|constructor].
Qed.

(** X11: an output of 3978 characters or more pushes everything else out
    of the context: after such a pass the context is the end of
    [\nLast command output: <output>], and nothing of what it held before,
    the target included, is left in it. *)
Theorem long_output_fills_context (E : Env) (self self' : PentestAutomation)
    (reply out : pystr) (w w' : World) :
  fst (execute_ai_command E reply w) = Ok (Some out) ->
  (3978 <= length out)%nat ->
  act E self reply w = (Ok (self', Next), w') ->
  context self'
  = drop (length out - 3978) ([10] ++ py "Last command output: " ++ out).
Proof.
  intros Hx Hlen Hact. rewrite act_run in Hact.
  destruct (execute_ai_command E reply w) as [r w1]. simpl in Hx. subst r.
  destruct (wants_stop E reply (add_log [output_line out] w1)) as [[[]|e] w2];
    try discriminate.
  injection Hact as <- _. unfold fold_output. cbn [context].
  set (tail := [10] ++ py "Last command output: " ++ out).
  assert (Ht : length tail = (22 + length out)%nat)
    by (unfold tail; rewrite !length_app; reflexivity).
  rewrite truncate_context_long by lia. f_equal; lia.
Qed.

Lemma long_output_fills_context_witness :
  let out := repeat 97 4000 in
  let E := example_env [filtered_payload] (prints out 0)
             (fun _ => Completed 0 out []) None in
  context (fold_output fresh_run out)
  = drop (length out - 3978) ([10] ++ py "Last command output: " ++ out).
Proof.
  intros out E.
  apply (long_output_fills_context E fresh_run (fold_output fresh_run out)
           (dumps filtered_payload) out empty_world
           (snd (act E fresh_run (dumps filtered_payload) empty_world))).
  - vm_compute. reflexivity.
  - apply Nat.leb_le. vm_compute. reflexivity.
  - vm_compute. reflexivity.
Defined.

(** ** The run *)

(** X12: without a target there is no run: when the line typed for the
    target is blank, [run] logs that and returns at once; the oracle is not
    consulted, nothing is executed, and the object is as it was. *)
Theorem run_without_target (E : Env) (self : PentestAutomation)
    (target_line guide_line : pystr) (w : World) :
  Forall (fun c => isspace c = true) target_line ->
  run E self target_line guide_line w
  = (Ok (self, []),
     add_log [{| lvl := ERROR; msg := [Txt (py "No target provided")] |}] w).
Proof.
  intros Hb. unfold run, get_target_info.
  assert (Hs : strip target_line = []).
  { unfold strip, strip_by, rstrip_by. now rewrite (lstrip_by_all _ _ Hb). }
  rewrite Hs. reflexivity.
Qed.

Lemma run_without_target_witness :
  run unstartable_env new_automation (py "  ") (py "sql injection") empty_world
  = (Ok (new_automation, []),
     add_log [{| lvl := ERROR; msg := [Txt (py "No target provided")] |}]
       empty_world).
Proof.
  apply run_without_target. repeat constructor.
Defined.

(** X13: how the loop ends. It leaves by its condition exactly when no
    pass broke it, and then the counter is at the cap (or where it
    started, if that was beyond the cap); it stops early exactly when its
    last pass broke it, all passes before that having gone through. *)
Theorem loop_exit_cases (E : Env) (fuel : nat) (self : PentestAutomation)
    (w : World) :
  (max_iterations self - iteration self <= fuel)%nat ->
  exists final how passes w',
    while_loop E fuel self w = (Ok (final, how, passes), w')
    /\ match how with
       | CapReached =>
           Forall (fun p => snd p = Next) passes
           /\ iteration final = Nat.max (iteration self) (max_iterations self)
       | Stopped =>
           exists before last,
             passes = before ++ [last] /\ snd last = Break
             /\ Forall (fun p => snd p = Next) before
             /\ (iteration final <= max_iterations self)%nat
       | OutOfFuel => False
       end.
Proof.
  revert self w. induction fuel as [|fuel IH]; intros self w Hfuel; simpl.
  - destruct (Nat.ltb_spec (iteration self) (max_iterations self)); [lia|].
    eexists _, _, _, _. split; [reflexivity|]. split; [constructor|lia].
  - destruct (Nat.ltb_spec (iteration self) (max_iterations self)) as [Hlt|Hge].
    + rewrite bind_run.
      destruct (loop_body_total E self w) as (self' & fl & w1 & -> & Hit & Hmax).
      destruct fl; cbn [fst snd].
      * rewrite bind_run.
        destruct (IH self' w1 ltac:(lia)) as (final & how & passes & w' & -> & Hhow).
        eexists _, _, _, _. split; [reflexivity|].
        destruct how; [| |exact Hhow].
        -- destruct Hhow as [Hall Hfin]. split; [now constructor|lia].
        -- destruct Hhow as (before & last & -> & Hl & Hb & Hle).
           exists ((self', Next) :: before), last.
           repeat split; [exact Hl|now constructor|lia].
      * eexists _, _, _, _. split; [reflexivity|].
        exists [], (self', Break). repeat split; [constructor|simpl; lia].
    + eexists _, _, _, _. split; [reflexivity|]. split; [constructor|lia].
Qed.

Lemma loop_exit_cases_witness :
  exists final how passes w',
    while_loop unstartable_env 2
      {| context := []; iteration := 48; max_iterations := 50 |} empty_world
    = (Ok (final, how, passes), w')
    /\ match how with
       | CapReached =>
           Forall (fun p => snd p = Next) passes
           /\ iteration final = Nat.max 48 50
       | Stopped =>
           exists before last,
             passes = before ++ [last] /\ snd last = Break
             /\ Forall (fun p => snd p = Next) before
             /\ (iteration final <= 50)%nat
       | OutOfFuel => False
       end.
Proof.
  apply (loop_exit_cases unstartable_env 2
           {| context := []; iteration := 48; max_iterations := 50 |} empty_world).
  simpl. lia.
Defined.

(** X14: the loop stops on the [continue] field only when its value is
    falsy. A string is not: a reply whose [continue] is a string with
    anything in it, the word [false] as well, does not stop the loop, and
    the output of the turn is folded into the context. *)
Theorem string_continue_goes_on (E : Env) (self : PentestAutomation)
    (reply out : pystr) (kv : list (pystr * json)) (c : N) (text : pystr)
    (w w1 : World) :
  json_loads E (clean_ai_response reply) = Ok (JObject kv) ->
  dict_lookup kv (py "continue") = Some (JStr (c :: text)) ->
  execute_ai_command E reply w = (Ok (Some out), w1) ->
  act E self reply w
  = (Ok (fold_output self out, Next), add_log [output_line out] w1).
Proof.
  intros Hl Hc Hx. rewrite act_run, Hx.
  rewrite (wants_stop_continue E reply kv Hl); [reflexivity|].
  unfold field. now rewrite Hc.
Qed.

Lemma string_continue_goes_on_witness :
  let E := example_env [payload_string_continue] no_such_file no_filter None in
  let reply := dumps payload_string_continue in
  let out := py "Error executing command: nosuchprogram" in
  act E fresh_run reply empty_world
  = (Ok (fold_output fresh_run out, Next),
     add_log [output_line out] (snd (execute_ai_command E reply empty_world))).
Proof.
  intros E reply out.
  apply (string_continue_goes_on E fresh_run reply out
           [ (py "type", JStr (py "command"));
             (py "content", JStr (py "nosuchprogram"));
             (py "reason", JStr (py "test"));
             (py "continue", JStr (py "false")) ] 102 (py "alse")).
  - vm_compute. reflexivity.
  - reflexivity.
  - vm_compute. reflexivity.
Defined.

(** ** More on the executor *)

Lemma filter_output_total E cmd cwd w :
  exists out w', filter_output E cmd cwd w = (Ok out, w').
Proof.
  unfold filter_output, try_except. rewrite bind_run. unfold run_shell.
  destruct (subprocess_run E w cmd cwd) as [rc out err|t|e].
  - eexists _, _. reflexivity.
  - eexists _, _. reflexivity.
  - destruct (is_timeout e); eexists _, _; reflexivity.
Qed.

Lemma filter_and_finish_total E rta cont n w :
  exists out w', filter_and_finish E rta cont n w = (Ok out, w').
Proof.
  unfold filter_and_finish. rewrite bind_run.
  destruct (truthy rta).
  - rewrite bind_run. unfold logger at 1.
    match goal with |- context [filter_output E rta ?d ?w0] =>
      destruct (filter_output_total E rta d w0) as (out & w1 & ->) end.
    destruct (negb (truthy cont)); eexists _, _; reflexivity.
  - destruct (negb (truthy cont)); eexists _, _; reflexivity.
Qed.

Lemma run_command_total E command output_path cwd w :
  exists b w', run_command E command output_path cwd w = (Ok b, w').
Proof.
  destruct (run_command_success_iff E command output_path cwd w) as [[b Hb] _].
  destruct (run_command E command output_path cwd w) as [r w'].
  simpl in Hb. subst r. now exists b, w'.
Qed.

Lemma is_str_inv v : is_str v = true -> exists s, v = JStr s.
Proof. destruct v; try discriminate. now eexists. Qed.

(** X15: when [run_ai_command] raises. On a dictionary it raises exactly
    when [content] is not a string or [output_name] is not a string (one
    absent counts as its default, a string); the validator checks neither,
    so a validated payload can raise here. In every other case a text
    comes back. *)
Theorem run_ai_command_raises_iff (E : Env) (s : pystr)
    (kv : list (pystr * json)) (w : World) :
  json_loads E s = Ok (JObject kv) ->
  (exists e, fst (run_ai_command E s w) = Raise e)
  <-> is_str (field kv (py "content") (JStr [])) = false
      \/ is_str (field kv (py "output_name") (JStr (py "output.txt"))) = false.
Proof.
  intros Hl. unfold run_ai_command. rewrite Hl.
  rewrite bind_run. unfold lift at 1. rewrite py_get_field.
  rewrite bind_run. unfold lift at 1. rewrite py_get_field.
  rewrite bind_run. unfold lift at 1.
  destruct (is_str (field kv (py "content") (JStr []))) eqn:Hc.
  2:{ split; [now left|intros _].
      destruct (field kv (py "content") (JStr [])); try discriminate;
        eexists; reflexivity. }
  apply is_str_inv in Hc as [c ->]. cbn [str_method].
  rewrite bind_run. unfold lift at 1. rewrite py_get_field.
  rewrite bind_run. unfold lift at 1.
  destruct (is_str (field kv (py "output_name") (JStr (py "output.txt")))) eqn:Hn.
  2:{ split; [now right|intros _].
      destruct (field kv (py "output_name") (JStr (py "output.txt")));
        try discriminate; eexists; reflexivity. }
  apply is_str_inv in Hn as [n ->]. cbn [sanitize_value].
  rewrite bind_run. unfold lift at 1. rewrite py_get_field.
  rewrite bind_run. unfold lift at 1. rewrite py_get_field.
  rewrite bind_run. unfold logger at 1.
  split; [|intros [H|H]; discriminate].
  intros [e He]. exfalso.
  destruct (strip_chars (py "`") c) as [|x command]; [discriminate|].
  rewrite bind_run in He. unfold logger at 1 in He. rewrite bind_run in He.
  match type of He with context [run_command E ?c ?p ?d ?w0] =>
    destruct (run_command_total E c p d w0) as (b & w1 & Hr); rewrite Hr in He end.
  destruct b; cbn [negb] in He; [|discriminate].
  match type of He with context [filter_and_finish E ?a ?b ?c ?w0] =>
    destruct (filter_and_finish_total E a b c w0) as (out & w2 & Hf);
    rewrite Hf in He end.
  discriminate.
Qed.

Lemma run_ai_command_raises_iff_witness :
  (exists e,
      fst (run_ai_command (example_env [payload_null_name] no_such_file no_filter None)
             (dumps payload_null_name) empty_world) = Raise e)
  <-> is_str (JStr []) = false \/ is_str JNull = false.
Proof.
  apply (run_ai_command_raises_iff
           (example_env [payload_null_name] no_such_file no_filter None)
           (dumps payload_null_name)
           [ (py "type", JStr (py "command"));
             (py "content", JStr []);
             (py "reason", JStr (py "test"));
             (py "output_name", JNull);
             (py "continue", JBool true) ] empty_world).
  vm_compute. reflexivity.
Defined.

(** X16: what comes back once the command has run. If the reply asked to
    stop, the fixed text [Stopping as requested.], although the command
    has been executed and the filter, if there is one, has run; else what
    the filter gave, or, when there is no filter or it gave nothing, the
    note that names the output file. The raw output itself is never
    handed back. *)
Theorem run_ai_command_after_success (E : Env) (s : pystr)
    (kv : list (pystr * json)) (c n : pystr) (w w1 : World) :
  json_loads E s = Ok (JObject kv) ->
  dict_lookup kv (py "content") = Some (JStr c) ->
  strip_chars (py "`") c <> [] ->
  sanitize_value E (field kv (py "output_name") (JStr (py "output.txt"))) = Ok n ->
  run_command E (strip_chars (py "`") c) (py "command_outputs/" ++ n) None
    (add_log [reason_line kv; executing_line (strip_chars (py "`") c) n] w)
  = (Ok true, w1) ->
  exists filtered,
    (if truthy (field kv (py "return_to_ai") (JStr []))
     then fst (filter_output E (field kv (py "return_to_ai") (JStr []))
                 (Some (py "command_outputs"))
                 (add_log [{| lvl := INFO;
                              msg := [Txt (py "Filtering output with: ");
                                      Val (field kv (py "return_to_ai") (JStr []))] |}]
                    w1))
          = Ok filtered
     else filtered = [])
    /\ fst (run_ai_command E s w)
       = Ok (if truthy (field kv (py "continue") (JBool true)) then
               match filtered with
               | [] => py "(Raw output saved to " ++ n ++ py ")"
               | _ => filtered
               end
             else py "Stopping as requested.").
Proof.
  intros Hl Hc Hne Hn Hrun.
  rewrite (run_ai_command_runs E s kv w Hl c _ n Hc eq_refl Hne Hn).
  rewrite bind_run, Hrun. cbn [negb]. unfold filter_and_finish.
  rewrite bind_run.
  destruct (truthy (field kv (py "return_to_ai") (JStr []))).
  - rewrite bind_run. unfold logger at 1.
    match goal with |- context [filter_output E ?a ?d ?w0] =>
      destruct (filter_output_total E a d w0) as (out & w2 & ->) end.
    exists out. split; [reflexivity|].
    destruct (truthy (field kv (py "continue") (JBool true))); reflexivity.
  - exists []. split; [reflexivity|]. cbn [ret].
    destruct (truthy (field kv (py "continue") (JBool true))); reflexivity.
Qed.

Lemma run_ai_command_after_success_witness :
  let E := example_env [filtered_payload] (prints (py "bin etc home") 0)
             (fun _ => Completed 0 (py "etc") []) None in
  exists filtered,
    fst (filter_output E (JStr (py "cat output.txt")) (Some (py "command_outputs"))
           (add_log [{| lvl := INFO;
                        msg := [Txt (py "Filtering output with: ");
                                Val (JStr (py "cat output.txt"))] |}]
              (snd (run_command E (py "ls -R /") (py "command_outputs/output.txt") None
                      (add_log [{| lvl := INFO;
                                   msg := [Txt (py "Reason: "); Val (JStr (py "list"))] |};
                                executing_line (py "ls -R /") (py "output.txt")]
                         empty_world)))))
    = Ok filtered
    /\ fst (run_ai_command E (dumps filtered_payload) empty_world)
       = Ok (match filtered with
             | [] => py "(Raw output saved to output.txt)"
             | _ => filtered
             end).
Proof.
  intros E.
  apply (run_ai_command_after_success E (dumps filtered_payload)
           [ (py "type", JStr (py "command"));
             (py "content", JStr (py "ls -R /"));
             (py "reason", JStr (py "list"));
             (py "return_to_ai", JStr (py "cat output.txt"));
             (py "continue", JBool true) ]
           (py "ls -R /") (py "output.txt") empty_world
           (snd (run_command E (py "ls -R /") (py "command_outputs/output.txt") None
                   (add_log [{| lvl := INFO;
                                msg := [Txt (py "Reason: "); Val (JStr (py "list"))] |};
                             executing_line (py "ls -R /") (py "output.txt")]
                      empty_world)))).
  - vm_compute. reflexivity.
  - vm_compute. reflexivity.
  - vm_compute. discriminate.
  - vm_compute. reflexivity.
  - vm_compute. reflexivity.
Defined.

(** ** Scripts *)






Section RunScript.

Variable E : Env.
Variables (s : pystr) (kv : list (pystr * json)) (w : World).
Variables (c n name st : pystr).
Hypothesis Hloads : json_loads E s = Ok (JObject kv).
Hypothesis Hcontent : field kv (py "content") (JStr []) = JStr c.
Hypothesis Hout :
  sanitize_value E (field kv (py "output_name") (JStr (py "output.txt"))) = Ok n.
Hypothesis Hname :
  sanitize_value E (field kv (py "script_name") (JStr (py "ai_script"))) = Ok name.
Hypothesis Htype : field kv (py "script_type") (JStr []) = JStr st.

(** Up to the writing of the script nothing happens but one log line. *)
Lemma run_script_to_write :
  run_script E s w
  = (write_file E (py "scripts/" ++ name) (strip_chars (py "`") c) ;;;
     (if PyStr.eqb (str_lower E (strip st)) (py "bash")
      then chmod_755 (py "scripts/" ++ name) else ret tt) ;;;
     logger INFO [Txt (py "Executing script: " ++ name ++ py " -> "
                       ++ py "command_outputs/" ++ n)] ;;;
     if PyStr.eqb (str_lower E (strip st)) (py "python")
        || PyStr.eqb (str_lower E (strip st)) (py "bash")
     then
       success <- run_command E
                    ((if PyStr.eqb (str_lower E (strip st)) (py "python")
                      then py "python3 " else py "bash ")
                     ++ py "scripts/" ++ name)
                    (py "command_outputs/" ++ n) (Some (py "scripts")) ;;
       if negb success then ret (py "Error executing script: " ++ name)
       else filter_and_finish E (field kv (py "return_to_ai") (JStr []))
              (field kv (py "continue") (JBool true)) n
     else ret (py "Error: Unsupported script type " ++ str_lower E (strip st)))
      (add_log [running_line (str_lower E (strip st)) kv] w).
Proof.
  unfold run_script. rewrite Hloads.
  rewrite bind_run. unfold lift at 1. rewrite py_get_field.
  rewrite bind_run. unfold lift at 1. rewrite py_get_field, Hcontent.
  rewrite bind_run. unfold lift at 1. cbn [str_method].
  rewrite bind_run. unfold lift at 1. rewrite py_get_field.
  rewrite bind_run. unfold lift at 1. rewrite Hout.
  rewrite bind_run. unfold lift at 1. rewrite py_get_field.
  rewrite bind_run. unfold lift at 1. rewrite py_get_field.
  rewrite bind_run. unfold lift at 1. rewrite py_get_field.
  rewrite bind_run. unfold lift at 1. rewrite Hname.
  rewrite bind_run. unfold lift at 1. rewrite py_get_field, Htype.
  rewrite bind_run. unfold lift at 1. cbn [str_method]. cbv zeta.
  rewrite bind_run. unfold logger at 1. reflexivity.
Qed.

(** Once the script is written: the world [run_command] is called in, or
    the one the error text comes back in. *)
Lemma run_script_written :
  open_w E (add_log [running_line (str_lower E (strip st)) kv] w)
    (py "scripts/" ++ name) = Ok tt ->
  text_encode E (strip_chars (py "`") c) = Ok tt ->
  run_script E s w
  = (if PyStr.eqb (str_lower E (strip st)) (py "python")
        || PyStr.eqb (str_lower E (strip st)) (py "bash")
     then
       success <- run_command E
                    ((if PyStr.eqb (str_lower E (strip st)) (py "python")
                      then py "python3 " else py "bash ")
                     ++ py "scripts/" ++ name)
                    (py "command_outputs/" ++ n) (Some (py "scripts")) ;;
       if negb success then ret (py "Error executing script: " ++ name)
       else filter_and_finish E (field kv (py "return_to_ai") (JStr []))
              (field kv (py "continue") (JBool true)) n
     else ret (py "Error: Unsupported script type " ++ str_lower E (strip st)))
      (script_ready (str_lower E (strip st)) name n (strip_chars (py "`") c) kv w).
Proof.
  intros Ho He. rewrite run_script_to_write.
  rewrite bind_run. unfold write_file. rewrite bind_run. unfold open_trunc.
  rewrite Ho, He. rewrite bind_run.
  assert (Hw : forall k : M pystr,
             (let (r, w') :=
                (if PyStr.eqb (str_lower E (strip st)) (py "bash")
                 then chmod_755 (py "scripts/" ++ name) else ret tt)
                  (set_fs
                     (<[py "scripts/" ++ name := strip_chars (py "`") c]>
                        (fs (after_open (py "scripts/" ++ name)
                               (add_log [running_line (str_lower E (strip st)) kv] w))))
                     (after_open (py "scripts/" ++ name)
                        (add_log [running_line (str_lower E (strip st)) kv] w))) in
              match r with
              | Ok _ => (logger INFO
                           [Txt (py "Executing script: " ++ name ++ py " -> "
                                 ++ py "command_outputs/" ++ n)] ;;; k) w'
              | Raise e => (Raise e, w')
              end)
             = k (script_ready (str_lower E (strip st)) name n
                    (strip_chars (py "`") c) kv w)).
  { intros k. unfold script_ready, executing_script_line.
    destruct (PyStr.eqb (str_lower E (strip st)) (py "bash"));
      unfold chmod_755, ret; rewrite bind_run; unfold logger at 1;
      f_equal; unfold add_log, set_fs, after_open; simpl;
      rewrite insert_insert_eq, <- app_assoc; reflexivity. }
  apply Hw.
Qed.

End RunScript.


(** X17: the script is written before its type is looked at. For a type
    that is neither [python] nor [bash] (after stripping and lowering), a
    missing type included: if the file [scripts/<name>] opens and takes
    the content, it is created with the content and the error text comes
    back; if the content cannot be encoded, the write raises and the file
    is left empty; if the file does not open, the call raises and no file
    is touched. No process is started and no file marked executable. *)
Theorem run_script_unsupported_type (E : Env) (s : pystr)
    (kv : list (pystr * json)) (w : World) (c n name st : pystr) :
  json_loads E s = Ok (JObject kv) ->
  field kv (py "content") (JStr []) = JStr c ->
  sanitize_value E (field kv (py "output_name") (JStr (py "output.txt"))) = Ok n ->
  sanitize_value E (field kv (py "script_name") (JStr (py "ai_script"))) = Ok name ->
  field kv (py "script_type") (JStr []) = JStr st ->
  str_lower E (strip st) <> py "python" ->
  str_lower E (strip st) <> py "bash" ->
  exists w',
    children w' = children w
    /\ executable w' = executable w
    /\ match open_w E (add_log [running_line (str_lower E (strip st)) kv] w)
                (py "scripts/" ++ name) with
       | Ok _ =>
           match text_encode E (strip_chars (py "`") c) with
           | Ok _ =>
               run_script E s w
               = (Ok (py "Error: Unsupported script type "
                      ++ str_lower E (strip st)), w')
               /\ fs w' = <[py "scripts/" ++ name := strip_chars (py "`") c]> (fs w)
           | Raise e =>
               run_script E s w = (Raise e, w')
               /\ fs w' = <[py "scripts/" ++ name := []]> (fs w)
           end
       | Raise e => run_script E s w = (Raise e, w') /\ fs w' = fs w
       end.
Proof.
  intros Hl Hc Hn Hs Ht Hpy Hbash.
  destruct (open_w E (add_log [running_line (str_lower E (strip st)) kv] w)
              (py "scripts/" ++ name)) as [[]|e] eqn:Ho.
  - destruct (text_encode E (strip_chars (py "`") c)) as [[]|e] eqn:He.
    + rewrite (run_script_written E s kv w c n name st Hl Hc Hn Hs Ht Ho He).
      unfold PyStr.eqb.
      rewrite (bool_decide_eq_false_2 _ Hpy), (bool_decide_eq_false_2 _ Hbash).
      eexists. split; [|split; [|split; [reflexivity|]]]; simpl; try reflexivity.
      unfold PyStr.eqb. now rewrite (bool_decide_eq_false_2 _ Hbash).
    + rewrite (run_script_to_write E s kv w c n name st Hl Hc Hn Hs Ht).
      rewrite bind_run. unfold write_file. rewrite bind_run. unfold open_trunc.
      rewrite Ho, He.
      eexists. split; [|split; [|split; [reflexivity|]]]; reflexivity.
  - rewrite (run_script_to_write E s kv w c n name st Hl Hc Hn Hs Ht).
    rewrite bind_run. unfold write_file. rewrite bind_run. unfold open_trunc.
    rewrite Ho.
    eexists. split; [|split; [|split; [reflexivity|]]]; reflexivity.
Qed.

Lemma run_script_unsupported_type_witness :
  exists w',
    children w' = []
    /\ executable w' = ∅
    /\ run_script (example_env [payload_no_content] no_such_file no_filter None)
         (dumps payload_no_content) empty_world
       = (Ok (py "Error: Unsupported script type "), w')
    /\ fs w' = <[py "scripts/ai_script" := []]> (fs empty_world).
Proof.
  apply (run_script_unsupported_type
           (example_env [payload_no_content] no_such_file no_filter None)
           (dumps payload_no_content)
           [ (py "type", JStr (py "command"));
             (py "reason", JStr (py "test"));
             (py "continue", JBool true) ]
           empty_world [] (py "output.txt") (py "ai_script") []).
  - vm_compute. reflexivity.
  - reflexivity.
  - vm_compute. reflexivity.
  - vm_compute. reflexivity.
  - reflexivity.
  - vm_compute. discriminate.
  - vm_compute. discriminate.
Defined.



(** ** The knowledge base *)

Lemma eqb_refl_str (a : pystr) : PyStr.eqb a a = true.
Proof. unfold PyStr.eqb. now apply bool_decide_eq_true_2. Qed.

Lemma eqb_neq_str (a b : pystr) : a <> b -> PyStr.eqb a b = false.
Proof. unfold PyStr.eqb. now apply bool_decide_eq_false_2. Qed.

Lemma eqb_true_str (a b : pystr) : PyStr.eqb a b = true -> a = b.
Proof. unfold PyStr.eqb. now apply bool_decide_eq_true_1. Qed.

Lemma lookup_dict_set key value d ref :
  dict_lookup (KnowledgeHandler.dict_set key value d) ref
  = if decide (key = ref) then Some value else dict_lookup d ref.
Proof.
  induction d as [|[k v] rest IH]; simpl.
  - destruct (decide (key = ref)) as [->|Hne];
      [now rewrite eqb_refl_str|now rewrite eqb_neq_str].
  - destruct (PyStr.eqb k key) eqn:Hk; simpl.
    + apply eqb_true_str in Hk as ->.
      destruct (decide (key = ref)) as [->|Hne];
        [now rewrite eqb_refl_str|now rewrite eqb_neq_str].
    + rewrite IH. destruct (PyStr.eqb k ref) eqn:Hr; [|reflexivity].
      apply eqb_true_str in Hr as ->.
      destruct (decide (key = ref)) as [->|Hne]; [|reflexivity].
      now rewrite eqb_refl_str in Hk.
Qed.

(** Going through a value only adds to the map: a reference that was
    there is still there. *)
Lemma store_items_keeps path items i m ref :
  is_Some (dict_lookup m ref) ->
  is_Some (dict_lookup (KnowledgeHandler.store_items path i items m) ref).
Proof.
  revert i m. induction items as [|item rest IH]; intros i m Hm; simpl; [exact Hm|].
  apply IH. rewrite lookup_dict_set. now destruct (decide _).
Qed.

(** What a reference holds after the items of a list are stored: what it
    held before, or one of the items, under its index. *)
Lemma store_items_sound path items i m ref v :
  dict_lookup (KnowledgeHandler.store_items path i items m) ref = Some v ->
  dict_lookup m ref = Some v
  \/ exists j, items !! j = Some v
               /\ ref = path ++ py "." ++ KnowledgeHandler.str_of_nat (i + j).
Proof.
  revert i m. induction items as [|item rest IH]; intros i m H; simpl in H; [now left|].
  apply IH in H as [H|(j & Hj & ->)].
  - rewrite lookup_dict_set in H. destruct (decide _) as [<-|_]; [|now left].
    injection H as <-. right. exists 0%nat. split; [reflexivity|].
    now rewrite Nat.add_0_r.
  - right. exists (S j). split; [exact Hj|]. now rewrite Nat.add_succ_r.
Qed.

(** Induction on a decoded value, through the lists it is made of. *)
Lemma json_nested_ind (P : json -> Prop) :
  P JNull -> (forall b, P (JBool b)) -> (forall z, P (JInt z)) ->
  (forall f, P (JFloat f)) -> (forall s, P (JStr s)) ->
  (forall l, Forall P l -> P (JList l)) ->
  (forall kv, Forall (fun p => P (snd p)) kv -> P (JObject kv)) ->
  forall v, P v.
Proof.
  intros Hnull Hbool Hint Hfloat Hstr Hlist Hobj.
  fix IH 1. intros [ |b|z|f|s|l|kv];
    [exact Hnull|apply Hbool|apply Hint|apply Hfloat|apply Hstr| |].
  - apply Hlist. induction l as [|x l IHl]; constructor; [apply IH|exact IHl].
  - apply Hobj. induction kv as [|[k x] kv IHkv]; constructor; [apply IH|exact IHkv].
Qed.

(** [traverse] on the items of a dictionary, one after the other. *)
Lemma traverse_object path kv m :
  KnowledgeHandler.traverse path (JObject kv) m
  = fold_left (fun acc p =>
                 KnowledgeHandler.traverse
                   (KnowledgeHandler.new_path path (fst p)) (snd p) acc) kv m.
Proof.
  simpl. revert m. induction kv as [|[k x] kv IH]; intros m; simpl; [reflexivity|].
  apply IH.
Qed.

Lemma traverse_keeps obj : forall path m ref,
  is_Some (dict_lookup m ref) ->
  is_Some (dict_lookup (KnowledgeHandler.traverse path obj m) ref).
Proof.
  induction obj as [ |b|z|f|s|l _|kv IH] using json_nested_ind; intros path m ref Hm;
    try (simpl; rewrite lookup_dict_set; now destruct (decide _)).
  - simpl. now apply store_items_keeps.
  - rewrite traverse_object. revert m Hm.
    induction IH as [|[k x] kv Hx _ IHkv]; intros m Hm; simpl; [exact Hm|].
    apply IHkv. now apply Hx.
Qed.

(** What a reference holds after a value has been gone through: what it
    held before, or something the value holds under that reference. *)
Lemma traverse_sound obj : forall path m ref v,
  dict_lookup (KnowledgeHandler.traverse path obj m) ref = Some v ->
  dict_lookup m ref = Some v \/ KnowledgeHandler.reaches obj path ref v.
Proof.
  induction obj as [ |b|z|f|s|l _|kv IH] using json_nested_ind; intros path m ref v H;
    try (simpl in H; rewrite lookup_dict_set in H;
         destruct (decide _) as [<-|_]; [|now left];
         injection H as <-; right; now apply KnowledgeHandler.reach_leaf).
  - simpl in H. apply store_items_sound in H as [H|(j & Hj & ->)]; [now left|].
    right. now apply KnowledgeHandler.reach_item.
  - rewrite traverse_object in H. revert m H.
    induction IH as [|[k x] kv Hx _ IHkv]; intros m H; simpl in H; [now left|].
    apply IHkv in H as [H|H].
    + apply Hx in H as [H|H]; [now left|]. right.
      eapply KnowledgeHandler.reach_key; [left; reflexivity|exact H].
    + right. inversion H as [kv' p' key value r' v' Hin Hr| |]; subst.
      * eapply KnowledgeHandler.reach_key; [right; exact Hin|exact Hr].
      * contradiction.
Qed.

Lemma reaches_tail k x kv path ref v :
  KnowledgeHandler.reaches (JObject kv) path ref v ->
  KnowledgeHandler.reaches (JObject ((k, x) :: kv)) path ref v.
Proof.
  intros H. inversion H as [kv' p' key value r' v' Hin Hr| |]; subst.
  - eapply KnowledgeHandler.reach_key; [right; exact Hin|exact Hr].
  - contradiction.
Qed.

(** An item of a list is in the map under its index, unless a later item
    with the same reference has taken its place. *)
Lemma store_items_complete path items : forall i m j item,
  items !! j = Some item ->
  exists j' v',
    items !! j' = Some v'
    /\ path ++ py "." ++ KnowledgeHandler.str_of_nat (i + j')
       = path ++ py "." ++ KnowledgeHandler.str_of_nat (i + j)
    /\ dict_lookup (KnowledgeHandler.store_items path i items m)
         (path ++ py "." ++ KnowledgeHandler.str_of_nat (i + j)) = Some v'.
Proof.
  induction items as [|x rest IH]; intros i m j item Hj; [discriminate|].
  destruct j as [|j]; simpl.
  - set (ref := path ++ py "." ++ KnowledgeHandler.str_of_nat (i + 0)).
    set (m1 := KnowledgeHandler.dict_set
                 (path ++ py "." ++ KnowledgeHandler.str_of_nat i) x m).
    assert (H1 : dict_lookup m1 ref = Some x).
    { unfold m1, ref. rewrite lookup_dict_set, Nat.add_0_r.
      now rewrite decide_True by reflexivity. }
    destruct (store_items_keeps path rest (S i) m1 ref) as [v' Hv'];
      [exists x; exact H1|].
    destruct (store_items_sound _ _ _ _ _ _ Hv') as [Hold|(j' & Hj' & Href)].
    + assert (v' = x) by congruence. subst v'.
      exists 0%nat, x. split; [reflexivity|]. split; [reflexivity|exact Hv'].
    + exists (S j'), v'. split; [exact Hj'|]. split; [|exact Hv'].
      rewrite Nat.add_succ_r. exact (eq_sym Href).
  - destruct (IH (S i) (KnowledgeHandler.dict_set
                          (path ++ py "." ++ KnowledgeHandler.str_of_nat i) x m)
                j item Hj) as (j' & v' & Hj' & Href & Hv').
    exists (S j'), v'. rewrite !Nat.add_succ_r. repeat split; assumption.
Qed.

(** Whatever a value holds under a reference, the map has something the
    value holds under that reference once the value has been gone
    through. *)
Lemma traverse_complete obj : forall path m ref v,
  KnowledgeHandler.reaches obj path ref v ->
  exists v', dict_lookup (KnowledgeHandler.traverse path obj m) ref = Some v'
             /\ KnowledgeHandler.reaches obj path ref v'.
Proof.
  induction obj as [ |b|z|f|s|l _|kv IH] using json_nested_ind; intros path m ref v H;
    try (inversion H; subst; simpl; rewrite lookup_dict_set, decide_True by reflexivity;
         eexists; split; [reflexivity|exact H]).
  - inversion H as [|l' p' i item Hi|]; subst; [|contradiction].
    destruct (store_items_complete path l 0 m i v Hi) as (j' & v' & Hj' & Href & Hv').
    cbn [Nat.add] in Href, Hv'. exists v'. split; [exact Hv'|].
    rewrite <- Href. now apply KnowledgeHandler.reach_item.
  - inversion H as [kv' p' key value r' v' Hin Hr| |]; subst; [|contradiction].
    rewrite traverse_object. clear H. revert m Hin.
    induction IH as [|[k x] kv Hx _ IHkv]; intros m Hin; [destruct Hin|].
    simpl. destruct Hin as [Heq|Hin].
    + injection Heq as -> ->. cbn [snd] in Hx.
      destruct (Hx _ m _ _ Hr) as (v1 & Hv1 & Hr1).
      set (m1 := KnowledgeHandler.traverse (KnowledgeHandler.new_path path key) value m) in *.
      assert (Hsome : is_Some (dict_lookup
                (KnowledgeHandler.traverse path (JObject kv) m1) ref)).
      { apply traverse_keeps. exists v1. exact Hv1. }
      destruct Hsome as [v' Hv']. exists v'.
      rewrite <- traverse_object. split; [exact Hv'|].
      apply traverse_sound in Hv' as [Hold|Hnew].
      * assert (v' = v1) by (subst m1; congruence). subst v'.
        eapply KnowledgeHandler.reach_key; [left; reflexivity|exact Hr1].
      * now apply reaches_tail.
    + destruct (IHkv (KnowledgeHandler.traverse
                        (KnowledgeHandler.new_path path k) x m) Hin)
        as (v' & Hv' & Hr').
      exists v'. split; [exact Hv'|]. now apply reaches_tail.
Qed.

(** X19: what the knowledge base answers is in it. On a string,
    [get_knowledge] never raises, and gives either the text
    [Reference not found] or a value the knowledge holds under that very
    reference: an entry of a dictionary that is neither a dictionary nor a
    list, at the dotted path of its keys, or an item of a list, at the
    path of the list followed by its index. *)
Theorem get_knowledge_sound (knowledge : json) (ref : pystr) :
  exists v,
    KnowledgeHandler.get_knowledge (KnowledgeHandler.init knowledge) (JStr ref) = Ok v
    /\ (v = JStr (py "Reference not found")
        \/ KnowledgeHandler.reaches knowledge [] ref v).
Proof.
  unfold KnowledgeHandler.get_knowledge, KnowledgeHandler.init,
    KnowledgeHandler._create_reference_map.
  cbn [KnowledgeHandler.reference_map].
  destruct (dict_lookup (KnowledgeHandler.traverse [] knowledge []) ref) as [v|] eqn:Hv.
  - exists v. split; [reflexivity|]. right.
    apply traverse_sound in Hv as [Hv|Hv]; [discriminate|exact Hv].
  - eexists. split; [reflexivity|]. now left.
Qed.

(** X20: and what is in it, it answers: a value the knowledge holds under
    a reference, and the only one it holds under that reference, is what
    [get_knowledge] gives for it. *)
Theorem get_knowledge_finds (knowledge : json) (ref : pystr) (v : json) :
  KnowledgeHandler.reaches knowledge [] ref v ->
  (forall v', KnowledgeHandler.reaches knowledge [] ref v' -> v' = v) ->
  KnowledgeHandler.get_knowledge (KnowledgeHandler.init knowledge) (JStr ref) = Ok v.
Proof.
  intros Hr Huniq.
  destruct (traverse_complete knowledge [] [] ref v Hr) as (v' & Hv' & Hr').
  unfold KnowledgeHandler.get_knowledge, KnowledgeHandler.init,
    KnowledgeHandler._create_reference_map.
  cbn [KnowledgeHandler.reference_map]. rewrite Hv'. f_equal. now apply Huniq.
Qed.

Lemma get_knowledge_finds_witness :
  KnowledgeHandler.get_knowledge (KnowledgeHandler.init small_knowledge)
    (JStr (py "xss.payloads.0")) = Ok (JStr (py "<script>")).
Proof.
  apply get_knowledge_finds.
  - eapply KnowledgeHandler.reach_key; [left; reflexivity|].
    eapply KnowledgeHandler.reach_key; [right; left; reflexivity|].
    exact (KnowledgeHandler.reach_item [JStr (py "<script>"); JStr []]
             (py "xss.payloads") 0 (JStr (py "<script>")) eq_refl).
  - intros v' H. unfold small_knowledge in H.
    repeat match goal with
           | H : In _ (_ :: _) |- _ => destruct H as [[= <- <-]|H]
           | H : In _ [] |- _ => destruct H
           | H : False |- _ => destruct H
           | H : KnowledgeHandler.reaches (JObject _) _ _ _ |- _ =>
               inversion H; subst; clear H
           | H : KnowledgeHandler.reaches (JList _) _ _ _ |- _ =>
               inversion H; subst; clear H
           | H : KnowledgeHandler.reaches (JStr _) _ _ _ |- _ =>
               inversion H; subst; clear H
           end.
    match goal with
    | Hi : _ !! ?i = Some _, Hs : KnowledgeHandler.str_of_nat ?i = _ |- _ =>
        destruct i as [|[|i]];
          [now injection Hi as <-|discriminate Hs|discriminate Hi]
    end.
Defined.

(** ** The validator and the knowledge base *)

(** A dictionary that passes the other checks: what is left of the
    validator is the look at the knowledge reference. *)
Lemma validate_response_to_knowledge E response kv w :
  json_loads E (clean_ai_response response) = Ok (JObject kv) ->
  passes_checks kv = true ->
  validate_response E response w
  = try_except (check_knowledge E (JObject kv) ;;; ret true)
      (fun e =>
         if is_json_error e then
           logger ERROR [Txt (py "AI response is not valid JSON")] ;;; ret false
         else
           logger ERROR [Txt (py "Error validating AI response: "); Exc e] ;;;
           ret false) w.
Proof.
  intros Hl Hp. unfold passes_checks in Hp.
  apply andb_true_iff in Hp as [Hp Hscript]. apply andb_true_iff in Hp as [Hall Hin].
  assert (Hty : has_key kv (py "type") = true).
  { rewrite forallb_forall in Hall. apply Hall. left. reflexivity. }
  unfold has_key in Hty. unfold field in Hin, Hscript.
  destruct (dict_lookup kv (py "type")) as [ty|] eqn:Ety; [|discriminate].
  unfold validate_response, try_except, validate_body.
  rewrite bind_run. unfold lift at 1. rewrite Hl.
  rewrite bind_run, check_required_dict.
  destruct (List.find _ required_fields) as [f|] eqn:Hfind.
  { apply find_some in Hfind as [Hf Hn]. rewrite forallb_forall in Hall.
    rewrite (Hall f Hf) in Hn. discriminate. }
  cbn [negb]. rewrite bind_run. unfold lift at 1. rewrite (py_getitem_dict _ _ _ Ety).
  rewrite Hin. cbn [negb]. rewrite bind_run.
  destruct (check_script_dict kv ty w Ety) as (w' & -> & Hw).
  rewrite Hscript, (Hw Hscript). cbn [negb]. reflexivity.
Qed.

(** X21: a knowledge reference never makes a reply invalid by being
    wrong. A falsy one is not looked up. For another, the reply passes
    whatever the lookup gives, with a warning in the log exactly when it
    gives something falsy; only a lookup that raises makes the validator
    turn the reply down. *)
Theorem validate_response_knowledge_ref (E : Env) (response : pystr)
    (kv : list (pystr * json)) (kr : json) (w : World) :
  json_loads E (clean_ai_response response) = Ok (JObject kv) ->
  passes_checks kv = true ->
  dict_lookup kv (py "knowledge_ref") = Some kr ->
  validate_response E response w
  = if truthy kr then
      match get_knowledge E kr with
      | Ok knowledge =>
          (Ok true,
           if truthy knowledge then w
           else add_log [{| lvl := WARNING;
                            msg := [Txt (py "Invalid knowledge reference: ");
                                    Val kr] |}] w)
      | Raise e =>
          (Ok false,
           add_log [{| lvl := ERROR;
                       msg := if is_json_error e
                              then [Txt (py "AI response is not valid JSON")]
                              else [Txt (py "Error validating AI response: ");
                                    Exc e] |}] w)
      end
    else (Ok true, w).
Proof.
  intros Hl Hp Hk. rewrite (validate_response_to_knowledge E response kv w Hl Hp).
  unfold try_except. rewrite bind_run. unfold check_knowledge.
  rewrite bind_run. unfold lift at 1. rewrite py_in_dict.
  unfold has_key. rewrite Hk. cbv iota.
  rewrite (py_getitem_dict _ _ _ Hk). unfold bind, lift, ret.
  destruct (truthy kr); [|reflexivity].
  destruct (get_knowledge E kr) as [knowledge|e].
  - destruct (truthy knowledge); reflexivity.
  - destruct (is_json_error e); reflexivity.
Qed.

Lemma validate_response_knowledge_ref_witness :
  let kr := JStr (py "xss.payloads.1") in
  let E := with_knowledge (KnowledgeHandler.init small_knowledge)
             (example_env [payload_with_ref kr] no_such_file no_filter None) in
  validate_response E (dumps (payload_with_ref kr)) empty_world
  = (Ok true,
     add_log [{| lvl := WARNING;
                 msg := [Txt (py "Invalid knowledge reference: "); Val kr] |}]
       empty_world).
Proof.
  intros kr E.
  apply (validate_response_knowledge_ref E (dumps (payload_with_ref kr))
           [ (py "type", JStr (py "command"));
             (py "content", JStr (py "ls"));
             (py "reason", JStr (py "test"));
             (py "continue", JBool true);
             (py "knowledge_ref", kr) ] kr empty_world).
  - vm_compute. reflexivity.
  - vm_compute. reflexivity.
  - reflexivity.
Defined.

(** X22: with the knowledge base of the repository answering, a
    reference that is not in the map is not reported: the lookup gives
    the text [Reference not found], which is truthy, so the reply passes
    and nothing is logged. A reference that is a list with something in
    it cannot be looked up, and the reply is turned down. *)
Theorem unknown_reference_not_reported (E : Env) (h : KnowledgeHandler.handler)
    (response : pystr) (kv : list (pystr * json)) (kr : json) (w : World) :
  json_loads E (clean_ai_response response) = Ok (JObject kv) ->
  passes_checks kv = true ->
  dict_lookup kv (py "knowledge_ref") = Some kr ->
  get_knowledge E kr = KnowledgeHandler.get_knowledge h kr ->
  (forall ref,
      kr = JStr ref -> ref <> [] ->
      dict_lookup (KnowledgeHandler.reference_map h) ref = None ->
      validate_response E response w = (Ok true, w))
  /\ (forall x l,
        kr = JList (x :: l) ->
        validate_response E response w
        = (Ok false,
           add_log [{| lvl := ERROR;
                       msg := [Txt (py "Error validating AI response: ");
                               Exc (TypeError (py "unhashable type: 'list'"))] |}]
             w)).
Proof.
  intros Hl Hp Hk Hh.
  rewrite (validate_response_to_knowledge E response kv w Hl Hp).
  unfold try_except. rewrite bind_run. unfold check_knowledge.
  rewrite bind_run. unfold lift at 1. rewrite py_in_dict.
  unfold has_key. rewrite Hk. cbv iota.
  rewrite (py_getitem_dict _ _ _ Hk). unfold bind, lift, ret.
  rewrite Hh. split.
  - intros ref -> Hne Hnone. destruct ref as [|c ref]; [congruence|]. cbn [truthy].
    unfold KnowledgeHandler.get_knowledge. rewrite Hnone. reflexivity.
  - intros x l ->. reflexivity.
Qed.

Lemma unknown_reference_not_reported_witness :
  let kr := JStr (py "xss.type.stored") in
  let E := with_knowledge (KnowledgeHandler.init small_knowledge)
             (example_env [payload_with_ref kr] no_such_file no_filter None) in
  validate_response E (dumps (payload_with_ref kr)) empty_world
  = (Ok true, empty_world).
Proof.
  intros kr E.
  refine (proj1 (unknown_reference_not_reported E
                   (KnowledgeHandler.init small_knowledge)
                   (dumps (payload_with_ref kr))
                   [ (py "type", JStr (py "command"));
                     (py "content", JStr (py "ls"));
                     (py "reason", JStr (py "test"));
                     (py "continue", JBool true);
                     (py "knowledge_ref", kr) ] kr empty_world _ _ _ _)
            (py "xss.type.stored") eq_refl _ _).
  - vm_compute. reflexivity.
  - vm_compute. reflexivity.
  - reflexivity.
  - reflexivity.
  - discriminate.
  - vm_compute. reflexivity.
Defined.

(** ** Cleaning twice

    [execute_ai_command] cleans the reply and hands the cleaned text to
    [validate_response], which cleans it again; what is executed is the
    text cleaned once. *)

(** X23: once no backtick is left in the cleaned reply, cleaning it again
    changes nothing, so the validator looks at the very text that is
    executed afterwards. *)
Theorem clean_ai_response_stable (E : Env) (reply : pystr) (w : World) :
  96 ∉ clean_ai_response reply ->
  clean_ai_response (clean_ai_response reply) = clean_ai_response reply
  /\ validate_response E (clean_ai_response reply) w = validate_response E reply w.
Proof.
  intros H.
  assert (Hc : clean_ai_response (clean_ai_response reply) = clean_ai_response reply).
  { unfold clean_ai_response in *. destruct reply as [|c reply]; [reflexivity|].
    set (y := strip (sub_fences 0 true (strip (c :: reply)))) in *.
    assert (Hy : strip y = y) by apply strip_by_idem.
    clearbody y.
    assert (G : strip (sub_fences 0 true (strip y)) = y).
    { rewrite Hy. rewrite <- (app_nil_r y) at 1.
      rewrite sub_fences_plain by exact H. simpl. rewrite app_nil_r. exact Hy. }
    destruct y; [reflexivity|exact G]. }
  split; [exact Hc|].
  unfold validate_response, validate_body. now rewrite Hc.
Qed.

Lemma clean_ai_response_stable_witness :
  clean_ai_response
    (clean_ai_response (py "```json" ++ 10 :: py "{}" ++ 10 :: py "```"))
  = clean_ai_response (py "```json" ++ 10 :: py "{}" ++ 10 :: py "```").
Proof.
  refine (proj1 (clean_ai_response_stable unstartable_env
                   (py "```json" ++ 10 :: py "{}" ++ 10 :: py "```")
                   empty_world _)).
  vm_compute. intros H. repeat (apply elem_of_cons in H as [H|H]; [discriminate|]).
  now apply elem_of_nil in H.
Defined.

(** ** Searching the knowledge base *)

Lemma startswith_nil a : startswith a [] = true.
Proof. destruct a; reflexivity. Qed.

Lemma contains_nil a : contains a [] = true.
Proof. destruct a; reflexivity. Qed.

Lemma filter_sublist {A} (f : A -> bool) (l : list A) :
  sublist (List.filter f l) l.
Proof.
  induction l as [|x l IH]; simpl; [constructor|].
  destruct (f x); now constructor.
Qed.

(** X24: [search_knowledge] gives entries of the reference map, in the
    order of the map: its result is the map with the entries left out
    whose key does not contain the term and whose value is not a string
    that contains it (case apart). The empty search term is in every key,
    so it gives the whole map. *)
Theorem search_knowledge_entries (lower : pystr -> pystr)
    (h : KnowledgeHandler.handler) (search_term : pystr) :
  sublist (KnowledgeHandler.search_knowledge lower h search_term)
    (KnowledgeHandler.reference_map h)
  /\ (forall entry,
        In entry (KnowledgeHandler.search_knowledge lower h search_term)
        <-> In entry (KnowledgeHandler.reference_map h)
            /\ (contains (lower (fst entry)) (lower search_term) = true
                \/ exists text, snd entry = JStr text
                                /\ contains (lower text) (lower search_term) = true))
  /\ (lower search_term = [] ->
      KnowledgeHandler.search_knowledge lower h search_term
      = KnowledgeHandler.reference_map h).
Proof.
  unfold KnowledgeHandler.search_knowledge. split; [apply filter_sublist|]. split.
  - intros entry. rewrite filter_In, orb_true_iff.
    split; intros [Hin Hm]; (split; [exact Hin|]).
    + destruct Hm as [Hk|Hv]; [now left|]. right.
      destruct (snd entry); try discriminate. now eexists.
    + destruct Hm as [Hk|(text & -> & Hv)]; [now left|now right].
  - intros ->. induction (KnowledgeHandler.reference_map h) as [|e m IH];
      [reflexivity|].
    simpl. rewrite contains_nil. simpl. now rewrite IH.
Qed.

(** ** The first prompt *)

Lemma prompts_grow_trans (a b c : World) :
  (exists l, prompts b = prompts a ++ l) ->
  (exists l, prompts c = prompts b ++ l) ->
  exists l, prompts c = prompts a ++ l.
Proof.
  intros [l1 H1] [l2 H2]. exists (l1 ++ l2). now rewrite H2, H1, app_assoc.
Qed.

Lemma while_loop_prompts_grow E fuel self w :
  exists l, prompts (snd (while_loop E fuel self w)) = prompts w ++ l.
Proof.
  apply (while_loop_preserves (fun a b => exists l, prompts b = prompts a ++ l)
           (fun a => ex_intro _ [] (eq_sym (app_nil_r _)))
           prompts_grow_trans
           (fun _ a => ex_intro _ [] (eq_sym (app_nil_r _)))
           E (fun _ => True) (fun _ => True)); auto.
  - intros p _ w0. exists []. rewrite app_nil_r. unfold open_trunc.
    now destruct (open_w E w0 p).
  - intros p [pid pr] _ w0. exists []. rewrite app_nil_r. unfold wait.
    now destruct (exit_in_time pr).
  - intros argv cwd w0. exists []. rewrite app_nil_r. unfold Popen.
    now destruct (popen E w0 argv cwd).
  - intros cmd cwd w0. exists []. rewrite app_nil_r. unfold run_shell.
    now destruct (subprocess_run E w0 cmd cwd).
  - intros p c _ w0. exists []. rewrite app_nil_r.
    apply write_file_same_prompts.
  - intros p _ w0. exists []. now rewrite app_nil_r.
  - intros prompt w0. exists [prompt].
    destruct (ai_chat_prompts E prompt w0) as (r & w1 & -> & Hp). exact Hp.
Qed.

(** X25: what the oracle is told first. When a target is given and the
    counter is below the cap, the first prompt of the run is the target
    and the guidance as typed, stripped of the white space around them,
    with [No additional guidance] for a blank guidance. *)
Theorem first_prompt (E : Env) (self : PentestAutomation)
    (target_line guide_line : pystr) (w : World) :
  strip target_line <> [] ->
  (iteration self < max_iterations self)%nat ->
  exists later,
    prompts (snd (run E self target_line guide_line w))
    = prompts w
      ++ (py "Target: " ++ strip target_line ++ [10]
          ++ py "Additional context: "
          ++ match strip guide_line with
             | [] => py "No additional guidance"
             | _ => strip guide_line
             end) :: later.
Proof.
  intros Ht Hit. unfold run. rewrite bind_run. unfold get_target_info.
  destruct (strip target_line) as [|c target] eqn:Et; [congruence|].
  rewrite bind_run.
  match goal with |- context [match ?m w with _ => _ end] =>
    assert (Hm : exists w1, m w = (Ok tt, w1) /\ prompts w1 = prompts w)
      by (destruct (target_matches E (c :: target)); eexists; split; reflexivity);
    destruct Hm as (w1 & -> & Hp1) end.
  rewrite bind_run. unfold logger at 1. cbn [ret negb].
  rewrite bind_run. unfold logger at 1. rewrite bind_run.
  cbn [iteration max_iterations].
  destruct (max_iterations self - iteration self)%nat as [|fuel] eqn:Ef; [lia|].
  cbn [while_loop iteration max_iterations].
  destruct (Nat.ltb_spec (iteration self) (max_iterations self)) as [_|]; [|lia].
  rewrite bind_run.
  match goal with |- context [loop_body E ?s ?w2] =>
    pose proof (loop_body_prompts E s w2) as Hp;
    destruct (loop_body_total E s w2) as (self' & fl & w3 & Hb & Hi & Hm) end.
  rewrite Hb in Hp |- *. cbn [snd context prompts add_log] in Hp.
  cbn [iteration max_iterations] in Hi, Hm.
  rewrite Hp1 in Hp. destruct fl; cbn [fst snd].
  - rewrite bind_run.
    destruct (while_loop_prompts_grow E fuel self' w3) as [l Hl].
    destruct (while_loop_bounded E fuel self' w3) as
      (final & how & passes & w' & Hw & _); [|rewrite Hw in Hl |- *].
    + lia.
    + simpl in Hl |- *. exists l. rewrite Hl, Hp, <- app_assoc. reflexivity.
  - simpl. exists []. exact Hp.
Qed.

Lemma first_prompt_witness :
  exists later,
    prompts (snd (run unstartable_env new_automation (py " example.com ") [] empty_world))
    = [] ++ (py "Target: example.com" ++ [10]
             ++ py "Additional context: No additional guidance") :: later.
Proof.
  apply (first_prompt unstartable_env new_automation (py " example.com ") []
           empty_world).
  - vm_compute. discriminate.
  - simpl. lia.
Defined.

(** ** The filter *)

(** X26: the filter of a reply is not checked against the denylist. Once
    the command has run, a filter that is there is handed to the shell as
    it is, in [command_outputs]: the process is started whatever the
    filter says. *)
Theorem filter_runs_unchecked (E : Env) (s : pystr)
    (kv : list (pystr * json)) (c n : pystr) (w w1 : World)
    (rc : Z) (out err : pystr) :
  json_loads E s = Ok (JObject kv) ->
  dict_lookup kv (py "content") = Some (JStr c) ->
  strip_chars (py "`") c <> [] ->
  sanitize_value E (field kv (py "output_name") (JStr (py "output.txt"))) = Ok n ->
  run_command E (strip_chars (py "`") c) (py "command_outputs/" ++ n) None
    (add_log [reason_line kv; executing_line (strip_chars (py "`") c) n] w)
  = (Ok true, w1) ->
  truthy (field kv (py "return_to_ai") (JStr [])) = true ->
  (forall w0,
      subprocess_run E w0 (field kv (py "return_to_ai") (JStr []))
        (Some (py "command_outputs")) = Completed rc out err) ->
  children (snd (run_ai_command E s w))
  = children w1
    ++ [{| args := field kv (py "return_to_ai") (JStr []); shell := true;
           child_cwd := Some (py "command_outputs"); running := false;
           returncode := Some rc |}].
Proof.
  intros Hl Hc Hne Hn Hrun Hf Hsub.
  rewrite (run_ai_command_runs E s kv w Hl c _ n Hc eq_refl Hne Hn).
  rewrite bind_run, Hrun. cbn [negb]. unfold filter_and_finish.
  rewrite bind_run, Hf. rewrite bind_run. unfold logger at 1.
  unfold filter_output, try_except. rewrite bind_run. unfold run_shell.
  rewrite Hsub. cbn [ret].
  destruct (negb (truthy (field kv (py "continue") (JBool true)))); reflexivity.
Qed.

Lemma filter_runs_unchecked_witness :
  let E := example_env [payload_with_filter] (prints (py "a b") 0)
             (fun _ => Completed 0 (py "a b") []) None in
  validate_command (py "rm -rf /tmp/x; cat output.txt") = false
  /\ children (snd (run_ai_command E (dumps payload_with_filter) empty_world))
     = children
         (snd (run_command E (py "ls") (py "command_outputs/output.txt") None
                 (add_log [{| lvl := INFO;
                              msg := [Txt (py "Reason: "); Val (JStr (py "list"))] |};
                           executing_line (py "ls") (py "output.txt")]
                    empty_world)))
       ++ [{| args := JStr (py "rm -rf /tmp/x; cat output.txt"); shell := true;
              child_cwd := Some (py "command_outputs"); running := false;
              returncode := Some 0%Z |}].
Proof.
  intros E. split; [vm_compute; reflexivity|].
  apply (filter_runs_unchecked E (dumps payload_with_filter)
           [ (py "type", JStr (py "command"));
             (py "content", JStr (py "ls"));
             (py "reason", JStr (py "list"));
             (py "return_to_ai", JStr (py "rm -rf /tmp/x; cat output.txt"));
             (py "continue", JBool true) ]
           (py "ls") (py "output.txt") empty_world
           (snd (run_command E (py "ls") (py "command_outputs/output.txt") None
                   (add_log [{| lvl := INFO;
                                msg := [Txt (py "Reason: "); Val (JStr (py "list"))] |};
                             executing_line (py "ls") (py "output.txt")]
                      empty_world)))
           0%Z (py "a b") []).
  - vm_compute. reflexivity.
  - vm_compute. reflexivity.
  - vm_compute. discriminate.
  - vm_compute. reflexivity.
  - vm_compute. reflexivity.
  - reflexivity.
  - reflexivity.
Defined.
